(** * stile-css: the parser handlers, the block view, the transformer and
    the renderer, embedded from the TypeScript sources.

    Conventions of the embedding.
    - A JavaScript string is a [string]: a sequence of code units, each
      below 256.  Every literal the sources compare against is ASCII.
    - A JavaScript array is a [list]; an optional field ([children?],
      [properties?], [metadata?]) is an [option].
    - A function that can throw returns a [result]; a function that mutates
      its argument returns the mutated value. *)

From Stdlib Require Import String Ascii List Bool Arith ZArith Lia.
From Stdlib Require Import Numbers.DecimalString.
Import ListNotations.

Open Scope string_scope.
Open Scope list_scope.

Set Warnings "-register-all".

(** String concatenation, written apart from list concatenation. *)
Infix "+:+" := String.append (right associativity, at level 60).

(* ================================================================== *)
(** ** Results of code that can throw *)

Inductive result (E A : Type) : Type :=
| Ok (a : A)
| Err (e : E).

Arguments Ok {E A} a.
Arguments Err {E A} e.

Definition bind {E A B : Type} (r : result E A) (k : A -> result E B)
  : result E B :=
  match r with
  | Ok a => k a
  | Err e => Err e
  end.

Notation "x <- r ;; k" := (bind r (fun x => k))
  (at level 61, r at next level, right associativity).

(* ================================================================== *)
(** ** The string primitives of JavaScript that the sources call *)

Module Js.

(** The string made of one double quote (code unit 34). *)
Definition doubleQuote : string := String (ascii_of_nat 34) EmptyString.

(** [s.startsWith(p)] *)
Definition startsWith (s p : string) : bool := String.prefix p s.

(** [s.includes(p)]: [p] occurs somewhere in [s]. *)
Fixpoint includes (s p : string) : bool :=
  if String.prefix p s then true
  else match s with
       | EmptyString => false
       | String _ s' => includes s' p
       end.

(** [l.join(sep)] *)
Definition join (sep : string) (l : list string) : string :=
  String.concat sep l.

(** White space and line terminators of ECMAScript among the code units
    below 256: TAB, LF, VT, FF, CR, SPACE and NBSP. *)
Definition isWhiteSpace (c : ascii) : bool :=
  let n := nat_of_ascii c in
  (((9 <=? n) && (n <=? 13)) || (n =? 32) || (n =? 160))%nat.

Fixpoint trimStart (s : string) : string :=
  match s with
  | EmptyString => EmptyString
  | String c s' => if isWhiteSpace c then trimStart s' else s
  end.

Fixpoint trimEnd (s : string) : string :=
  match s with
  | EmptyString => EmptyString
  | String c s' =>
      match trimEnd s' with
      | EmptyString => if isWhiteSpace c then EmptyString
                       else String c EmptyString
      | t => String c t
      end
  end.

(** [s.trim()] *)
Definition trim (s : string) : string := trimEnd (trimStart s).

(** A string used as a condition: the empty string is falsy. *)
Definition truthy (s : string) : bool :=
  match s with
  | EmptyString => false
  | String _ _ => true
  end.

(** [`${n}`] for a non-negative integer. *)
Definition ofNat (n : nat) : string :=
  NilEmpty.string_of_uint (Nat.to_uint n).

(** [GetSubstitution] of ECMAScript for a pattern without capture
    groups: in the replacement [template], [$$] stands for a dollar,
    [$&] for the matched text, [$`] for the text before the match and
    [$'] for the text after it; every other character, a lone dollar
    included, stands for itself ([$1] has no group to refer to). *)
Fixpoint getSubstitution (matched before after template : string)
  : string :=
  match template with
  | EmptyString => EmptyString
  | String c t =>
      if (c =? "$")%char then
        match t with
        | EmptyString => String c EmptyString
        | String d t' =>
            if (d =? "$")%char then
              String "$" (getSubstitution matched before after t')
            else if (d =? "&")%char then
              matched +:+ getSubstitution matched before after t'
            else if (d =? "`")%char then
              before +:+ getSubstitution matched before after t'
            else if (d =? "'")%char then
              after +:+ getSubstitution matched before after t'
            else String c (getSubstitution matched before after t)
        end
      else String c (getSubstitution matched before after t)
  end.

(** [s.replace(/&/g, template)], scanning [s] from left to right;
    [before] is the part of the subject already scanned. *)
Fixpoint replaceAmpersandsFrom (before s template : string) : string :=
  match s with
  | EmptyString => EmptyString
  | String c rest =>
      if (c =? "&")%char then
        getSubstitution "&" before rest template
        +:+ replaceAmpersandsFrom (before +:+ "&") rest template
      else
        String c
          (replaceAmpersandsFrom (before +:+ String c EmptyString)
             rest template)
  end.

Definition replaceAmpersands (s template : string) : string :=
  replaceAmpersandsFrom EmptyString s template.

(** The longest prefix of [s] whose characters all differ from [stop],
    and what follows it. *)
Fixpoint spanNot (stop : ascii) (s : string) : string * string :=
  match s with
  | EmptyString => (EmptyString, EmptyString)
  | String c s' =>
      if (c =? stop)%char then (EmptyString, s)
      else let (a, r) := spanNot stop s' in (String c a, r)
  end.

(** [s.replace(/^[^(]+(\([^)]+\))[^)]*$/, '$1')].  The pattern is
    anchored at both ends and each of its three classes excludes the
    character that must follow it, so a match is unique: a non-empty run
    without "(", then "(", a non-empty run without ")", then ")", then a
    rest without ")".  On a match the whole subject is replaced by the
    group; without a match [replace] returns the subject. *)
Definition replaceWithFirstGroup (s : string) : string :=
  match spanNot "(" s with
  | (String _ _, String _ afterOpen) =>
      match spanNot ")" afterOpen with
      | (String b0 b, String _ afterClose) =>
          if includes afterClose ")" then s
          else "(" +:+ String b0 b +:+ ")"
      | _ => s
      end
  | _ => s
  end.

End Js.

(* ================================================================== *)
(** ** The tree *)

Module Ast.

Record Property : Type := { key : string; value : string }.

Record Position : Type := { line : nat; column : nat }.

Record Metadata : Type := { start : Position; end_ : option Position }.

Inductive Block : Type :=
  mkBlock {
      selectors : list string;
      properties : option (list Property);
      children : option (list Block);
      metadata : option Metadata
    }.

Definition AbstractTree : Type := list Block.

(** Every block of the forest, a block before its descendants. *)
Fixpoint blocksOf (b : Block) : list Block :=
  b :: match children b with
       | None => []
       | Some l =>
           (fix go (l : list Block) : list Block :=
              match l with
              | [] => []
              | c :: l' => blocksOf c ++ go l'
              end) l
       end.

Definition blocksOfTree (tree : AbstractTree) : list Block :=
  flat_map blocksOf tree.

End Ast.

Import Ast.

(* ================================================================== *)
(** ** Renderer (src/core/modules/renderer) *)

Module Renderer.

Inductive RenderFailure : Type :=
| RenderingError (message : string)
| TypeError (message : string).

(** [state.output]: an object used as a map from context name to its
    fragments.  [Object.entries] lists string keys in insertion order;
    the keys are "root" or start with "@", so none is an array index. *)
Record RenderState : Type := { output : list (string * list string) }.

Fixpoint lookup (o : list (string * list string)) (context : string)
  : option (list string) :=
  match o with
  | [] => None
  | (c, fs) :: o' => if (c =? context)%string then Some fs
                     else lookup o' context
  end.

(** [state.output[context].push(fragment)] on a key that is present. *)
Fixpoint push (o : list (string * list string)) (context fragment : string)
  : list (string * list string) :=
  match o with
  | [] => []
  | (c, fs) :: o' =>
      if (c =? context)%string then (c, fs ++ [fragment]) :: o'
      else (c, fs) :: push o' context fragment
  end.

(** [if (!state.output[context]) state.output[context] = []] *)
Definition ensure (o : list (string * list string)) (context : string)
  : list (string * list string) :=
  match lookup o context with
  | Some _ => o
  | None => o ++ [(context, [])]
  end.

(** [new RenderingError(message, block)] *)
Definition newRenderingError (message : string) (block : Block)
  : RenderFailure :=
  let show (f : Position -> nat) :=
    match metadata block with
    | Some m => Js.ofNat (f (start m))
    | None => "undefined"
    end in
  RenderingError
    ("Rendering error: " +:+ message +:+ " @ line " +:+ show line
       +:+ " (column " +:+ show column +:+ ").").

Definition renderSelector (selector parent : string) : string :=
  if Js.includes selector "&" then Js.replaceAmpersands selector parent
  else parent +:+ " " +:+ selector.

Definition renderProperties (properties : list Property) : string :=
  Js.join ";" (map (fun property => key property +:+ ":" +:+ value property)
                 properties).

(** [renderBlockContent], with the recursive call to [renderBlock] as a
    parameter. *)
Definition renderBlockContentWith
  (renderBlock : RenderState -> Block -> string -> list string
                 -> result RenderFailure RenderState)
  (state : RenderState) (context : string) (selectors : list string)
  (blockProperties : option (list Property))
  (blockChildren : option (list Block))
  : result RenderFailure RenderState :=
  let state := {| output := ensure (output state) context |} in
  let state :=
    match blockProperties with
    | Some (p :: ps) =>
        {| output :=
            push (output state) context
              (Js.join "," selectors +:+ "{"
                 +:+ renderProperties (p :: ps) +:+ "}") |}
    | _ => state
    end in
  match blockChildren with
  | Some l =>
      (fix each (l : list Block) (state : RenderState)
         : result RenderFailure RenderState :=
         match l with
         | [] => Ok state
         | child :: l' =>
             state <- renderBlock state child context selectors ;;
             each l' state
         end) l state
  | None => Ok state
  end.

(** The ordinary-rule selector list (block.ts, lines 66-69). *)
Definition combineSelectors (selectors parents : list string)
  : list string :=
  flat_map
    (fun selector =>
       match parents with
       | [] => [selector]
       | _ => map (fun parent => renderSelector selector parent) parents
       end) selectors.

Fixpoint renderBlock (state : RenderState) (block : Block)
  (context : string) (parents : list string)
  : result RenderFailure RenderState :=
  match block with
  | mkBlock blockSelectors blockProperties blockChildren _ =>
      match blockSelectors with
      | [] =>
          Err (TypeError
                 "Cannot read properties of undefined (reading 'startsWith')")
      | first :: _ =>
          if Js.startsWith first "@media screen" then
            if Js.includes context "screen" then
              Err (newRenderingError
                     "Nested media queries are not supported" block)
            else if Js.includes context "-color-scheme" then
              Err (newRenderingError
                     "Responsive media queries cannot be nested inside color scheme at-rules"
                     block)
            else
              renderBlockContentWith renderBlock state first parents
                blockProperties blockChildren
          else if Js.startsWith first "@media"
                  && Js.includes first "-color-scheme" then
            if Js.includes context "-color-scheme" then
              Err (newRenderingError
                     "Nested color scheme at-rules are not supported" block)
            else
              let targetContext :=
                if negb (Js.startsWith context "@media screen") then first
                else context +:+ "and" +:+ Js.replaceWithFirstGroup first in
              renderBlockContentWith renderBlock state targetContext parents
                blockProperties blockChildren
          else if Js.startsWith first "@" then
            if Js.startsWith context "@" then
              Err (newRenderingError
                     "Nested at-rules are not supported" block)
            else
              renderBlockContentWith renderBlock state first []
                blockProperties blockChildren
          else
            renderBlockContentWith renderBlock state context
              (combineSelectors blockSelectors parents)
              blockProperties blockChildren
      end
  end.

Definition renderBlockContent (state : RenderState) (context : string)
  (selectors : list string) (block : Block)
  : result RenderFailure RenderState :=
  renderBlockContentWith renderBlock state context selectors
    (properties block) (children block).

(** The fragment a block with properties pushes. *)
Definition ownFragment (selectors : list string) (l : list Property)
  : string :=
  Js.join "," selectors +:+ "{" +:+ renderProperties l +:+ "}".

(** The state once [renderBlockContent] has dealt with the block's own
    properties, before it turns to the children. *)
Definition afterOwnFragment (state : RenderState) (context : string)
  (selectors : list string) (block : Block) : RenderState :=
  match properties block with
  | Some (p :: ps) =>
      {| output :=
          push (ensure (output state) context) context
            (ownFragment selectors (p :: ps)) |}
  | _ => {| output := ensure (output state) context |}
  end.

(** The loop of [renderBlockContent] over the children, on its own. *)
Fixpoint renderChildren (state : RenderState) (context : string)
  (parents : list string) (l : list Block)
  : result RenderFailure RenderState :=
  match l with
  | [] => Ok state
  | child :: l' =>
      state <- renderBlock state child context parents ;;
      renderChildren state context parents l'
  end.

(** The loop of [renderTreeToString] over the root blocks. *)
Fixpoint renderRoots (state : RenderState) (tree : AbstractTree)
  : result RenderFailure RenderState :=
  match tree with
  | [] => Ok state
  | block :: tree' =>
      state <- renderBlock state block "root" [] ;;
      renderRoots state tree'
  end.

(** One entry of [Object.entries(state.output)] turned into text. *)
Definition renderGroup (group : string * list string) : string :=
  let (context, blocks) := group in
  match blocks with
  | [] => ""
  | _ => if (context =? "root")%string then Js.join "" blocks
         else context +:+ "{" +:+ Js.join "" blocks +:+ "}"
  end.

Definition renderTreeToString (tree : AbstractTree)
  : result RenderFailure string :=
  state <- renderRoots {| output := [] |} tree ;;
  Ok (Js.join "" (map renderGroup (output state))).

End Renderer.


(* ================================================================== *)
(** ** Mutable block view and tree transformer (transformer module) *)

Module Transformer.

(** [block.properties!] behind the view: [makeMutableBlock] has put an
    array there before any method can run. *)
Definition propertiesOf (block : Block) : list Property :=
  match properties block with
  | Some l => l
  | None => []
  end.

Definition withSelectors (block : Block) (l : list string) : Block :=
  mkBlock l (properties block) (children block) (metadata block).

Definition withProperties (block : Block) (l : list Property) : Block :=
  mkBlock (selectors block) (Some l) (children block) (metadata block).

Definition withChildren (block : Block) (l : option (list Block)) : Block :=
  mkBlock (selectors block) (properties block) l (metadata block).

(** [block.properties = block.properties || []]; an array, empty or
    not, is truthy.  The view itself is the methods below, all closed
    over this one block. *)
Definition makeMutableBlock (block : Block) : Block :=
  match properties block with
  | Some _ => block
  | None => withProperties block []
  end.

Definition hasChildren (block : Block) : bool :=
  match children block with
  | Some (_ :: _) => true
  | _ => false
  end.

Definition getSelectors (block : Block) : list string := selectors block.

Definition setSelectors (newSelectors : list string) (block : Block)
  : Block :=
  withSelectors block newSelectors.

Definition hasKey (k : string) (property : Property) : bool :=
  (key property =? k)%string.

Definition hasProperty (k : string) (block : Block) : bool :=
  existsb (hasKey k) (propertiesOf block).

Definition getProperty (k : string) (block : Block) : option string :=
  option_map value (find (hasKey k) (propertiesOf block)).

Definition getProperties (block : Block) : list Property :=
  propertiesOf block.

(** [property.value = value] on the entry that [find] returned: the
    first one with the key. *)
Fixpoint assignFirst (k v : string) (l : list Property) : list Property :=
  match l with
  | [] => []
  | property :: l' =>
      if hasKey k property then {| key := key property; value := v |} :: l'
      else property :: assignFirst k v l'
  end.

Definition setProperty (k v : string) (block : Block) : Block :=
  match find (hasKey k) (propertiesOf block) with
  | Some _ => withProperties block (assignFirst k v (propertiesOf block))
  | None =>
      withProperties block (propertiesOf block ++ [{| key := k; value := v |}])
  end.

Definition removeProperty (k : string) (block : Block) : Block :=
  withProperties block
    (filter (fun property => negb (hasKey k property)) (propertiesOf block)).

(** What a handler throws, as far as the [catch] clause of
    [transformTree] can tell: the clause reads [error.message] of the
    caught value, whatever that value is, and puts it in a template
    literal.
    - [ThrownError message]: a value whose [message] reads as this text,
      as that of an [Error] does;
    - [ThrownPlain]: a value other than [null] and [undefined] with no
      [message], such as a string or a number ([throw 'boom']): its
      [message] is [undefined];
    - [ThrownNull], [ThrownUndefined]: [throw null], [throw undefined]:
      reading [message] of either is itself a [TypeError].
    Not covered: a value whose [message] is an accessor that throws, or
    one that cannot be turned into text (a [Symbol]). *)
Inductive Thrown : Type :=
| ThrownError (message : string)
| ThrownPlain
| ThrownNull
| ThrownUndefined.

(** What a transform handler can do: return, throw a value, call a
    method of the view it was given, or act on the world outside the
    tree (here: append a line to a log). *)
Inductive HandlerCode : Type :=
| Return
| Throw (thrown : Thrown)
| Emit (entry : string) (k : HandlerCode)
| HasChildren (k : bool -> HandlerCode)
| GetSelectors (k : list string -> HandlerCode)
| SetSelectors (newSelectors : list string) (k : HandlerCode)
| HasProperty (name : string) (k : bool -> HandlerCode)
| GetProperty (name : string) (k : option string -> HandlerCode)
| GetProperties (k : list Property -> HandlerCode)
| SetProperty (name v : string) (k : HandlerCode)
| RemoveProperty (name : string) (k : HandlerCode).

Record TransformPlugin : Type := { handler : HandlerCode }.

Definition World : Type := list string.

(** The state a run leaves behind, and what it threw if it threw. *)
Definition Outcome (E A : Type) : Type := (A * World) * option E.

(** [plugin.handler(mutableBlock)] *)
Fixpoint runHandler (code : HandlerCode) (block : Block) (world : World)
  : Outcome Thrown Block :=
  match code with
  | Return => ((block, world), None)
  | Throw thrown => ((block, world), Some thrown)
  | Emit entry k => runHandler k block (world ++ [entry])
  | HasChildren k => runHandler (k (hasChildren block)) block world
  | GetSelectors k => runHandler (k (getSelectors block)) block world
  | SetSelectors l k => runHandler k (setSelectors l block) world
  | HasProperty name k => runHandler (k (hasProperty name block)) block world
  | GetProperty name k => runHandler (k (getProperty name block)) block world
  | GetProperties k => runHandler (k (getProperties block)) block world
  | SetProperty name v k => runHandler k (setProperty name v block) world
  | RemoveProperty name k => runHandler k (removeProperty name block) world
  end.

(** [for (const plugin of plugins) plugin.handler(mutableBlock)] *)
Fixpoint runPlugins (plugins : list TransformPlugin) (block : Block)
  (world : World) : Outcome Thrown Block :=
  match plugins with
  | [] => ((block, world), None)
  | plugin :: plugins' =>
      match runHandler (handler plugin) block world with
      | ((block, world), None) => runPlugins plugins' block world
      | thrown => thrown
      end
  end.

(** What leaves [transformTree] when it throws: the [Error] built in the
    [catch] clause, or the [TypeError] that evaluating [error.message]
    raised inside that clause.  Both carry a message. *)
Inductive Failure : Type :=
| TransformationError (message : string)
| CatchTypeError (message : string).

Definition failureMessage (failure : Failure) : string :=
  match failure with
  | TransformationError message => message
  | CatchTypeError message => message
  end.

(** The message of the [Error] built in the [catch] clause, from the
    text that [error.message] gave. *)
Definition transformationError (message : string) (block : Block) : string :=
  "Transformation error: " +:+ message
    +:+ match metadata block with
        | Some m => " @ line " +:+ Js.ofNat (line (start m))
        | None => ""
        end.

(** [String(undefined)], which is what the template literal makes of a
    [message] that is not there. *)
Definition undefinedText : string := "undefined".

(** The [TypeError] of reading [message] of [null] or [undefined]. *)
Definition cannotReadMessage (value : string) : string :=
  "Cannot read properties of " +:+ value +:+ " (reading 'message')".

(** [`${error.message}`]: the text, or the message of the [TypeError]
    that reading the property raises. *)
Definition readMessage (thrown : Thrown) : result string string :=
  match thrown with
  | ThrownError message => Ok message
  | ThrownPlain => Ok undefinedText
  | ThrownNull => Err (cannotReadMessage "null")
  | ThrownUndefined => Err (cannotReadMessage "undefined")
  end.

(** The [catch] clause, for a value thrown by a handler: the argument of
    [new Error] is evaluated first, so a [TypeError] raised there is what
    the clause throws. *)
Definition caught (thrown : Thrown) (block : Block) : Failure :=
  match readMessage thrown with
  | Ok message => TransformationError (transformationError message block)
  | Err message => CatchTypeError message
  end.

(** The [catch] clause, for what the recursive call on the children
    threw: always an object with a message. *)
Definition rethrown (failure : Failure) (block : Block) : Failure :=
  TransformationError (transformationError (failureMessage failure) block).

(** [for (const block of tree) ...], with the loop body as a parameter;
    the loop stops at the first block whose body throws. *)
Definition forEachBlock (body : Block -> World -> Outcome Failure Block)
  : AbstractTree -> World -> Outcome Failure AbstractTree :=
  fix each (tree : AbstractTree) (world : World)
    : Outcome Failure AbstractTree :=
    match tree with
    | [] => (([], world), None)
    | block :: rest =>
        match body block world with
        | ((block, world), None) =>
            match each rest world with
            | ((rest, world), thrown) => ((block :: rest, world), thrown)
            end
        | ((block, world), Some failure) =>
            ((block :: rest, world), Some failure)
        end
    end.

(** The body of the loop of [transformTree]: the [try] block and its
    [catch].  No method of the view assigns [children] or [metadata], so
    both are read from the block as it came in. *)
Fixpoint transformBlock (plugins : list TransformPlugin) (block : Block)
  (world : World) : Outcome Failure Block :=
  match block with
  | mkBlock _ _ blockChildren _ =>
      match runPlugins plugins (makeMutableBlock block) world with
      | ((mutated, world), Some thrown) =>
          ((mutated, world), Some (caught thrown block))
      | ((mutated, world), None) =>
          match blockChildren with
          | Some l =>
              match forEachBlock (transformBlock plugins) l world with
              | ((l, world), Some failure) =>
                  ((withChildren mutated (Some l), world),
                    Some (rethrown failure block))
              | ((l, world), None) =>
                  ((withChildren mutated (Some l), world), None)
              end
          | None => ((mutated, world), None)
          end
      end
  end.

Definition transformTree (tree : AbstractTree)
  (plugins : list TransformPlugin) (world : World)
  : Outcome Failure AbstractTree :=
  forEachBlock (transformBlock plugins) tree world.

End Transformer.


(* ================================================================== *)
(** ** Parser: the delimiter handlers (src/core/modules/parser/delimiters.ts) *)

Module Parser.

(** Blocks are shared between [state.stack], [state.tree] and the
    [children] arrays of their parents, and the handlers mutate them
    through any of these references.  The store [blocks] holds every
    block created so far; a reference is an index into it. *)
Definition Ref : Type := nat.

Record BlockObject : Type := {
    selectors : list string;
    properties : option (list Property);
    children : option (list Ref);
    metadata : Metadata
  }.

Record ParserState : Type := {
    buffer : string;
    stack : list Ref;
    selectorStack : list string;
    tree : list Ref;
    blocks : list BlockObject;
    isStringLiteral : bool;
    isAtRule : bool;
    isNestedSelector : bool;
    isCustomProperty : bool;
    currentParenthesisLevel : Z;
    currentPropertyName : string;
    currentLine : nat;
    currentColumn : nat
  }.

Record ParsingError : Type := {
    message : string;
    errorLine : nat;
    errorColumn : nat
  }.

(** Modelled from the spec: the class [ParsingError] of the parser's
    index module, which is not among the sources; it carries the message
    and the line and column at the moment of failure. *)
Definition newParsingError (text : string) (state : ParserState)
  : ParsingError :=
  {| message := text;
     errorLine := currentLine state;
     errorColumn := currentColumn state |}.

(** *** Assignments to the fields of the state *)

Definition setBuffer (state : ParserState) (b : string) : ParserState :=
  {| buffer := b; stack := stack state;
     selectorStack := selectorStack state; tree := tree state;
     blocks := blocks state; isStringLiteral := isStringLiteral state;
     isAtRule := isAtRule state;
     isNestedSelector := isNestedSelector state;
     isCustomProperty := isCustomProperty state;
     currentParenthesisLevel := currentParenthesisLevel state;
     currentPropertyName := currentPropertyName state;
     currentLine := currentLine state;
     currentColumn := currentColumn state |}.

Definition setStack (state : ParserState) (l : list Ref) : ParserState :=
  {| buffer := buffer state; stack := l;
     selectorStack := selectorStack state; tree := tree state;
     blocks := blocks state; isStringLiteral := isStringLiteral state;
     isAtRule := isAtRule state;
     isNestedSelector := isNestedSelector state;
     isCustomProperty := isCustomProperty state;
     currentParenthesisLevel := currentParenthesisLevel state;
     currentPropertyName := currentPropertyName state;
     currentLine := currentLine state;
     currentColumn := currentColumn state |}.

Definition setSelectorStack (state : ParserState) (l : list string)
  : ParserState :=
  {| buffer := buffer state; stack := stack state;
     selectorStack := l; tree := tree state;
     blocks := blocks state; isStringLiteral := isStringLiteral state;
     isAtRule := isAtRule state;
     isNestedSelector := isNestedSelector state;
     isCustomProperty := isCustomProperty state;
     currentParenthesisLevel := currentParenthesisLevel state;
     currentPropertyName := currentPropertyName state;
     currentLine := currentLine state;
     currentColumn := currentColumn state |}.

Definition setTree (state : ParserState) (l : list Ref) : ParserState :=
  {| buffer := buffer state; stack := stack state;
     selectorStack := selectorStack state; tree := l;
     blocks := blocks state; isStringLiteral := isStringLiteral state;
     isAtRule := isAtRule state;
     isNestedSelector := isNestedSelector state;
     isCustomProperty := isCustomProperty state;
     currentParenthesisLevel := currentParenthesisLevel state;
     currentPropertyName := currentPropertyName state;
     currentLine := currentLine state;
     currentColumn := currentColumn state |}.

Definition setBlocks (state : ParserState) (l : list BlockObject)
  : ParserState :=
  {| buffer := buffer state; stack := stack state;
     selectorStack := selectorStack state; tree := tree state;
     blocks := l; isStringLiteral := isStringLiteral state;
     isAtRule := isAtRule state;
     isNestedSelector := isNestedSelector state;
     isCustomProperty := isCustomProperty state;
     currentParenthesisLevel := currentParenthesisLevel state;
     currentPropertyName := currentPropertyName state;
     currentLine := currentLine state;
     currentColumn := currentColumn state |}.

Definition setIsStringLiteral (state : ParserState) (b : bool)
  : ParserState :=
  {| buffer := buffer state; stack := stack state;
     selectorStack := selectorStack state; tree := tree state;
     blocks := blocks state; isStringLiteral := b;
     isAtRule := isAtRule state;
     isNestedSelector := isNestedSelector state;
     isCustomProperty := isCustomProperty state;
     currentParenthesisLevel := currentParenthesisLevel state;
     currentPropertyName := currentPropertyName state;
     currentLine := currentLine state;
     currentColumn := currentColumn state |}.

Definition setIsAtRule (state : ParserState) (b : bool) : ParserState :=
  {| buffer := buffer state; stack := stack state;
     selectorStack := selectorStack state; tree := tree state;
     blocks := blocks state; isStringLiteral := isStringLiteral state;
     isAtRule := b;
     isNestedSelector := isNestedSelector state;
     isCustomProperty := isCustomProperty state;
     currentParenthesisLevel := currentParenthesisLevel state;
     currentPropertyName := currentPropertyName state;
     currentLine := currentLine state;
     currentColumn := currentColumn state |}.

Definition setIsNestedSelector (state : ParserState) (b : bool)
  : ParserState :=
  {| buffer := buffer state; stack := stack state;
     selectorStack := selectorStack state; tree := tree state;
     blocks := blocks state; isStringLiteral := isStringLiteral state;
     isAtRule := isAtRule state;
     isNestedSelector := b;
     isCustomProperty := isCustomProperty state;
     currentParenthesisLevel := currentParenthesisLevel state;
     currentPropertyName := currentPropertyName state;
     currentLine := currentLine state;
     currentColumn := currentColumn state |}.

Definition setIsCustomProperty (state : ParserState) (b : bool)
  : ParserState :=
  {| buffer := buffer state; stack := stack state;
     selectorStack := selectorStack state; tree := tree state;
     blocks := blocks state; isStringLiteral := isStringLiteral state;
     isAtRule := isAtRule state;
     isNestedSelector := isNestedSelector state;
     isCustomProperty := b;
     currentParenthesisLevel := currentParenthesisLevel state;
     currentPropertyName := currentPropertyName state;
     currentLine := currentLine state;
     currentColumn := currentColumn state |}.

Definition setCurrentParenthesisLevel (state : ParserState) (n : Z)
  : ParserState :=
  {| buffer := buffer state; stack := stack state;
     selectorStack := selectorStack state; tree := tree state;
     blocks := blocks state; isStringLiteral := isStringLiteral state;
     isAtRule := isAtRule state;
     isNestedSelector := isNestedSelector state;
     isCustomProperty := isCustomProperty state;
     currentParenthesisLevel := n;
     currentPropertyName := currentPropertyName state;
     currentLine := currentLine state;
     currentColumn := currentColumn state |}.

Definition setCurrentPropertyName (state : ParserState) (name : string)
  : ParserState :=
  {| buffer := buffer state; stack := stack state;
     selectorStack := selectorStack state; tree := tree state;
     blocks := blocks state; isStringLiteral := isStringLiteral state;
     isAtRule := isAtRule state;
     isNestedSelector := isNestedSelector state;
     isCustomProperty := isCustomProperty state;
     currentParenthesisLevel := currentParenthesisLevel state;
     currentPropertyName := name;
     currentLine := currentLine state;
     currentColumn := currentColumn state |}.

Definition setPosition (state : ParserState) (l c : nat) : ParserState :=
  {| buffer := buffer state; stack := stack state;
     selectorStack := selectorStack state; tree := tree state;
     blocks := blocks state; isStringLiteral := isStringLiteral state;
     isAtRule := isAtRule state;
     isNestedSelector := isNestedSelector state;
     isCustomProperty := isCustomProperty state;
     currentParenthesisLevel := currentParenthesisLevel state;
     currentPropertyName := currentPropertyName state;
     currentLine := l;
     currentColumn := c |}.

(** *** Arrays used as stacks, and the store *)

(** [stack[stack.length - 1]] *)
Definition top (l : list Ref) : option Ref := nth_error (rev l) 0.

(** [stack.pop()] leaves the array without its last element. *)
Definition pop (l : list Ref) : list Ref := removelast l.

(** Assignment through a reference: the object at index [r] replaced. *)
Fixpoint update (l : list BlockObject) (r : Ref) (f : BlockObject -> BlockObject)
  : list BlockObject :=
  match l, r with
  | [], _ => []
  | b :: l', O => f b :: l'
  | b :: l', S r' => b :: update l' r' f
  end.

Definition appendChild (child : Ref) (parent : BlockObject) : BlockObject :=
  {| selectors := selectors parent;
     properties := properties parent;
     children := match children parent with
                 | Some l => Some (l ++ [child])
                 | None => Some [child]
                 end;
     metadata := metadata parent |}.

Definition appendProperty (property : Property) (block : BlockObject)
  : BlockObject :=
  {| selectors := selectors block;
     properties := match properties block with
                   | Some l => Some (l ++ [property])
                   | None => Some [property]
                   end;
     children := children block;
     metadata := metadata block |}.

Definition stampEnd (p : Position) (block : BlockObject) : BlockObject :=
  {| selectors := selectors block;
     properties := properties block;
     children := children block;
     metadata := {| start := start (metadata block); end_ := Some p |} |}.

Definition here (state : ParserState) : Position :=
  {| line := currentLine state; column := currentColumn state |}.

(** *** The ten handlers *)

Definition handleOpeningBrace (state : ParserState)
  : result ParsingError ParserState :=
  let selector := Js.trim (buffer state) in
  if (String.length selector =? 0)%nat then
    Err (newParsingError "Unexpected opening brace" state)
  else
    let block :=
      {| selectors := selectorStack state ++ [selector];
         properties := None;
         children := None;
         metadata := {| start := here state; end_ := None |} |} in
    if (1 <? List.length (selectors block))%nat
       && existsb (fun s => Js.startsWith s "@") (selectors block) then
      Err (newParsingError "At-rule mixed with other selectors" state)
    else
      let ref := List.length (blocks state) in
      let state := setBlocks state (blocks state ++ [block]) in
      let state :=
        match top (stack state) with
        | Some parent =>
            setBlocks state (update (blocks state) parent (appendChild ref))
        | None => setTree state (tree state ++ [ref])
        end in
      let state := setStack state (stack state ++ [ref]) in
      let state := setSelectorStack state [] in
      let state := setIsNestedSelector state false in
      Ok (setBuffer state "").

Definition handleClosingBrace (state : ParserState)
  : result ParsingError ParserState :=
  match top (stack state) with
  | None => Err (newParsingError "Unexpected closing brace" state)
  | Some block =>
      if Js.truthy (currentPropertyName state) then
        Err (newParsingError "Unexpected closing brace" state)
      else
        let state := setStack state (pop (stack state)) in
        let state :=
          setBlocks state (update (blocks state) block (stampEnd (here state))) in
        Ok (setBuffer state "")
  end.

Definition handleSemicolon (state : ParserState)
  : result ParsingError ParserState :=
  if isStringLiteral state then
    Ok (setBuffer state (buffer state +:+ ";"))
  else
    let v := Js.trim (buffer state) in
    if negb (Js.truthy (currentPropertyName state)) || negb (Js.truthy v) then
      Err (newParsingError
             "Unexpected semicolon (expected property declaration)" state)
    else
      match top (stack state) with
      | None =>
          Err (newParsingError "Unexpected semicolon (outside block)" state)
      | Some currentBlock =>
          let property :=
            {| key := currentPropertyName state; value := v |} in
          let state :=
            setBlocks state
              (update (blocks state) currentBlock (appendProperty property)) in
          let state := setCurrentPropertyName state "" in
          let state := setIsCustomProperty state false in
          Ok (setBuffer state "")
      end.

Definition handleColon (state : ParserState)
  : result ParsingError ParserState :=
  if isAtRule state || isStringLiteral state || isNestedSelector state
     || (List.length (stack state) =? 0)%nat then
    Ok (setBuffer state (buffer state +:+ ":"))
  else if Js.truthy (currentPropertyName state)
          && negb (isCustomProperty state) then
    Err (newParsingError "Unexpected colon (expected property value)" state)
  else
    let state := setCurrentPropertyName state (Js.trim (buffer state)) in
    let state :=
      setIsCustomProperty state
        (Js.startsWith (currentPropertyName state) "!") in
    Ok (setBuffer state "").

Definition handleComma (state : ParserState)
  : result ParsingError ParserState :=
  if isStringLiteral state || Js.truthy (currentPropertyName state)
     || (0 <? currentParenthesisLevel state)%Z then
    Ok (setBuffer state (buffer state +:+ ","))
  else if negb (isCustomProperty state)
          && (currentParenthesisLevel state =? 0)%Z then
    let selector := Js.trim (buffer state) in
    if negb (Js.truthy selector) then
      Err (newParsingError "Unexpected comma (expected selector)" state)
    else
      let state := setSelectorStack state (selectorStack state ++ [selector]) in
      Ok (setBuffer state "")
  else Ok state.

Definition handleAmpersand (state : ParserState)
  : result ParsingError ParserState :=
  let state := setBuffer state (buffer state +:+ "&") in
  if negb (isCustomProperty state) && negb (isStringLiteral state) then
    Ok (setIsNestedSelector state true)
  else Ok state.

Definition handleAtSign (state : ParserState)
  : result ParsingError ParserState :=
  let state := setBuffer state (buffer state +:+ "@") in
  if negb (isCustomProperty state) then Ok (setIsAtRule state true)
  else Ok state.

(** [buffer[buffer.length - 2] === '\\'], read after the quote has been
    appended; an index below zero reads [undefined]. *)
Definition escapedQuote (b : string) : bool :=
  if (String.length b <? 2)%nat then false
  else match String.get (String.length b - 2) b with
       | Some c => (c =? "\")%char
       | None => false
       end.

Definition handleDoubleQuote (state : ParserState)
  : result ParsingError ParserState :=
  let state := setBuffer state (buffer state +:+ Js.doubleQuote) in
  if negb (isCustomProperty state) then
    if isStringLiteral state then
      Ok (setIsStringLiteral state (escapedQuote (buffer state)))
    else Ok (setIsStringLiteral state true)
  else Ok state.

Definition handleOpeningParenthesis (state : ParserState)
  : result ParsingError ParserState :=
  let state := setBuffer state (buffer state +:+ "(") in
  if negb (isCustomProperty state) && negb (isStringLiteral state) then
    Ok (setCurrentParenthesisLevel state (currentParenthesisLevel state + 1))
  else Ok state.

Definition handleClosingParenthesis (state : ParserState)
  : result ParsingError ParserState :=
  let state := setBuffer state (buffer state +:+ ")") in
  if negb (isCustomProperty state) && negb (isStringLiteral state) then
    Ok (setCurrentParenthesisLevel state (currentParenthesisLevel state - 1))
  else Ok state.

(** [export const delimiters = { ... }]: the handlers by name, in the
    order of the source. *)
Definition delimiters
  : list (string * (ParserState -> result ParsingError ParserState)) :=
  [("handleOpeningBrace", handleOpeningBrace);
   ("handleClosingBrace", handleClosingBrace);
   ("handleSemicolon", handleSemicolon);
   ("handleColon", handleColon);
   ("handleComma", handleComma);
   ("handleAmpersand", handleAmpersand);
   ("handleAtSign", handleAtSign);
   ("handleDoubleQuote", handleDoubleQuote);
   ("handleOpeningParenthesis", handleOpeningParenthesis);
   ("handleClosingParenthesis", handleClosingParenthesis)].

End Parser.


(* ================================================================== *)
(** ** Parser: the scan loop *)

Module Scanner.

Import Parser.

(** The state a parse starts from. *)
Definition initialState : ParserState :=
  {| buffer := EmptyString; stack := []; selectorStack := []; tree := [];
     blocks := []; isStringLiteral := false; isAtRule := false;
     isNestedSelector := false; isCustomProperty := false;
     currentParenthesisLevel := 0%Z; currentPropertyName := EmptyString;
     currentLine := 1; currentColumn := 0 |}.

(** The handler a special character dispatches to (the table of the
    spec, section 4.1; the handlers are those of delimiters.ts). *)
Definition handlerOf (c : ascii)
  : option (ParserState -> result ParsingError ParserState) :=
  if (c =? "{")%char then Some handleOpeningBrace
  else if (c =? "}")%char then Some handleClosingBrace
  else if (c =? ";")%char then Some handleSemicolon
  else if (c =? ":")%char then Some handleColon
  else if (c =? ",")%char then Some handleComma
  else if (c =? "&")%char then Some handleAmpersand
  else if (c =? "@")%char then Some handleAtSign
  else if (c =? ascii_of_nat 34)%char then Some handleDoubleQuote
  else if (c =? "(")%char then Some handleOpeningParenthesis
  else if (c =? ")")%char then Some handleClosingParenthesis
  else None.

(** Modelled from the spec: one turn of the character scan loop of
    [createTreeFromString], whose source is not among the files.  The
    position counters advance (a line break increments [currentLine] and
    resets [currentColumn] to 0); a special character dispatches to its
    handler, any other is appended verbatim to [buffer]. *)
Definition scanCharacter (state : ParserState) (c : ascii)
  : result ParsingError ParserState :=
  let state :=
    if (c =? ascii_of_nat 10)%char
    then setPosition state (S (currentLine state)) 0
    else setPosition state (currentLine state) (S (currentColumn state)) in
  match handlerOf c with
  | Some handle => handle state
  | None => Ok (setBuffer state (buffer state +:+ String c EmptyString))
  end.

Fixpoint scan (state : ParserState) (source : string)
  : result ParsingError ParserState :=
  match source with
  | EmptyString => Ok state
  | String c source' =>
      state <- scanCharacter state c ;;
      scan state source'
  end.

(** The tree value a reference stands for once parsing is over.  A child
    is created after its parent, so [fuel] equal to the size of the store
    is enough (lemma [resolve_total]). *)
Fixpoint resolve (fuel : nat) (store : list BlockObject) (r : Ref)
  : option Block :=
  match fuel with
  | O => None
  | S fuel' =>
      match nth_error store r with
      | None => None
      | Some object =>
          let resolveAll :=
            fix resolveAll (l : list Ref) : option (list Block) :=
              match l with
              | [] => Some []
              | r' :: l' =>
                  match resolve fuel' store r', resolveAll l' with
                  | Some b, Some bs => Some (b :: bs)
                  | _, _ => None
                  end
              end in
          match Parser.children object with
          | None =>
              Some (mkBlock (Parser.selectors object)
                      (Parser.properties object) None
                      (Some (Parser.metadata object)))
          | Some l =>
              match resolveAll l with
              | Some bs =>
                  Some (mkBlock (Parser.selectors object)
                          (Parser.properties object) (Some bs)
                          (Some (Parser.metadata object)))
              | None => None
              end
          end
      end
  end.

Fixpoint resolveAll (fuel : nat) (store : list BlockObject) (l : list Ref)
  : option (list Block) :=
  match l with
  | [] => Some []
  | r :: l' =>
      match resolve fuel store r, resolveAll fuel store l' with
      | Some b, Some bs => Some (b :: bs)
      | _, _ => None
      end
  end.

(** Modelled from the spec: [createTreeFromString], the entry point
    [parse] of the spec.  It scans the whole source, fails when a block
    is still open at the end (spec, section 8: a missing closing brace
    fails parsing) and returns [state.tree]. *)
Definition createTreeFromString (source : string)
  : result ParsingError AbstractTree :=
  state <- scan initialState source ;;
  match stack state with
  | _ :: _ =>
      Err (newParsingError "Unexpected end of input (missing closing brace)"
             state)
  | [] =>
      match resolveAll (List.length (blocks state)) (blocks state)
              (tree state) with
      | Some t => Ok t
      | None => Err (newParsingError "unreachable" state)
      end
  end.

End Scanner.


(* ================================================================== *)
(** ** Pipeline (src/core/index.ts) *)

Module Pipeline.

(** What a handler returns, as far as [typeof result !== 'string'] tells. *)
Inductive JsValue : Type :=
| JsString (s : string)
| NotAString.

(** A handler of the input stage is applied to the source text, one of
    the output stage to the rendered text and the tree; either may throw an
    [Error], given here by its message. *)
Definition InputHandler : Type := string -> result string JsValue.

Definition OutputHandler : Type :=
  string -> AbstractTree -> result string JsValue.

(** [CssPipeline.Plugin]: the stage tag decides the type of the handler. *)
Inductive Plugin : Type :=
| InputPlugin (handler : InputHandler)
| TransformPlugin (plugin : Transformer.TransformPlugin)
| OutputPlugin (handler : OutputHandler).

Definition stage (plugin : Plugin) : string :=
  match plugin with
  | InputPlugin _ => "input"
  | TransformPlugin _ => "transform"
  | OutputPlugin _ => "output"
  end.

(** What a pipeline can throw: an [Error] with a message (from a plugin
    or from the pipeline itself), a [ParsingError], what [transformTree]
    threw, or a failure of the renderer. *)
Inductive PipelineFailure : Type :=
| ErrorThrown (message : string)
| ParsingFailed (e : Parser.ParsingError)
| TransformFailed (e : Transformer.Failure)
| RenderingFailed (e : Renderer.RenderFailure).

Definition inputHandlers (plugins : list Plugin) : list InputHandler :=
  flat_map (fun plugin => match plugin with
                          | InputPlugin h => [h]
                          | _ => []
                          end) plugins.

Definition transformPluginsOf (plugins : list Plugin)
  : list Transformer.TransformPlugin :=
  flat_map (fun plugin => match plugin with
                          | TransformPlugin p => [p]
                          | _ => []
                          end) plugins.

Definition outputHandlers (plugins : list Plugin) : list OutputHandler :=
  flat_map (fun plugin => match plugin with
                          | OutputPlugin h => [h]
                          | _ => []
                          end) plugins.

(** [groupPluginsByStage]: three filters on the stage tag, each read at
    the type its stage gives it. *)
Definition groupPluginsByStage (plugins : list Plugin)
  : list InputHandler * list Transformer.TransformPlugin * list OutputHandler :=
  (inputHandlers (filter (fun plugin => (stage plugin =? "input")%string)
                    plugins),
   transformPluginsOf
     (filter (fun plugin => (stage plugin =? "transform")%string) plugins),
   outputHandlers (filter (fun plugin => (stage plugin =? "output")%string)
                     plugins)).

(** The first loop of the pipeline function. *)
Fixpoint runInputPlugins (handlers : list InputHandler) (input : string)
  : result PipelineFailure string :=
  match handlers with
  | [] => Ok input
  | handler :: handlers' =>
      match handler input with
      | Err message => Err (ErrorThrown message)
      | Ok (JsString s) => runInputPlugins handlers' s
      | Ok NotAString => Err (ErrorThrown "Input plugins must return a string")
      end
  end.

(** The last loop of the pipeline function. *)
Fixpoint runOutputPlugins (handlers : list OutputHandler) (output : string)
  (tree : AbstractTree) : result PipelineFailure string :=
  match handlers with
  | [] => Ok output
  | handler :: handlers' =>
      match handler output tree with
      | Err message => Err (ErrorThrown message)
      | Ok (JsString s) => runOutputPlugins handlers' s tree
      | Ok NotAString =>
          Err (ErrorThrown "Output plugins must return a string")
      end
  end.

Section WithParser.

(** [createTreeFromString] of the parser's index module, which is not
    among the sources: the pipeline is given for any parser. *)
Variable createTreeFromString
  : string -> result Parser.ParsingError AbstractTree.

(** [makePipeline(plugins)(input)] *)
Definition makePipeline (plugins : list Plugin) (input : string)
  : result PipelineFailure string :=
  match groupPluginsByStage plugins with
  | (inputPlugins, transformPlugins, outputPlugins) =>
      input <- runInputPlugins inputPlugins input ;;
      match createTreeFromString input with
      | Err e => Err (ParsingFailed e)
      | Ok tree =>
          match Transformer.transformTree tree transformPlugins [] with
          | ((_, _), Some e) => Err (TransformFailed e)
          | ((tree, _), None) =>
              match Renderer.renderTreeToString tree with
              | Err e => Err (RenderingFailed e)
              | Ok output => runOutputPlugins outputPlugins output tree
              end
          end
      end
  end.

End WithParser.

End Pipeline.


(* ================================================================== *)
(** ** Notions the statements below are phrased with *)

(** Plain substitution: every "&" of [selector] replaced by [parent]. *)
Fixpoint substituteAmpersands (selector parent : string) : string :=
  match selector with
  | EmptyString => EmptyString
  | String c rest =>
      if (c =? "&")%char then parent +:+ substituteAmpersands rest parent
      else String c (substituteAmpersands rest parent)
  end.

(** No character of [s] is [c]. *)
Fixpoint lacks (c : ascii) (s : string) : bool :=
  match s with
  | EmptyString => true
  | String d s' => negb (d =? c)%char && lacks c s'
  end.

(** The text from the first "(" of [s] through the first ")" after it. *)
Definition firstParenthesisedGroup (s : string) : option string :=
  match Js.spanNot "(" s with
  | (_, String _ afterOpen) =>
      match Js.spanNot ")" afterOpen with
      | (inside, String _ _) => Some ("(" +:+ inside +:+ ")")
      | _ => None
      end
  | _ => None
  end.

(** The subjects the pattern [/^[^(]+(\([^)]+\))[^)]*$/] matches, with
    the text inside the group. *)
Definition matchesPrelude (s inside : string) : Prop :=
  exists before after,
    s = before +:+ "(" +:+ inside +:+ ")" +:+ after
    /\ before <> EmptyString /\ lacks "(" before = true
    /\ inside <> EmptyString /\ lacks ")" inside = true
    /\ lacks ")" after = true.

(** A failure that is a [RenderingError]. *)
Definition isRenderingError (e : Renderer.RenderFailure) : Prop :=
  exists text, e = Renderer.RenderingError text.

(** [o'] extends [o]: the contexts of [o] keep their places and new ones
    follow them, and the fragments of a context are only added to. *)
Definition extends (o o' : list (string * list string)) : Prop :=
  (exists more, map fst o' = map fst o ++ more)
  /\ (forall context fragments,
        Renderer.lookup o context = Some fragments ->
        exists more,
          Renderer.lookup o' context = Some (fragments ++ more)).

(** [o'] grew out of [o], and kept its contexts distinct. *)
Definition grows (o o' : list (string * list string)) : Prop :=
  extends o o' /\ (NoDup (map fst o) -> NoDup (map fst o')).

(** The fragments a context holds, none when it does not exist yet. *)
Definition fragmentsOf (o : list (string * list string)) (context : string)
  : list string :=
  match Renderer.lookup o context with
  | Some fragments => fragments
  | None => []
  end.

(** *** Sample inputs *)

Definition nestedScreenBlock : Block :=
  mkBlock ["@media screen and (min-width:600px)"] None None
    (Some {| start := {| line := 3; column := 7 |}; end_ := None |}).

Definition darkSchemeBlock : Block :=
  mkBlock ["@media (prefers-color-scheme:dark)"] None None None.

Definition redProperty : Property := {| key := "color"; value := "red" |}.

(** [.a{ @media screen{ color:red; } }] *)
Definition screenInsideRule : AbstractTree :=
  [mkBlock [".a"] None
     (Some [mkBlock ["@media screen"] (Some [redProperty]) None None]) None].

(** A block of the spec's example [a{b:1;}], with the key "b" repeated. *)
Definition repeatedKeyBlock : Block :=
  mkBlock ["a"]
    (Some [{| key := "b"; value := "1" |}; {| key := "c"; value := "2" |};
           {| key := "b"; value := "3" |}])
    None None.

(** *** The transformer seen from outside *)

(** What the handlers write to the log when they are applied, in order,
    to the view of [block], and the value one of them throws, if any. *)
Definition emitted (plugins : list Transformer.TransformPlugin)
  (block : Block) : Transformer.World :=
  snd (fst (Transformer.runPlugins plugins
              (Transformer.makeMutableBlock block) [])).

Definition thrown (plugins : list Transformer.TransformPlugin)
  (block : Block) : option Transformer.Thrown :=
  snd (Transformer.runPlugins plugins
         (Transformer.makeMutableBlock block) []).

(** A run over the blocks [order], visited in that order: without a
    failure every block had all handlers applied, none threw, and the log
    holds their entries block after block; with a failure the blocks before
    some block [x] were dealt with in full, a handler threw on [x], no later
    block was touched, and the message of what the run threw includes the
    message of what the [catch] clause threw for [x]. *)
Definition explains (plugins : list Transformer.TransformPlugin)
  (order : list Block) (world world' : Transformer.World)
  (failure : option Transformer.Failure) : Prop :=
  match failure with
  | None =>
      world' = world ++ flat_map (emitted plugins) order
      /\ Forall (fun y => thrown plugins y = None) order
  | Some failure =>
      exists before x after original,
        order = before ++ x :: after
        /\ Forall (fun y => thrown plugins y = None) before
        /\ thrown plugins x = Some original
        /\ world' = world ++ flat_map (emitted plugins) (before ++ [x])
        /\ Js.includes (Transformer.failureMessage failure)
             (Transformer.failureMessage (Transformer.caught original x))
           = true
  end.

(** The tree [transformTree] leaves behind when no handler changes
    anything: every block has a properties array. *)
Fixpoint withDefaultProperties (block : Block) : Block :=
  match block with
  | mkBlock s p c m =>
      mkBlock s
        (Some match p with Some l => l | None => [] end)
        match c with
        | Some l => Some (map withDefaultProperties l)
        | None => None
        end
        m
  end.

(** What the handlers make of [block] itself: the view is built, then
    every handler is applied to it.  Handlers only write to the world, so
    the result does not depend on it. *)
Definition mutatedBy (plugins : list Transformer.TransformPlugin)
  (block : Block) : Block :=
  fst (fst (Transformer.runPlugins plugins
              (Transformer.makeMutableBlock block) [])).

(** What a run without a failure makes of [block]: selectors and
    properties are those the handlers left, metadata is as it came in,
    and the children went through the same. *)
Fixpoint transformed (plugins : list Transformer.TransformPlugin)
  (block : Block) : Block :=
  match block with
  | mkBlock _ _ c m =>
      mkBlock (selectors (mutatedBy plugins block))
        (properties (mutatedBy plugins block))
        match c with
        | Some l => Some (map (transformed plugins) l)
        | None => None
        end
        m
  end.

(** What the handlers can reach of a block, and the metadata. *)
Definition fields (block : Block)
  : list string * option (list Property) * option Metadata :=
  (selectors block, properties block, metadata block).

(** A run over the blocks [order], which leaves the blocks [order']:
    without a failure every block of [order] is what the handlers made of
    it; with a failure the blocks up to the block [x] on which a handler
    threw are what the handlers made of them, [x] as it was when the
    handler threw, and the blocks after [x] are as they came in. *)
Definition accounts (plugins : list Transformer.TransformPlugin)
  (order order' : list Block) (failure : option Transformer.Failure)
  : Prop :=
  match failure with
  | None =>
      map fields order' = map (fun y => fields (mutatedBy plugins y)) order
      /\ Forall (fun y => thrown plugins y = None) order
  | Some _ =>
      exists before x after,
        order = before ++ x :: after
        /\ Forall (fun y => thrown plugins y = None) before
        /\ thrown plugins x <> None
        /\ map fields order'
           = map (fun y => fields (mutatedBy plugins y)) (before ++ [x])
               ++ map fields after
  end.

(** A handler that never calls [setSelectors], whatever the view
    answers. *)
Inductive leavesSelectors : Transformer.HandlerCode -> Prop :=
| ls_Return : leavesSelectors Transformer.Return
| ls_Throw thrown : leavesSelectors (Transformer.Throw thrown)
| ls_Emit entry k :
    leavesSelectors k -> leavesSelectors (Transformer.Emit entry k)
| ls_HasChildren k :
    (forall answer, leavesSelectors (k answer)) ->
    leavesSelectors (Transformer.HasChildren k)
| ls_GetSelectors k :
    (forall answer, leavesSelectors (k answer)) ->
    leavesSelectors (Transformer.GetSelectors k)
| ls_HasProperty name k :
    (forall answer, leavesSelectors (k answer)) ->
    leavesSelectors (Transformer.HasProperty name k)
| ls_GetProperty name k :
    (forall answer, leavesSelectors (k answer)) ->
    leavesSelectors (Transformer.GetProperty name k)
| ls_GetProperties k :
    (forall answer, leavesSelectors (k answer)) ->
    leavesSelectors (Transformer.GetProperties k)
| ls_SetProperty name v k :
    leavesSelectors k -> leavesSelectors (Transformer.SetProperty name v k)
| ls_RemoveProperty name k :
    leavesSelectors k -> leavesSelectors (Transformer.RemoveProperty name k).

(** A handler that never calls [setProperty] or [removeProperty]. *)
Inductive leavesProperties : Transformer.HandlerCode -> Prop :=
| lp_Return : leavesProperties Transformer.Return
| lp_Throw thrown : leavesProperties (Transformer.Throw thrown)
| lp_Emit entry k :
    leavesProperties k -> leavesProperties (Transformer.Emit entry k)
| lp_HasChildren k :
    (forall answer, leavesProperties (k answer)) ->
    leavesProperties (Transformer.HasChildren k)
| lp_GetSelectors k :
    (forall answer, leavesProperties (k answer)) ->
    leavesProperties (Transformer.GetSelectors k)
| lp_SetSelectors l k :
    leavesProperties k -> leavesProperties (Transformer.SetSelectors l k)
| lp_HasProperty name k :
    (forall answer, leavesProperties (k answer)) ->
    leavesProperties (Transformer.HasProperty name k)
| lp_GetProperty name k :
    (forall answer, leavesProperties (k answer)) ->
    leavesProperties (Transformer.GetProperty name k)
| lp_GetProperties k :
    (forall answer, leavesProperties (k answer)) ->
    leavesProperties (Transformer.GetProperties k).

(** No handler of the list mutates the view. *)
Definition mutateNothing (plugins : list Transformer.TransformPlugin)
  : Prop :=
  Forall (fun plugin =>
            leavesSelectors (Transformer.handler plugin)
            /\ leavesProperties (Transformer.handler plugin)) plugins.

(** A handler that logs the selectors of the block it is given, and one
    that throws on a block with a property "x". *)
Definition loggingPlugin : Transformer.TransformPlugin :=
  {| Transformer.handler :=
      Transformer.GetSelectors
        (fun l => Transformer.Emit (Js.join "," l) Transformer.Return) |}.

Definition failingPlugin : Transformer.TransformPlugin :=
  {| Transformer.handler :=
      Transformer.HasProperty "x"
        (fun found =>
           if found then Transformer.Throw (Transformer.ThrownError "boom")
           else Transformer.Return) |}.

(** A handler that throws [null] on a block with a property "x". *)
Definition failingWithNull : Transformer.TransformPlugin :=
  {| Transformer.handler :=
      Transformer.HasProperty "x"
        (fun found =>
           if found then Transformer.Throw Transformer.ThrownNull
           else Transformer.Return) |}.

(** [() => { throw null }] and [() => { throw 'boom' }] *)
Definition throwingNull : Transformer.TransformPlugin :=
  {| Transformer.handler := Transformer.Throw Transformer.ThrownNull |}.

Definition throwingText : Transformer.TransformPlugin :=
  {| Transformer.handler := Transformer.Throw Transformer.ThrownPlain |}.

(** A handler that sets a property and leaves the selectors alone. *)
Definition markingPlugin : Transformer.TransformPlugin :=
  {| Transformer.handler :=
      Transformer.SetProperty "seen" "yes" Transformer.Return |}.

Definition startingAt (l : nat) : option Metadata :=
  Some {| start := {| line := l; column := 1 |}; end_ := None |}.

(** [a{ b{x:1;} d{} } c{}], each block on a line of its own. *)
Definition nestedTree : AbstractTree :=
  [mkBlock ["a"] None
     (Some [mkBlock ["b"] (Some [{| key := "x"; value := "1" |}]) None
              (startingAt 2);
            mkBlock ["d"] None None (startingAt 3)])
     (startingAt 1);
   mkBlock ["c"] None None (startingAt 4)].

(** *** The parser seen from outside *)

(** A selector list a block may have: not empty, and without an at-rule
    entry when it has more than one entry. *)
Definition wellFormedSelectors (l : list string) : Prop :=
  l <> []
  /\ (1 < List.length l ->
      forall s, In s l -> Js.startsWith s "@" = false).

(** Every block the store holds has well-formed selectors. *)
Definition storeWellFormed (state : Parser.ParserState) : Prop :=
  Forall (fun object => wellFormedSelectors (Parser.selectors object))
    (Parser.blocks state).

(** References point into the store, and a child was created after its
    parent. *)
Definition storeLinked (state : Parser.ParserState) : Prop :=
  Forall (fun r => r < List.length (Parser.blocks state)) (Parser.stack state)
  /\ Forall (fun r => r < List.length (Parser.blocks state))
       (Parser.tree state)
  /\ (forall i object,
        nth_error (Parser.blocks state) i = Some object ->
        forall l, Parser.children object = Some l ->
                  Forall (fun r => i < r /\ r < List.length (Parser.blocks state))
                    l).

(** How often [c] occurs in [s]. *)
Fixpoint occurrences (c : ascii) (s : string) : Z :=
  match s with
  | EmptyString => 0%Z
  | String d s' =>
      ((if (d =? c)%char then 1 else 0) + occurrences c s')%Z
  end.

(** What a character adds to [currentParenthesisLevel] when it is
    scanned in [state]: parentheses count outside custom-property values
    and string literals only. *)
Definition counted (state : Parser.ParserState) (c : ascii) : Z :=
  if negb (Parser.isCustomProperty state)
     && negb (Parser.isStringLiteral state)
  then if (c =? "(")%char then 1%Z
       else if (c =? ")")%char then (-1)%Z else 0%Z
  else 0%Z.

(** The parser is outside string literals and custom-property values and
    its buffer holds no exclamation mark. *)
Definition plainMode (state : Parser.ParserState) : Prop :=
  Parser.isStringLiteral state = false
  /\ Parser.isCustomProperty state = false
  /\ lacks "!" (Parser.buffer state) = true.

(** A handler that empties the selectors of the block it is given. *)
Definition emptyingPlugin : Transformer.TransformPlugin :=
  {| Transformer.handler :=
      Transformer.SetSelectors [] Transformer.Return |}.

(** [@media screen{ @media screen{} }] *)
Definition screenInsideScreen : AbstractTree :=
  [mkBlock ["@media screen"] None
     (Some [mkBlock ["@media screen"] None None (startingAt 2)])
     (startingAt 1)].

(** *** Invariants of the parser state *)

(** [isCustomProperty] holds only while the pending property name starts
    with an exclamation mark. *)
Definition customConsistent (state : Parser.ParserState) : Prop :=
  Parser.isCustomProperty state = true ->
  Js.startsWith (Parser.currentPropertyName state) "!" = true.

(** A text the parser stores: not empty, and without white space at
    either end. *)
Definition storedText (s : string) : Prop :=
  s <> EmptyString /\ Js.trim s = s.

Definition listOf {A : Type} (o : option (list A)) : list A :=
  match o with
  | Some l => l
  | None => []
  end.

(** The selectors of a block and the keys and values of its declarations
    are such texts. *)
Definition objectText (object : Parser.BlockObject) : Prop :=
  Forall storedText (Parser.selectors object)
  /\ Forall (fun property =>
               storedText (key property) /\ storedText (value property))
       (listOf (Parser.properties object)).

(** Every selector waiting in [selectorStack], every selector of a block
    and every key and value of a declaration is such a text; the pending
    property name is empty or such a text. *)
Definition textWellFormed (state : Parser.ParserState) : Prop :=
  Forall storedText (Parser.selectorStack state)
  /\ Js.trim (Parser.currentPropertyName state)
     = Parser.currentPropertyName state
  /\ Forall objectText (Parser.blocks state).

(** The object [o'] is a later state of the object [o]: same selectors
    and start position, declarations and children only added at the end. *)
Definition continues (o o' : Parser.BlockObject) : Prop :=
  Parser.selectors o' = Parser.selectors o
  /\ start (Parser.metadata o') = start (Parser.metadata o)
  /\ (exists more,
        listOf (Parser.properties o')
        = listOf (Parser.properties o) ++ more)
  /\ (exists more,
        listOf (Parser.children o') = listOf (Parser.children o) ++ more).

(** Every object of the store [l] is still in [l'], at the same index,
    as a later state of itself. *)
Definition keeps (l l' : list Parser.BlockObject) : Prop :=
  forall r o, nth_error l r = Some o ->
              exists o', nth_error l' r = Some o' /\ continues o o'.

(** Every block of [state] is still there in [state'], at the same
    reference, as a later state of itself; the roots are only added to. *)
Definition storeGrows (state state' : Parser.ParserState) : Prop :=
  (forall r o,
      nth_error (Parser.blocks state) r = Some o ->
      exists o', nth_error (Parser.blocks state') r = Some o'
                 /\ continues o o')
  /\ (exists more, Parser.tree state' = Parser.tree state ++ more).

(** The state after [a{b:1] has been scanned, and the state
    [handleSemicolon] turns it into. *)
Definition pendingDeclaration : Parser.ParserState :=
  {| Parser.buffer := "1"; Parser.stack := [0]; Parser.selectorStack := [];
     Parser.tree := [0];
     Parser.blocks :=
       [{| Parser.selectors := ["a"]; Parser.properties := None;
           Parser.children := None;
           Parser.metadata :=
             {| start := {| line := 1; column := 2 |}; end_ := None |} |}];
     Parser.isStringLiteral := false; Parser.isAtRule := false;
     Parser.isNestedSelector := false; Parser.isCustomProperty := false;
     Parser.currentParenthesisLevel := 0%Z;
     Parser.currentPropertyName := "b";
     Parser.currentLine := 1; Parser.currentColumn := 5 |}.

Definition declared : Parser.ParserState :=
  {| Parser.buffer := EmptyString; Parser.stack := [0];
     Parser.selectorStack := []; Parser.tree := [0];
     Parser.blocks :=
       [{| Parser.selectors := ["a"];
           Parser.properties := Some [{| key := "b"; value := "1" |}];
           Parser.children := None;
           Parser.metadata :=
             {| start := {| line := 1; column := 2 |}; end_ := None |} |}];
     Parser.isStringLiteral := false; Parser.isAtRule := false;
     Parser.isNestedSelector := false; Parser.isCustomProperty := false;
     Parser.currentParenthesisLevel := 0%Z;
     Parser.currentPropertyName := EmptyString;
     Parser.currentLine := 1; Parser.currentColumn := 5 |}.

(** The last character of a string. *)
Fixpoint lastCharacter (s : string) : option ascii :=
  match s with
  | EmptyString => None
  | String c EmptyString => Some c
  | String _ s' => lastCharacter s'
  end.

(** *** The renderer seen from outside *)

(** The name of a context the renderer creates: "root" or an at-rule
    prelude. *)
Definition contextName (c : string) : Prop :=
  c = "root" \/ Js.startsWith c "@" = true.

(** An ordinary block without children. *)
Definition flatRule (block : Block) : Prop :=
  (exists first rest,
      selectors block = first :: rest /\ Js.startsWith first "@" = false)
  /\ (children block = None \/ children block = Some []).

(** The fragments of a forest of such blocks, in order. *)
Definition flatFragments (tree : AbstractTree) : list string :=
  flat_map
    (fun block =>
       match properties block with
       | Some (p :: ps) =>
           [Renderer.ownFragment (selectors block) (p :: ps)]
       | _ => []
       end) tree.

(** [a{b:1;} c,d{} e{f:2;g:3;}] as a tree. *)
Definition flatTree : AbstractTree :=
  [mkBlock ["a"] (Some [{| key := "b"; value := "1" |}]) None None;
   mkBlock ["c"; "d"] None None None;
   mkBlock ["e"] (Some [{| key := "f"; value := "2" |};
                        {| key := "g"; value := "3" |}]) (Some []) None].

Definition twoGroupsPrelude : string :=
  "@media (prefers-color-scheme:dark) and (prefers-contrast:more)".

(** *** The shape of a tree *)

(** What is left of a block when its selectors and properties are
    forgotten: its metadata and the shapes of its children. *)
Inductive Skeleton : Type :=
| Bone (m : option Metadata) (c : option (list Skeleton)).

Fixpoint skeletonOf (block : Block) : Skeleton :=
  match block with
  | mkBlock _ _ c m =>
      Bone m match c with
             | Some l => Some (map skeletonOf l)
             | None => None
             end
  end.

(** *** Sample plugins *)

(** An output handler that returns no string. *)
Definition silentOutputHandler : Pipeline.OutputHandler :=
  fun _ _ => Ok Pipeline.NotAString.


(* ================================================================== *)
(** * Properties *)

(** ** Strings *)

Lemma append_empty_r (s : string) : s +:+ EmptyString = s.
Proof. induction s as [|c s IH]; simpl; [reflexivity | now rewrite IH]. Qed.

Lemma append_assoc (a b c : string) : (a +:+ b) +:+ c = a +:+ b +:+ c.
Proof. induction a as [|x a IH]; simpl; [reflexivity | now rewrite IH]. Qed.

Lemma prefix_append (p s : string) : String.prefix p (p +:+ s) = true.
Proof.
  induction p as [|c p IH]; simpl.
  - now destruct s.
  - destruct (ascii_dec c c) as [_|N]; [exact IH | now elim N].
Qed.

Lemma prefix_split (p s : string) :
  String.prefix p s = true -> exists b, s = p +:+ b.
Proof.
  revert s. induction p as [|c p IH]; intros s H.
  - now exists s.
  - destruct s as [|d s]; simpl in H; [discriminate|].
    destruct (ascii_dec c d) as [->|]; [|discriminate].
    destruct (IH s H) as [b ->]. now exists b.
Qed.

Lemma includes_prefix (s p : string) :
  String.prefix p s = true -> Js.includes s p = true.
Proof. intros H. destruct s; cbn [Js.includes]; now rewrite H. Qed.

Lemma includes_cons (c : ascii) (s p : string) :
  Js.includes s p = true -> Js.includes (String c s) p = true.
Proof.
  intros H. cbn [Js.includes].
  destruct (String.prefix p (String c s)); [reflexivity | exact H].
Qed.

(** A string that occurs in the middle of a concatenation is included. *)
Lemma includes_middle (a m b : string) :
  Js.includes (a +:+ m +:+ b) m = true.
Proof.
  induction a as [|c a IH]; simpl String.append.
  - apply includes_prefix, prefix_append.
  - now apply includes_cons.
Qed.

Lemma includes_split (s p : string) :
  Js.includes s p = true -> exists a b, s = a +:+ p +:+ b.
Proof.
  induction s as [|c s IH]; cbn [Js.includes]; intros H.
  - destruct (String.prefix p EmptyString) eqn:E; [|discriminate].
    destruct (prefix_split _ _ E) as [b Hb]. now exists EmptyString, b.
  - destruct (String.prefix p (String c s)) eqn:E.
    + destruct (prefix_split _ _ E) as [b Hb]. now exists EmptyString, b.
    + destruct (IH H) as (a & b & ->). now exists (String c a), b.
Qed.

(** Wrapping a text keeps what it included. *)
Lemma includes_wrapped (a m b p : string) :
  Js.includes m p = true -> Js.includes (a +:+ m +:+ b) p = true.
Proof.
  intros H. destruct (includes_split _ _ H) as (a' & b' & ->).
  replace (a +:+ (a' +:+ p +:+ b') +:+ b) with ((a +:+ a') +:+ p +:+ (b' +:+ b)).
  - apply includes_middle.
  - now rewrite !append_assoc.
Qed.

Lemma includes_self (s : string) : Js.includes s s = true.
Proof.
  rewrite <- (append_empty_r s) at 1.
  apply (includes_middle EmptyString s EmptyString).
Qed.

(** ** Renderer: selector combination *)

Section RendererSelectors.

Import Renderer.

Lemma getSubstitution_dollarFree (matched before after template : string) :
  lacks "$" template = true ->
  Js.getSubstitution matched before after template = template.
Proof.
  induction template as [|c t IH]; cbn [Js.getSubstitution lacks];
    intros H; [reflexivity|].
  apply andb_prop in H as [Hc Ht].
  destruct (c =? "$")%char; [discriminate|]. now rewrite IH.
Qed.

Lemma replaceAmpersandsFrom_dollarFree (before s parent : string) :
  lacks "$" parent = true ->
  Js.replaceAmpersandsFrom before s parent = substituteAmpersands s parent.
Proof.
  intros H. revert before.
  induction s as [|c s IH]; intros before;
    cbn [Js.replaceAmpersandsFrom substituteAmpersands]; [reflexivity|].
  destruct (c =? "&")%char.
  - now rewrite getSubstitution_dollarFree, IH.
  - now rewrite IH.
Qed.

(** With a parent that holds no dollar sign, a selector with "&" has
    every "&" replaced by the parent. *)
Lemma renderSelector_ampersand (selector parent : string) :
  Js.includes selector "&" = true ->
  lacks "$" parent = true ->
  renderSelector selector parent = substituteAmpersands selector parent.
Proof.
  intros Ha Hd. unfold renderSelector, Js.replaceAmpersands.
  rewrite Ha. now apply replaceAmpersandsFrom_dollarFree.
Qed.

(** A selector without "&" is appended to the parent after one space. *)
Lemma renderSelector_descendant (selector parent : string) :
  Js.includes selector "&" = false ->
  renderSelector selector parent = parent +:+ " " +:+ selector.
Proof. intros Ha. unfold renderSelector. now rewrite Ha. Qed.

(** Without parents the block's own selectors are used unchanged. *)
Lemma combineSelectors_no_parents (selectors : list string) :
  combineSelectors selectors [] = selectors.
Proof.
  unfold combineSelectors.
  induction selectors as [|s l IH]; simpl; [reflexivity | now rewrite IH].
Qed.

(** With parents the list is the cross product, selector-major. *)
Lemma combineSelectors_cross_product (selectors parents : list string) :
  parents <> [] ->
  combineSelectors selectors parents =
    flat_map (fun selector =>
                map (fun parent => renderSelector selector parent) parents)
      selectors.
Proof.
  intros H. unfold combineSelectors.
  destruct parents as [|p ps]; [now elim H | reflexivity].
Qed.

End RendererSelectors.

(** ** Renderer: the pattern that extracts the condition of a prelude *)

Lemma spanNot_spec (stop : ascii) (s a r : string) :
  Js.spanNot stop s = (a, r) ->
  s = a +:+ r /\ lacks stop a = true
  /\ (r = EmptyString \/ exists r', r = String stop r').
Proof.
  revert a r. induction s as [|c s IH]; intros a r; cbn [Js.spanNot].
  - intros [= <- <-]. auto.
  - destruct (c =? stop)%char eqn:E.
    + intros [= <- <-]. apply Ascii.eqb_eq in E as ->.
      repeat split; eauto.
    + destruct (Js.spanNot stop s) as [a' r'] eqn:Es.
      intros [= <- <-]. destruct (IH _ _ eq_refl) as (-> & Ha & Hr).
      repeat split; [|exact Hr]. cbn [lacks]. now rewrite E, Ha.
Qed.

Lemma spanNot_append (stop : ascii) (a r : string) :
  lacks stop a = true ->
  Js.spanNot stop (a +:+ String stop r) = (a, String stop r).
Proof.
  induction a as [|c a IH]; cbn [lacks String.append Js.spanNot]; intros H.
  - now rewrite Ascii.eqb_refl.
  - apply andb_prop in H as [Hc Ha].
    destruct (c =? stop)%char; [discriminate|]. now rewrite (IH Ha).
Qed.

Lemma includes_char (c : ascii) (s : string) :
  Js.includes s (String c EmptyString) = negb (lacks c s).
Proof.
  induction s as [|d s IH]; cbn [Js.includes lacks String.prefix].
  - reflexivity.
  - destruct (ascii_dec c d) as [->|N].
    + rewrite Ascii.eqb_refl. now destruct s.
    + assert (E : (d =? c)%char = false)
        by (apply Ascii.eqb_neq; congruence).
      rewrite E, IH. reflexivity.
Qed.

(** On a subject the pattern matches, the replacement is the group. *)
Lemma replaceWithFirstGroup_match (s inside : string) :
  matchesPrelude s inside ->
  Js.replaceWithFirstGroup s = "(" +:+ inside +:+ ")".
Proof.
  intros (before & after & -> & Hb & Hlb & Hi & Hli & Hla).
  unfold Js.replaceWithFirstGroup.
  change (before +:+ "(" +:+ inside +:+ ")" +:+ after)
    with (before +:+ String "(" (inside +:+ String ")" after)).
  rewrite (spanNot_append _ _ _ Hlb).
  destruct before as [|b0 before]; [now elim Hb|].
  rewrite (spanNot_append _ _ _ Hli).
  destruct inside as [|i0 inside]; [now elim Hi|].
  rewrite includes_char, Hla. reflexivity.
Qed.

(** On any other subject the replacement is the subject itself. *)
Lemma replaceWithFirstGroup_cases (s : string) :
  Js.replaceWithFirstGroup s = s \/ exists inside, matchesPrelude s inside.
Proof.
  unfold Js.replaceWithFirstGroup.
  destruct (Js.spanNot "(" s) as [a r] eqn:Ea.
  destruct (spanNot_spec _ _ _ _ Ea) as (-> & Hla & Hr).
  destruct a as [|a0 a]; [now left|].
  destruct r as [|r0 r]; [now left|].
  destruct Hr as [|[r' [= -> ->]]]; [discriminate|].
  destruct (Js.spanNot ")" r') as [b t] eqn:Eb.
  destruct (spanNot_spec _ _ _ _ Eb) as (-> & Hlb & Ht).
  destruct b as [|b0 b]; [now left|].
  destruct t as [|t0 t]; [now left|].
  destruct Ht as [|[t' [= -> ->]]]; [discriminate|].
  rewrite includes_char.
  destruct (lacks ")" t') eqn:El; [right | now left].
  exists (String b0 b), (String a0 a), t'.
  repeat split; try assumption; try discriminate.
Qed.

Lemma replaceWithFirstGroup_no_match (s : string) :
  (forall inside, ~ matchesPrelude s inside) ->
  Js.replaceWithFirstGroup s = s.
Proof.
  intros H. destruct (replaceWithFirstGroup_cases s) as [E|[i Hi]];
    [exact E | now elim (H i)].
Qed.

(** On a subject the pattern matches, the group is the first
    parenthesised group of the subject. *)
Lemma firstParenthesisedGroup_match (s inside : string) :
  matchesPrelude s inside ->
  firstParenthesisedGroup s = Some ("(" +:+ inside +:+ ")").
Proof.
  intros (before & after & -> & Hb & Hlb & Hi & Hli & Hla).
  unfold firstParenthesisedGroup.
  change (before +:+ "(" +:+ inside +:+ ")" +:+ after)
    with (before +:+ String "(" (inside +:+ String ")" after)).
  rewrite (spanNot_append _ _ _ Hlb), (spanNot_append _ _ _ Hli).
  reflexivity.
Qed.

(** ** Renderer: the four rules of [renderBlock] *)

Section RendererRules.

Import Renderer.

Lemma startsWith_at (s p : string) :
  Js.startsWith s (String "@" p) = true -> Js.startsWith s "@" = true.
Proof.
  unfold Js.startsWith. destruct s as [|c s]; cbn [String.prefix].
  - discriminate.
  - destruct (ascii_dec "@" c); [now destruct s | discriminate].
Qed.

(** [renderBlock] on a block with a first selector, as the source reads. *)
Lemma renderBlock_unfold state first rest blockProperties blockChildren
  blockMetadata context parents :
  let block :=
    mkBlock (first :: rest) blockProperties blockChildren blockMetadata in
  renderBlock state block context parents =
    if Js.startsWith first "@media screen" then
      if Js.includes context "screen" then
        Err (newRenderingError "Nested media queries are not supported" block)
      else if Js.includes context "-color-scheme" then
        Err (newRenderingError
               "Responsive media queries cannot be nested inside color scheme at-rules"
               block)
      else renderBlockContent state first parents block
    else if Js.startsWith first "@media"
            && Js.includes first "-color-scheme" then
      if Js.includes context "-color-scheme" then
        Err (newRenderingError
               "Nested color scheme at-rules are not supported" block)
      else
        renderBlockContent state
          (if negb (Js.startsWith context "@media screen") then first
           else context +:+ "and" +:+ Js.replaceWithFirstGroup first)
          parents block
    else if Js.startsWith first "@" then
      if Js.startsWith context "@" then
        Err (newRenderingError "Nested at-rules are not supported" block)
      else renderBlockContent state first [] block
    else
      renderBlockContent state context
        (combineSelectors (first :: rest) parents) block.
Proof. reflexivity. Qed.

(** Rule 4: a block whose first selector does not start with "@". *)
Lemma renderBlock_ordinary state block context parents first rest :
  selectors block = first :: rest ->
  Js.startsWith first "@" = false ->
  renderBlock state block context parents =
    renderBlockContent state context
      (combineSelectors (selectors block) parents) block.
Proof.
  destruct block as [s p c m]. cbn [selectors]. intros -> H.
  rewrite renderBlock_unfold.
  destruct (Js.startsWith first "@media screen") eqn:E1;
    [apply startsWith_at in E1; congruence|].
  destruct (Js.startsWith first "@media") eqn:E2;
    [apply startsWith_at in E2; congruence|].
  cbn [andb]. now rewrite H.
Qed.

Lemma renderBlock_no_selector state block context parents :
  selectors block = [] ->
  renderBlock state block context parents =
    Err (TypeError
           "Cannot read properties of undefined (reading 'startsWith')").
Proof. destruct block as [s p c m]; cbn [selectors]. now intros ->. Qed.

(** [renderBlockContent]: the context is created on first use, a block
    with properties pushes its one fragment, then the children are
    rendered in order, each in the same context and with [selectors] as
    its parents. *)
Lemma renderBlockContent_unfold state context selectors block :
  renderBlockContent state context selectors block =
    match children block with
    | Some l =>
        renderChildren (afterOwnFragment state context selectors block)
          context selectors l
    | None => Ok (afterOwnFragment state context selectors block)
    end.
Proof.
  assert (loop : forall l st,
             (fix each (l : list Block) (state : RenderState)
                : result RenderFailure RenderState :=
                match l with
                | [] => Ok state
                | child :: l' =>
                    state <- renderBlock state child context selectors ;;
                    each l' state
                end) l st = renderChildren st context selectors l).
  { induction l as [|child l IH]; intros st; cbn [renderChildren];
      [reflexivity|].
    destruct (renderBlock st child context selectors); cbn [bind];
      [apply IH | reflexivity]. }
  unfold renderBlockContent, renderBlockContentWith, afterOwnFragment,
    ownFragment.
  destruct (properties block) as [[|p ps]|], (children block) as [l|];
    cbv zeta; try reflexivity; apply loop.
Qed.

End RendererRules.

(** ** Renderer: claims about the rules *)

Section RendererClaims.

Import Renderer.

(** C3.  [renderBlock] throws a [RenderingError] at a block exactly in
    three cases: the first selector starts with "@media screen" and the
    context includes "screen" or "-color-scheme"; the block is a
    color-scheme at-rule and the context includes "-color-scheme"; the
    first selector starts with "@" otherwise and the context starts with
    "@".  When the condition of its rule does not hold, and for every
    ordinary block, [renderBlock] goes on to render the block's content, so
    it fails only if a descendant does.  The error message ends with the
    start line and column of the block's metadata. *)
Theorem C3_nesting_rejections :
  forall state block context parents first rest,
    selectors block = first :: rest ->
    (Js.startsWith first "@media screen" = true ->
       (Js.includes context "screen" = true ->
          renderBlock state block context parents =
            Err (newRenderingError "Nested media queries are not supported"
                   block))
       /\ (Js.includes context "screen" = false ->
           Js.includes context "-color-scheme" = true ->
           renderBlock state block context parents =
             Err (newRenderingError
                    "Responsive media queries cannot be nested inside color scheme at-rules"
                    block))
       /\ (Js.includes context "screen" = false ->
           Js.includes context "-color-scheme" = false ->
           renderBlock state block context parents =
             renderBlockContent state first parents block))
    /\ (Js.startsWith first "@media screen" = false ->
        Js.startsWith first "@media" = true ->
        Js.includes first "-color-scheme" = true ->
        (Js.includes context "-color-scheme" = true ->
           renderBlock state block context parents =
             Err (newRenderingError
                    "Nested color scheme at-rules are not supported" block))
        /\ (Js.includes context "-color-scheme" = false ->
            renderBlock state block context parents =
              renderBlockContent state
                (if negb (Js.startsWith context "@media screen") then first
                 else context +:+ "and" +:+ Js.replaceWithFirstGroup first)
                parents block))
    /\ (Js.startsWith first "@media screen" = false ->
        Js.startsWith first "@media" && Js.includes first "-color-scheme"
          = false ->
        Js.startsWith first "@" = true ->
        (Js.startsWith context "@" = true ->
           renderBlock state block context parents =
             Err (newRenderingError "Nested at-rules are not supported"
                    block))
        /\ (Js.startsWith context "@" = false ->
            renderBlock state block context parents =
              renderBlockContent state first [] block))
    /\ (Js.startsWith first "@" = false ->
        renderBlock state block context parents =
          renderBlockContent state context
            (combineSelectors (selectors block) parents) block)
    /\ (forall text m,
          metadata block = Some m ->
          newRenderingError text block =
            RenderingError
              ("Rendering error: " +:+ text +:+ " @ line "
                 +:+ Js.ofNat (line (start m)) +:+ " (column "
                 +:+ Js.ofNat (column (start m)) +:+ ").")).
Proof.
  intros state [s p c m] context parents first rest Hs.
  cbn [selectors] in Hs. subst s.
  pose proof (renderBlock_unfold state first rest p c m context parents)
    as U. cbv zeta in U.
  split; [|split; [|split; [|split]]].
  - intros H1. rewrite U, H1. split; [|split].
    + now intros ->.
    + now intros -> ->.
    + now intros -> ->.
  - intros H1 H2 H3. rewrite U, H1, H2, H3. cbn [andb]. split.
    + now intros ->.
    + now intros ->.
  - intros H1 H2 H3. rewrite U, H1, H2, H3. split; now intros ->.
  - intros H.
    now apply (renderBlock_ordinary state _ context parents first rest).
  - intros text md Hm. unfold newRenderingError. cbn [metadata] in *.
    now rewrite Hm.
Qed.

Lemma C3_nesting_rejections_witness :
  renderBlock {| output := [] |} nestedScreenBlock "@media screen" [] =
    Err (RenderingError
           "Rendering error: Nested media queries are not supported @ line 3 (column 7).")
  /\ renderBlock {| output := [] |} nestedScreenBlock "root" [] =
       Ok {| output := [("@media screen and (min-width:600px)", [])] |}.
Proof.
  destruct (C3_nesting_rejections {| output := [] |} nestedScreenBlock
              "@media screen" [] _ _ eq_refl) as (R1 & _).
  destruct (C3_nesting_rejections {| output := [] |} nestedScreenBlock
              "root" [] _ _ eq_refl) as (R1' & _).
  split.
  - exact (proj1 (R1 eq_refl) eq_refl).
  - exact (proj2 (proj2 (R1' eq_refl)) eq_refl eq_refl).
Defined.

(** C1.  The parent "a[data-p='$$']" holds two dollar signs, which
    [replace] reads as the pattern for one: the selector "&:hover" renders
    as "a[data-p='$']:hover", while replacing "&" by the parent gives
    "a[data-p='$$']:hover". *)
Theorem C1_parent_with_dollar_signs :
  renderSelector "&:hover" "a[data-p='$$']" = "a[data-p='$']:hover"
  /\ substituteAmpersands "&:hover" "a[data-p='$$']"
     = "a[data-p='$$']:hover"
  /\ renderTreeToString
       [mkBlock ["a[data-p='$$']"] None
          (Some [mkBlock ["&:hover"]
                   (Some [{| key := "color"; value := "red" |}]) None None])
          None]
     = Ok "a[data-p='$']:hover{color:red}".
Proof. repeat split. Qed.

(** X13.  What C1 says holds whenever no parent holds a dollar sign: in the
    ordinary rule the block renders with the cross product of its
    selectors and the parents, "&" replaced by the parent or the selector
    appended after one space; without parents its selectors are used as
    they are; and the children are rendered with that list as parents. *)
Lemma ordinary_rule_selectors state block context parents first rest :
  selectors block = first :: rest ->
  Js.startsWith first "@" = false ->
  renderBlock state block context parents =
    renderBlockContent state context
      (combineSelectors (selectors block) parents) block
  /\ (parents = [] -> combineSelectors (selectors block) parents
                      = selectors block)
  /\ (parents <> [] ->
      combineSelectors (selectors block) parents
      = flat_map (fun selector =>
                    map (fun parent => renderSelector selector parent)
                      parents) (selectors block))
  /\ (forall selector parent,
        Js.includes selector "&" = false ->
        renderSelector selector parent = parent +:+ " " +:+ selector)
  /\ (forall selector parent,
        Js.includes selector "&" = true -> lacks "$" parent = true ->
        renderSelector selector parent
        = substituteAmpersands selector parent)
  /\ (forall l,
        children block = Some l ->
        renderBlockContent state context
          (combineSelectors (selectors block) parents) block
        = renderChildren
            (afterOwnFragment state context
               (combineSelectors (selectors block) parents) block)
            context (combineSelectors (selectors block) parents) l).
Proof.
  intros Hs Hat.
  split; [|split; [|split; [|split; [|split]]]].
  - now apply (renderBlock_ordinary state block context parents first rest).
  - intros ->. apply combineSelectors_no_parents.
  - apply combineSelectors_cross_product.
  - apply renderSelector_descendant.
  - apply renderSelector_ampersand.
  - intros l Hl. now rewrite renderBlockContent_unfold, Hl.
Qed.

(** C2, as stated, fails: a block whose prelude starts with "@media screen"
    and contains "-color-scheme" meets the claim's condition, yet rule 1
    takes it first, and inside a "@media screen" context it is rejected
    instead of being merged. *)
Lemma C2_screen_prelude_is_rejected :
  let first := "@media screen and (prefers-color-scheme:dark)" in
  let context := "@media screen and (min-width:600px)" in
  Js.startsWith first "@media" = true
  /\ Js.includes first "-color-scheme" = true
  /\ Js.includes context "-color-scheme" = false
  /\ Js.startsWith context "@media screen" = true
  /\ renderBlock {| output := [(context, [])] |}
       (mkBlock [first] None None None) context []
     = Err (RenderingError
              "Rendering error: Nested media queries are not supported @ line undefined (column undefined).").
Proof. cbv zeta. repeat split. Qed.

(** C2, amended.  A block whose first selector starts with "@media" but
    not with "@media screen" and contains "-color-scheme", rendered in a
    context that does not include "-color-scheme": outside a
    "@media screen" context its content is rendered into the context named
    by its first selector; inside one, when the prelude is a text without
    "(", one parenthesised group and a rest without ")", its content is
    rendered into the context, then "and", then that group, which is the
    first parenthesised group of the prelude. *)
Theorem C2_color_scheme_context :
  forall state block context parents first rest,
    selectors block = first :: rest ->
    Js.startsWith first "@media screen" = false ->
    Js.startsWith first "@media" = true ->
    Js.includes first "-color-scheme" = true ->
    Js.includes context "-color-scheme" = false ->
    (Js.startsWith context "@media screen" = false ->
     renderBlock state block context parents =
       renderBlockContent state first parents block)
    /\ (Js.startsWith context "@media screen" = true ->
        forall inside,
          matchesPrelude first inside ->
          renderBlock state block context parents =
            renderBlockContent state
              (context +:+ "and" +:+ "(" +:+ inside +:+ ")") parents block
          /\ firstParenthesisedGroup first
             = Some ("(" +:+ inside +:+ ")")).
Proof.
  intros state [s p c m] context parents first rest Hs H1 H2 H3 H4.
  cbn [selectors] in Hs. subst s.
  rewrite renderBlock_unfold, H1, H2, H3, H4. cbn [andb].
  split.
  - now intros ->.
  - intros -> inside Hm. cbn [negb].
    rewrite (replaceWithFirstGroup_match _ _ Hm).
    split; [reflexivity | now apply firstParenthesisedGroup_match].
Qed.

Lemma darkScheme_matches :
  matchesPrelude "@media (prefers-color-scheme:dark)"
    "prefers-color-scheme:dark".
Proof.
  exists "@media ", EmptyString.
  repeat split; try reflexivity; discriminate.
Defined.

Lemma C2_color_scheme_context_witness :
  renderBlock {| output := [] |} darkSchemeBlock "root" [] =
    renderBlockContent {| output := [] |}
      "@media (prefers-color-scheme:dark)" [] darkSchemeBlock
  /\ renderBlock {| output := [] |} darkSchemeBlock
       "@media screen and (min-width:600px)" [] =
       renderBlockContent {| output := [] |}
         "@media screen and (min-width:600px)and(prefers-color-scheme:dark)"
         [] darkSchemeBlock.
Proof.
  split.
  - exact (proj1 (C2_color_scheme_context {| output := [] |}
                    darkSchemeBlock "root" [] _ _ eq_refl eq_refl eq_refl
                    eq_refl eq_refl) eq_refl).
  - exact (proj1 (proj2 (C2_color_scheme_context {| output := [] |}
                           darkSchemeBlock
                           "@media screen and (min-width:600px)" [] _ _
                           eq_refl eq_refl eq_refl eq_refl eq_refl)
                    eq_refl _ darkScheme_matches)).
Defined.

(** A prelude with two parenthesised groups is not matched by the
    pattern, so the whole prelude follows "and" in the merged name. *)
Lemma color_scheme_two_groups :
  let first :=
    "@media (prefers-color-scheme:dark) and (prefers-contrast:more)" in
  let context := "@media screen and (min-width:600px)" in
  firstParenthesisedGroup first = Some "(prefers-color-scheme:dark)"
  /\ Js.replaceWithFirstGroup first = first
  /\ renderBlock {| output := [(context, [])] |}
       (mkBlock [first] None None None) context []
     = Ok {| output :=
              [(context, []); (context +:+ "and" +:+ first, [])] |}.
Proof. cbv zeta. repeat split. Qed.

End RendererClaims.

(** ** Induction over blocks *)

Lemma Block_induction (P : Block -> Prop) :
  (forall s p c m,
      (forall l, c = Some l -> Forall P l) -> P (mkBlock s p c m)) ->
  forall b, P b.
Proof.
  intros H. fix IH 1. intros [s p [l|] m]; apply H.
  - intros l' [= <-]. induction l as [|b l IHl]; constructor;
      [apply IH | exact IHl].
  - discriminate.
Qed.

Lemma blocksOf_unfold (b : Block) :
  blocksOf b = b :: match children b with
                    | Some l => flat_map blocksOf l
                    | None => []
                    end.
Proof.
  destruct b as [s p [l|] m]; reflexivity.
Qed.

(** ** Renderer: a failure of [renderBlock] *)

Section RendererFailures.

Import Renderer.

Lemma renderChildren_failure (Q : RenderFailure -> Prop) l :
  Forall (fun child => forall state context parents e,
              renderBlock state child context parents = Err e -> Q e) l ->
  forall state context parents e,
    renderChildren state context parents l = Err e -> Q e.
Proof.
  induction 1 as [|child l Hc _ IH]; intros state context parents e;
    cbn [renderChildren]; [discriminate|].
  destruct (renderBlock state child context parents) as [st|e'] eqn:E;
    cbn [bind].
  - apply IH.
  - intros [= <-]. now apply (Hc _ _ _ _ E).
Qed.

Lemma renderBlockContent_failure (Q : RenderFailure -> Prop) block :
  (forall l, children block = Some l ->
     Forall (fun child => forall state context parents e,
                 renderBlock state child context parents = Err e -> Q e) l) ->
  forall state context selectors e,
    renderBlockContent state context selectors block = Err e -> Q e.
Proof.
  intros H state context sels e. rewrite renderBlockContent_unfold.
  destruct (children block) as [l|]; [|discriminate].
  now apply renderChildren_failure, H.
Qed.

(** When every block has a selector, [renderBlock] can only fail with a
    [RenderingError]. *)
Lemma renderBlock_failure block :
  Forall (fun b => selectors b <> []) (blocksOf block) ->
  forall state context parents e,
    renderBlock state block context parents = Err e -> isRenderingError e.
Proof.
  induction block as [s p c m IH] using Block_induction.
  rewrite blocksOf_unfold. cbn [children selectors].
  intros H. inversion H as [|? ? Hs Hc]; subst.
  destruct s as [|first rest]; [now elim Hs|].
  assert (Hch : forall l, c = Some l ->
            Forall (fun child => forall state context parents e,
                      renderBlock state child context parents = Err e ->
                      isRenderingError e) l).
  { intros l ->. specialize (IH l eq_refl).
    rewrite Forall_forall in *. intros child Hin. apply (IH child Hin).
    rewrite Forall_forall. intros b Hb. apply Hc.
    apply in_flat_map. eauto. }
  pose proof (renderBlockContent_failure isRenderingError
                (mkBlock (first :: rest) p c m) Hch) as Content.
  intros state context parents e. rewrite renderBlock_unfold.
  unfold newRenderingError.
  repeat match goal with
         | |- context [if ?b then _ else _] => destruct b
         end;
    try (intros [= <-]; eexists; reflexivity); apply Content.
Qed.

End RendererFailures.

(** ** Renderer: the output only grows *)

Section RendererOutput.

Import Renderer.

Lemma lookup_None (o : list (string * list string)) (context : string) :
  lookup o context = None <-> ~ In context (map fst o).
Proof.
  induction o as [|[c fs] o IH]; cbn [lookup map fst In].
  - tauto.
  - destruct (c =? context)%string eqn:E.
    + apply String.eqb_eq in E. split; [discriminate | tauto].
    + apply String.eqb_neq in E. tauto.
Qed.

Lemma lookup_app (o o2 : list (string * list string)) (context : string) :
  lookup (o ++ o2) context =
    match lookup o context with
    | Some fs => Some fs
    | None => lookup o2 context
    end.
Proof.
  induction o as [|[c fs] o IH]; cbn [lookup app]; [reflexivity|].
  now destruct (c =? context)%string.
Qed.

Lemma keys_push o context fragment :
  map fst (push o context fragment) = map fst o.
Proof.
  induction o as [|[c fs] o IH]; cbn [push map fst]; [reflexivity|].
  destruct (c =? context)%string; cbn [map fst]; [reflexivity|].
  now rewrite IH.
Qed.

Lemma lookup_push o context fragment c' :
  lookup (push o context fragment) c' =
    if (c' =? context)%string
    then option_map (fun fs => fs ++ [fragment]) (lookup o context)
    else lookup o c'.
Proof.
  induction o as [|[c fs] o IH]; cbn [push lookup option_map].
  - now destruct (c' =? context)%string.
  - destruct (c =? context)%string eqn:E; cbn [lookup].
    + apply String.eqb_eq in E as ->.
      rewrite (String.eqb_sym c' context).
      now destruct (context =? c')%string.
    + rewrite IH. destruct (c =? c')%string eqn:E'; [|reflexivity].
      apply String.eqb_eq in E' as ->. now rewrite E.
Qed.

Lemma lookup_ensure o context c' :
  lookup (ensure o context) c' =
    if (c' =? context)%string then Some (fragmentsOf o context)
    else lookup o c'.
Proof.
  unfold ensure, fragmentsOf.
  destruct (lookup o context) as [fs|] eqn:E.
  - destruct (c' =? context)%string eqn:E'; [|reflexivity].
    apply String.eqb_eq in E' as ->. exact E.
  - rewrite lookup_app. cbn [lookup].
    rewrite (String.eqb_sym context c').
    destruct (c' =? context)%string eqn:E'.
    + apply String.eqb_eq in E' as ->. now rewrite E.
    + now destruct (lookup o c').
Qed.

Lemma extends_refl o : extends o o.
Proof.
  split.
  - exists []. now rewrite app_nil_r.
  - intros c fs H. exists []. now rewrite app_nil_r.
Qed.

Lemma extends_trans o1 o2 o3 :
  extends o1 o2 -> extends o2 o3 -> extends o1 o3.
Proof.
  intros [[m1 K1] F1] [[m2 K2] F2]. split.
  - exists (m1 ++ m2). now rewrite K2, K1, app_assoc.
  - intros c fs H. destruct (F1 _ _ H) as [more1 H1].
    destruct (F2 _ _ H1) as [more2 H2].
    exists (more1 ++ more2). now rewrite H2, app_assoc.
Qed.

Lemma extends_ensure o context : extends o (ensure o context).
Proof.
  split.
  - unfold ensure. destruct (lookup o context).
    + exists []. now rewrite app_nil_r.
    + exists [context]. now rewrite map_app.
  - intros c fs H. exists []. rewrite app_nil_r, lookup_ensure.
    destruct (c =? context)%string eqn:E; [|exact H].
    apply String.eqb_eq in E as ->. unfold fragmentsOf. now rewrite H.
Qed.

Lemma extends_push o context fragment :
  extends o (push o context fragment).
Proof.
  split.
  - exists []. now rewrite keys_push, app_nil_r.
  - intros c fs H. rewrite lookup_push.
    destruct (c =? context)%string eqn:E.
    + apply String.eqb_eq in E as ->. rewrite H. now exists [fragment].
    + exists []. now rewrite app_nil_r.
Qed.

Lemma NoDup_ensure o context :
  NoDup (map fst o) -> NoDup (map fst (ensure o context)).
Proof.
  intros H. unfold ensure. destruct (lookup o context) eqn:E; [exact H|].
  rewrite map_app. cbn [map fst].
  apply lookup_None in E.
  apply NoDup_app; [exact H | repeat constructor; intros [] | ].
  intros c Hc [<-|[]]. contradiction.
Qed.

(** The block's own step: its context exists afterwards, holding what
    it held before and, for a block with properties, one fragment more;
    no other context changes. *)
Lemma afterOwnFragment_fragments state context sels block c' :
  fragmentsOf (output (afterOwnFragment state context sels block)) c' =
    if (c' =? context)%string then
      fragmentsOf (output state) context
        ++ match properties block with
           | Some (p :: ps) => [ownFragment sels (p :: ps)]
           | _ => []
           end
    else fragmentsOf (output state) c'.
Proof.
  unfold afterOwnFragment, fragmentsOf at 1.
  destruct (properties block) as [[|p ps]|]; cbn [output];
    rewrite ?lookup_push, ?lookup_ensure;
    destruct (c' =? context)%string eqn:E;
    rewrite ?String.eqb_refl; cbn [option_map];
    rewrite ?app_nil_r; reflexivity.
Qed.

Lemma afterOwnFragment_extends state context sels block :
  extends (output state)
    (output (afterOwnFragment state context sels block)).
Proof.
  unfold afterOwnFragment.
  destruct (properties block) as [[|p ps]|]; cbn [output];
    try apply extends_ensure.
  eapply extends_trans; [apply extends_ensure | apply extends_push].
Qed.

Lemma afterOwnFragment_NoDup state context sels block :
  NoDup (map fst (output state)) ->
  NoDup (map fst (output (afterOwnFragment state context sels block))).
Proof.
  intros H. unfold afterOwnFragment.
  destruct (properties block) as [[|p ps]|]; cbn [output];
    rewrite ?keys_push; now apply NoDup_ensure.
Qed.

Lemma renderBlock_cases state block context parents :
  (exists e, renderBlock state block context parents = Err e)
  \/ (exists target sels,
        renderBlock state block context parents =
          renderBlockContent state target sels block).
Proof.
  destruct block as [[|first rest] p c m].
  - left. eexists. reflexivity.
  - rewrite renderBlock_unfold.
    repeat match goal with
           | |- context [if ?b then _ else _] => destruct b
           end; eauto.
Qed.

Lemma renderChildren_grows l :
  Forall (fun child => forall state context parents state',
              renderBlock state child context parents = Ok state' ->
              grows (output state) (output state')) l ->
  forall state context parents state',
    renderChildren state context parents l = Ok state' ->
    grows (output state) (output state').
Proof.
  induction 1 as [|child l Hc _ IH]; intros state context parents state';
    cbn [renderChildren].
  - intros [= <-]. split; [apply extends_refl | auto].
  - destruct (renderBlock state child context parents) as [st|e] eqn:E;
      cbn [bind]; [|discriminate].
    intros H. destruct (Hc _ _ _ _ E) as [E1 N1].
    destruct (IH _ _ _ _ H) as [E2 N2].
    split; [eapply extends_trans; eassumption | auto].
Qed.

Lemma renderBlock_grows block :
  forall state context parents state',
    renderBlock state block context parents = Ok state' ->
    grows (output state) (output state').
Proof.
  induction block as [s p c m IH] using Block_induction.
  intros state context parents state' H.
  destruct (renderBlock_cases state (mkBlock s p c m) context parents)
    as [[e E]|(target & sels & E)]; [congruence|].
  rewrite E, renderBlockContent_unfold in H. cbn [children] in H.
  pose proof (afterOwnFragment_extends state target sels
                (mkBlock s p c m)) as E1.
  pose proof (afterOwnFragment_NoDup state target sels
                (mkBlock s p c m)) as N1.
  destruct c as [l|].
  - destruct (renderChildren_grows l (IH l eq_refl) _ _ _ _ H) as [E2 N2].
    split; [eapply extends_trans; eassumption | auto].
  - injection H as <-. split; assumption.
Qed.

Lemma renderRoots_grows tree :
  forall state state',
    renderRoots state tree = Ok state' ->
    grows (output state) (output state').
Proof.
  induction tree as [|block tree IH]; intros state state';
    cbn [renderRoots].
  - intros [= <-]. split; [apply extends_refl | auto].
  - destruct (renderBlock state block "root" []) as [st|e] eqn:E;
      cbn [bind]; [|discriminate].
    intros H. destruct (renderBlock_grows _ _ _ _ _ E) as [E1 N1].
    destruct (IH _ _ H) as [E2 N2].
    split; [eapply extends_trans; eassumption | auto].
Qed.

End RendererOutput.

(** ** Renderer: claims about the output *)

Section RendererOutputClaims.

Import Renderer.

(** C7, as stated, fails: the fragment of an at-rule block is not made
    of the block's own selectors.  The block "@media screen" with one
    property, nested in ".a", contributes ".a{color:red}" to the context
    "@media screen". *)
Lemma C7_media_block_fragment :
  renderBlock {| output := [("root", [])] |}
    (mkBlock ["@media screen"] (Some [redProperty]) None None) "root" [".a"]
  = Ok {| output := [("root", []); ("@media screen", [".a{color:red}"])] |}
  /\ ownFragment ["@media screen"] [redProperty] = "@media screen{color:red}"
  /\ renderTreeToString screenInsideRule = Ok "@media screen{.a{color:red}}".
Proof. repeat split. Qed.

(** C7, amended.  The output string is the groups of [state.output] in
    order, concatenated; the contexts are distinct and stand in the order
    in which they were first seen, since rendering a block only appends
    contexts and fragments; the group of "root" is its fragments
    concatenated, a group without fragments is empty, any other group is
    its context, "{", its fragments and "}".  A block with properties
    pushes exactly one fragment to its context and changes no other
    context: the selector list it is rendered with joined by ",", then "{",
    the "key:value" pairs joined by ";", then "}".  That list is the
    block's selectors combined with the parents for an ordinary block, and
    the inherited parents for a "@media screen" or color-scheme block. *)
Theorem C7_rendered_output :
  (forall tree state,
      renderRoots {| output := [] |} tree = Ok state ->
      renderTreeToString tree
      = Ok (Js.join "" (map renderGroup (output state)))
      /\ NoDup (map fst (output state)))
  /\ (forall fragments, renderGroup ("root", fragments)
                        = Js.join "" fragments)
  /\ (forall context, renderGroup (context, []) = EmptyString)
  /\ (forall context f fs,
        context <> "root" ->
        renderGroup (context, f :: fs)
        = context +:+ "{" +:+ Js.join "" (f :: fs) +:+ "}")
  /\ (forall state block context parents state',
        renderBlock state block context parents = Ok state' ->
        extends (output state) (output state'))
  /\ (forall state tree state',
        renderRoots state tree = Ok state' ->
        extends (output state) (output state'))
  /\ (forall state context sels block,
        renderBlockContent state context sels block
        = match children block with
          | Some l =>
              renderChildren (afterOwnFragment state context sels block)
                context sels l
          | None => Ok (afterOwnFragment state context sels block)
          end
        /\ (forall p ps,
              properties block = Some (p :: ps) ->
              fragmentsOf
                (output (afterOwnFragment state context sels block)) context
              = fragmentsOf (output state) context
                  ++ [Js.join "," sels +:+ "{"
                        +:+ Js.join ";"
                              (map (fun property =>
                                      key property +:+ ":"
                                        +:+ value property) (p :: ps))
                        +:+ "}"])
        /\ (properties block = None \/ properties block = Some [] ->
            fragmentsOf
              (output (afterOwnFragment state context sels block)) context
            = fragmentsOf (output state) context)
        /\ (forall other,
              other <> context ->
              fragmentsOf
                (output (afterOwnFragment state context sels block)) other
              = fragmentsOf (output state) other))
  /\ (forall state block context parents first rest,
        selectors block = first :: rest ->
        (Js.startsWith first "@" = false ->
         renderBlock state block context parents
         = renderBlockContent state context
             (combineSelectors (selectors block) parents) block)
        /\ (Js.startsWith first "@media screen" = true ->
            Js.includes context "screen" = false ->
            Js.includes context "-color-scheme" = false ->
            renderBlock state block context parents
            = renderBlockContent state first parents block)
        /\ (Js.startsWith first "@media screen" = false ->
            Js.startsWith first "@media" = true ->
            Js.includes first "-color-scheme" = true ->
            Js.includes context "-color-scheme" = false ->
            exists target,
              renderBlock state block context parents
              = renderBlockContent state target parents block)).
Proof.
  split; [|split; [|split; [|split; [|split; [|split; [|split]]]]]].
  - intros tree state H. unfold renderTreeToString. rewrite H. cbn [bind].
    split; [reflexivity|].
    apply (renderRoots_grows _ _ _ H). constructor.
  - intros fragments. cbn [renderGroup]. now destruct fragments.
  - reflexivity.
  - intros context f fs H. cbn [renderGroup].
    apply String.eqb_neq in H. now rewrite H.
  - intros state block context parents state' H.
    apply (renderBlock_grows _ _ _ _ _ H).
  - intros state tree state' H. apply (renderRoots_grows _ _ _ H).
  - intros state context sels block.
    split; [apply renderBlockContent_unfold|].
    split; [|split].
    + intros p ps H. rewrite afterOwnFragment_fragments, String.eqb_refl, H.
      reflexivity.
    + intros H. rewrite afterOwnFragment_fragments, String.eqb_refl.
      destruct H as [-> | ->]; now rewrite app_nil_r.
    + intros other H. rewrite afterOwnFragment_fragments.
      apply String.eqb_neq in H. now rewrite H.
  - intros state block context parents first rest Hs.
    split; [|split].
    + now apply renderBlock_ordinary with (rest := rest).
    + destruct block as [s p c m]. cbn [selectors] in Hs. subst s.
      intros H1 H2 H3. now rewrite renderBlock_unfold, H1, H2, H3.
    + destruct block as [s p c m]. cbn [selectors] in Hs. subst s.
      intros H1 H2 H3 H4. rewrite renderBlock_unfold, H1, H2, H3, H4.
      cbn [andb]. eauto.
Qed.

Lemma C7_rendered_output_witness :
  renderTreeToString screenInsideRule
  = Ok (Js.join ""
          (map renderGroup
             [("root", []); ("@media screen", [".a{color:red}"])]))
  /\ NoDup ["root"; "@media screen"].
Proof.
  exact (proj1 C7_rendered_output screenInsideRule
           {| output := [("root", []);
                         ("@media screen", [".a{color:red}"])] |}
           eq_refl).
Defined.

(** C10.  [renderBlock] reads [block.selectors[0]] first.  In a tree
    where every block, children included, has a selector, rendering can
    only fail with a [RenderingError]; a block without selectors makes
    [renderBlock], and the rendering of a tree it is the first root of,
    fail with a [TypeError]; and [setSelectors] of the view stores an empty
    list as it is. *)
Theorem C10_first_selector_access :
  (forall tree e,
      Forall (fun b => selectors b <> []) (blocksOfTree tree) ->
      renderTreeToString tree = Err e -> isRenderingError e)
  /\ (forall state block context parents,
        selectors block = [] ->
        exists text,
          renderBlock state block context parents = Err (TypeError text))
  /\ (forall block tree,
        selectors block = [] ->
        exists text,
          renderTreeToString (block :: tree) = Err (TypeError text))
  /\ (forall block,
        selectors (Transformer.setSelectors [] block) = []).
Proof.
  split; [|split; [|split]].
  - intros tree e H. unfold renderTreeToString.
    destruct (renderRoots {| output := [] |} tree) as [st|e'] eqn:E;
      cbn [bind]; [discriminate|].
    intros [= <-]. revert E. generalize {| output := [] |}.
    unfold blocksOfTree in H.
    induction tree as [|block tree IH]; intros st; cbn [renderRoots];
      [discriminate|].
    cbn [flat_map] in H. apply Forall_app in H as [Hb Ht].
    destruct (renderBlock st block "root" []) as [st'|e''] eqn:E;
      cbn [bind].
    + now apply IH.
    + intros [= <-]. now apply (renderBlock_failure block Hb _ _ _ _ E).
  - intros state block context parents H. eexists.
    now apply renderBlock_no_selector.
  - intros block tree H. eexists. unfold renderTreeToString.
    cbn [renderRoots]. rewrite (renderBlock_no_selector _ _ _ _ H).
    reflexivity.
  - reflexivity.
Qed.

End RendererOutputClaims.

(** ** The mutable view: properties *)

Section ViewProperties.

Import Transformer.

Lemma hasKey_true k property : hasKey k property = true <-> key property = k.
Proof. apply String.eqb_eq. Qed.

Lemma hasKey_false k property :
  hasKey k property = false <-> key property <> k.
Proof. apply String.eqb_neq. Qed.

Lemma find_first k (l1 l2 : list Property) p :
  key p = k -> (forall q, In q l1 -> key q <> k) ->
  find (hasKey k) (l1 ++ p :: l2) = Some p.
Proof.
  intros Hp. induction l1 as [|q l1 IH]; intros H; cbn [find app].
  - apply hasKey_true in Hp. now rewrite Hp.
  - assert (Hq : hasKey k q = false)
      by (apply hasKey_false, H; now left).
    rewrite Hq. apply IH. intros q' Hin. apply H. now right.
Qed.

Lemma find_absent k (l : list Property) :
  (forall q, In q l -> key q <> k) -> find (hasKey k) l = None.
Proof.
  induction l as [|q l IH]; intros H; cbn [find]; [reflexivity|].
  assert (Hq : hasKey k q = false) by (apply hasKey_false, H; now left).
  rewrite Hq. apply IH. intros q' Hin. apply H. now right.
Qed.

Lemma assignFirst_first k v (l1 l2 : list Property) p :
  key p = k -> (forall q, In q l1 -> key q <> k) ->
  assignFirst k v (l1 ++ p :: l2)
  = l1 ++ {| key := key p; value := v |} :: l2.
Proof.
  intros Hp. induction l1 as [|q l1 IH]; intros H; cbn [assignFirst app].
  - apply hasKey_true in Hp. now rewrite Hp.
  - assert (Hq : hasKey k q = false)
      by (apply hasKey_false, H; now left).
    rewrite Hq. f_equal. apply IH. intros q' Hin. apply H. now right.
Qed.

Lemma find_filter (f : Property -> bool) l :
  find f l = hd_error (filter f l).
Proof.
  induction l as [|q l IH]; cbn [find filter]; [reflexivity|].
  now destruct (f q).
Qed.

Lemma find_app (f : Property -> bool) l1 l2 :
  find f (l1 ++ l2)
  = match find f l1 with Some p => Some p | None => find f l2 end.
Proof.
  induction l1 as [|q l1 IH]; cbn [find app]; [reflexivity|].
  now destruct (f q).
Qed.

Lemma hasKey_other k k' v q :
  k' <> k -> hasKey k q = true ->
  hasKey k' {| key := key q; value := v |} = false
  /\ hasKey k' q = false.
Proof.
  intros Hne Hq. apply hasKey_true in Hq.
  split; apply hasKey_false; cbn [key]; congruence.
Qed.

(** Assigning to the first entry of a key leaves the entries of every
    other key as they are. *)
Lemma filter_assignFirst k k' v l :
  k' <> k ->
  filter (hasKey k') (assignFirst k v l) = filter (hasKey k') l.
Proof.
  intros Hne. induction l as [|q l IH]; cbn [assignFirst filter];
    [reflexivity|].
  destruct (hasKey k q) eqn:Hq; cbn [filter].
  - destruct (hasKey_other k k' v q Hne Hq) as [-> ->]. reflexivity.
  - now rewrite IH.
Qed.

Lemma find_assignFirst_same k v l p :
  find (hasKey k) l = Some p ->
  find (hasKey k) (assignFirst k v l)
  = Some {| key := key p; value := v |}.
Proof.
  induction l as [|q l IH]; cbn [assignFirst find]; [discriminate|].
  destruct (hasKey k q) eqn:Hq.
  - intros [= ->]. cbn [find]. unfold hasKey in *. cbn [key].
    now rewrite Hq.
  - intros H. cbn [find]. rewrite Hq. now apply IH.
Qed.

Lemma filter_filter_other k k' (l : list Property) :
  k' <> k ->
  filter (hasKey k') (filter (fun q => negb (hasKey k q)) l)
  = filter (hasKey k') l.
Proof.
  intros Hne. induction l as [|q l IH]; cbn [filter]; [reflexivity|].
  destruct (hasKey k q) eqn:Hq; cbn [negb filter].
  - destruct (hasKey_other k k' (value q) q Hne Hq) as [_ ->]. exact IH.
  - now rewrite IH.
Qed.

Lemma propertiesOf_withProperties block l :
  propertiesOf (withProperties block l) = l.
Proof. reflexivity. Qed.

Lemma propertiesOf_setProperty k v block :
  propertiesOf (setProperty k v block)
  = match find (hasKey k) (propertiesOf block) with
    | Some _ => assignFirst k v (propertiesOf block)
    | None => propertiesOf block ++ [{| key := k; value := v |}]
    end.
Proof.
  unfold setProperty. now destruct (find (hasKey k) (propertiesOf block)).
Qed.

Lemma getProperty_setProperty k v block :
  getProperty k (setProperty k v block) = Some v.
Proof.
  unfold getProperty. rewrite propertiesOf_setProperty.
  destruct (find (hasKey k) (propertiesOf block)) as [p|] eqn:E.
  - now rewrite (find_assignFirst_same _ _ _ _ E).
  - rewrite find_app, E. cbn [find]. unfold hasKey. cbn [key].
    now rewrite String.eqb_refl.
Qed.

Lemma filter_setProperty_other k k' v block :
  k' <> k ->
  filter (hasKey k') (propertiesOf (setProperty k v block))
  = filter (hasKey k') (propertiesOf block).
Proof.
  intros Hne. rewrite propertiesOf_setProperty.
  destruct (find (hasKey k) (propertiesOf block)).
  - now apply filter_assignFirst.
  - rewrite filter_app. cbn [filter].
    assert (E : hasKey k' {| key := k; value := v |} = false)
      by (apply hasKey_false; cbn [key]; congruence).
    rewrite E. apply app_nil_r.
Qed.

Lemma getProperty_removeProperty k block :
  getProperty k (removeProperty k block) = None.
Proof.
  unfold getProperty, removeProperty.
  rewrite propertiesOf_withProperties. cbn [option_map].
  rewrite find_absent; [reflexivity|].
  intros q Hq. apply filter_In in Hq as [_ Hq].
  apply hasKey_false. now destruct (hasKey k q).
Qed.

End ViewProperties.

Section ViewClaims.

Import Transformer.

(** C5.  On a block whose properties may repeat a key: [getProperty]
    returns the value of the first entry with the key, or nothing when
    there is none; [setProperty] replaces the value of that first entry
    where it stands, or appends a new entry when there is none;
    [removeProperty] keeps exactly the entries with another key, in order.
    The methods act on the block itself, so a later call sees the change,
    also within one handler; the entries of any other key, and the other
    fields of the block, stay as they are. *)
Theorem C5_view_properties :
  forall block k v,
    (forall l1 p l2,
        propertiesOf block = l1 ++ p :: l2 ->
        key p = k -> (forall q, In q l1 -> key q <> k) ->
        getProperty k block = Some (value p)
        /\ propertiesOf (setProperty k v block)
           = l1 ++ {| key := k; value := v |} :: l2)
    /\ ((forall q, In q (propertiesOf block) -> key q <> k) ->
        getProperty k block = None
        /\ propertiesOf (setProperty k v block)
           = propertiesOf block ++ [{| key := k; value := v |}])
    /\ propertiesOf (removeProperty k block)
       = filter (fun q => negb (key q =? k)%string) (propertiesOf block)
    /\ (forall q, In q (propertiesOf (removeProperty k block))
                  <-> In q (propertiesOf block) /\ key q <> k)
    /\ getProperty k (setProperty k v block) = Some v
    /\ getProperty k (removeProperty k block) = None
    /\ (forall code world,
          runHandler (SetProperty k v (GetProperty k code)) block world
          = runHandler (code (Some v)) (setProperty k v block) world)
    /\ (forall code world,
          runHandler (RemoveProperty k (GetProperty k code)) block world
          = runHandler (code None) (removeProperty k block) world)
    /\ (forall k',
          k' <> k ->
          filter (hasKey k') (propertiesOf (setProperty k v block))
          = filter (hasKey k') (propertiesOf block)
          /\ filter (hasKey k') (propertiesOf (removeProperty k block))
             = filter (hasKey k') (propertiesOf block)
          /\ getProperty k' (setProperty k v block) = getProperty k' block
          /\ getProperty k' (removeProperty k block) = getProperty k' block)
    /\ (selectors (setProperty k v block) = selectors block
        /\ children (setProperty k v block) = children block
        /\ metadata (setProperty k v block) = metadata block)
    /\ (selectors (removeProperty k block) = selectors block
        /\ children (removeProperty k block) = children block
        /\ metadata (removeProperty k block) = metadata block).
Proof.
  intros block k v.
  split; [|split; [|split; [|split; [|split; [|split; [|split;
    [|split; [|split; [|split]]]]]]]]].
  - intros l1 p l2 E Hp H. unfold getProperty.
    rewrite propertiesOf_setProperty, E, (find_first k l1 l2 p Hp H).
    rewrite (assignFirst_first k v l1 l2 p Hp H), Hp. now split.
  - intros H. unfold getProperty.
    rewrite propertiesOf_setProperty, (find_absent k _ H). now split.
  - reflexivity.
  - intros q. unfold removeProperty.
    rewrite propertiesOf_withProperties, filter_In.
    rewrite negb_true_iff. now rewrite hasKey_false.
  - apply getProperty_setProperty.
  - apply getProperty_removeProperty.
  - intros code world. cbn [runHandler].
    now rewrite getProperty_setProperty.
  - intros code world. cbn [runHandler].
    now rewrite getProperty_removeProperty.
  - intros k' Hne.
    assert (F1 := filter_setProperty_other k k' v block Hne).
    assert (F2 : filter (hasKey k') (propertiesOf (removeProperty k block))
                 = filter (hasKey k') (propertiesOf block))
      by (unfold removeProperty; rewrite propertiesOf_withProperties;
          now apply filter_filter_other).
    unfold getProperty. rewrite !find_filter, F1, F2. auto.
  - unfold setProperty.
    now destruct (find (hasKey k) (propertiesOf block)).
  - now unfold removeProperty.
Qed.

Lemma C5_view_properties_witness :
  (getProperty "b" repeatedKeyBlock = Some "1"
   /\ propertiesOf (setProperty "b" "9" repeatedKeyBlock)
      = [{| key := "b"; value := "9" |}; {| key := "c"; value := "2" |};
         {| key := "b"; value := "3" |}])
  /\ (getProperty "d" repeatedKeyBlock = None
      /\ propertiesOf (setProperty "d" "9" repeatedKeyBlock)
         = [{| key := "b"; value := "1" |}; {| key := "c"; value := "2" |};
            {| key := "b"; value := "3" |}; {| key := "d"; value := "9" |}])
  /\ propertiesOf (removeProperty "b" repeatedKeyBlock)
     = [{| key := "c"; value := "2" |}]
  /\ getProperty "c" (removeProperty "b" repeatedKeyBlock) = Some "2".
Proof.
  assert (absent : forall q,
             In q (propertiesOf repeatedKeyBlock) -> key q <> "d").
  { intros q [<-|[<-|[<-|[]]]]; discriminate. }
  split; [|split; [|split]].
  - exact (proj1 (C5_view_properties repeatedKeyBlock "b" "9")
             [] {| key := "b"; value := "1" |}
             [{| key := "c"; value := "2" |}; {| key := "b"; value := "3" |}]
             eq_refl eq_refl (fun q (H : In q []) => match H with end)).
  - exact (proj1 (proj2 (C5_view_properties repeatedKeyBlock "d" "9"))
             absent).
  - exact (proj1 (proj2 (proj2
                           (C5_view_properties repeatedKeyBlock "b" "9")))).
  - reflexivity.
Defined.

End ViewClaims.

(** ** Transformer *)

Section TransformerProperties.

Import Transformer.

(** No method of the view assigns [children] or [metadata]. *)
Lemma runHandler_frame code : forall block world,
  children (fst (fst (runHandler code block world))) = children block
  /\ metadata (fst (fst (runHandler code block world))) = metadata block.
Proof.
  induction code as [| |entry k IH|k IH|k IH|l k IH|name k IH|name k IH
                    |k IH|name v k IH|name k IH];
    intros block world; cbn [runHandler]; try (split; reflexivity);
    try apply IH.
  - destruct (IH (setSelectors l block) world) as [-> ->]. now split.
  - destruct (IH (setProperty name v block) world) as [-> ->].
    unfold setProperty.
    now destruct (find (hasKey name) (propertiesOf block)).
  - destruct (IH (removeProperty name block) world) as [-> ->]. now split.
Qed.

Lemma runPlugins_frame plugins : forall block world,
  children (fst (fst (runPlugins plugins block world))) = children block
  /\ metadata (fst (fst (runPlugins plugins block world))) = metadata block.
Proof.
  induction plugins as [|plugin plugins IH]; intros block world;
    cbn [runPlugins]; [now split|].
  pose proof (runHandler_frame (handler plugin) block world) as F.
  destruct (runHandler (handler plugin) block world) as [[b w] [m|]];
    cbn [fst snd] in *; [exact F|].
  destruct (IH b w) as [-> ->]. exact F.
Qed.

Lemma makeMutableBlock_frame block :
  children (makeMutableBlock block) = children block
  /\ metadata (makeMutableBlock block) = metadata block.
Proof. unfold makeMutableBlock. now destruct (properties block). Qed.

(** A handler only appends to the log, and never reads it. *)
Lemma runHandler_world code : forall block world,
  runHandler code block world
  = ((fst (fst (runHandler code block [])),
       world ++ snd (fst (runHandler code block []))),
      snd (runHandler code block [])).
Proof.
  induction code as [| |entry k IH|k IH|k IH|l k IH|name k IH|name k IH
                    |k IH|name v k IH|name k IH];
    intros block world; cbn [runHandler];
    try (cbn [fst snd]; now rewrite app_nil_r);
    try apply IH.
  rewrite (IH block (world ++ [entry])), (IH block ([] ++ [entry])).
  cbn [fst snd app]. now rewrite <- app_assoc.
Qed.

Lemma runPlugins_world plugins : forall block world,
  runPlugins plugins block world
  = ((fst (fst (runPlugins plugins block [])),
       world ++ snd (fst (runPlugins plugins block []))),
      snd (runPlugins plugins block [])).
Proof.
  induction plugins as [|plugin plugins IH]; intros block world;
    cbn [runPlugins].
  - cbn [fst snd]. now rewrite app_nil_r.
  - rewrite (runHandler_world (handler plugin) block world).
    destruct (runHandler (handler plugin) block []) as [[b w] [m|]];
      cbn [fst snd].
    + reflexivity.
    + rewrite (IH b (world ++ w)), (IH b w). cbn [fst snd].
      now rewrite app_assoc.
Qed.

Lemma runPlugins_emitted plugins block world :
  runPlugins plugins (makeMutableBlock block) world
  = ((fst (fst (runPlugins plugins (makeMutableBlock block) [])),
       world ++ emitted plugins block),
      thrown plugins block).
Proof. apply runPlugins_world. Qed.

Lemma transformTree_cons block rest plugins world :
  transformTree (block :: rest) plugins world
  = match transformBlock plugins block world with
    | ((block', world'), None) =>
        match transformTree rest plugins world' with
        | ((rest', world''), failure) =>
            ((block' :: rest', world''), failure)
        end
    | ((block', world'), Some message) =>
        ((block' :: rest, world'), Some message)
    end.
Proof. reflexivity. Qed.

Lemma transformBlock_unfold plugins block world :
  transformBlock plugins block world
  = match runPlugins plugins (makeMutableBlock block) world with
    | ((mutated, world'), Some original) =>
        ((mutated, world'), Some (caught original block))
    | ((mutated, world'), None) =>
        match children block with
        | Some l =>
            match transformTree l plugins world' with
            | ((l', world''), Some failure) =>
                ((withChildren mutated (Some l'), world''),
                  Some (rethrown failure block))
            | ((l', world''), None) =>
                ((withChildren mutated (Some l'), world''), None)
            end
        | None => ((mutated, world'), None)
        end
    end.
Proof. destruct block as [s p [l|] m]; reflexivity. Qed.

(** *** The shape of the tree *)

Lemma skeletonOf_unfold block :
  skeletonOf block
  = Bone (metadata block) (option_map (map skeletonOf) (children block)).
Proof. destruct block as [s p [l|] m]; reflexivity. Qed.

Lemma forEachBlock_skeleton plugins tree :
  Forall (fun block => forall world,
              skeletonOf (fst (fst (transformBlock plugins block world)))
              = skeletonOf block) tree ->
  forall world,
    map skeletonOf (fst (fst (transformTree tree plugins world)))
    = map skeletonOf tree.
Proof.
  induction 1 as [|block rest Hb _ IH]; intros world; [reflexivity|].
  rewrite transformTree_cons. specialize (Hb world).
  destruct (transformBlock plugins block world) as [[b' w'] [m|]];
    cbn [fst snd] in *.
  - cbn [map]. now rewrite Hb.
  - specialize (IH w').
    destruct (transformTree rest plugins w') as [[r' w''] f].
    cbn [fst snd map] in *. now rewrite Hb, IH.
Qed.

Lemma transformBlock_skeleton plugins block : forall world,
  skeletonOf (fst (fst (transformBlock plugins block world)))
  = skeletonOf block.
Proof.
  induction block as [s p c m IH] using Block_induction. intros world.
  rewrite transformBlock_unfold.
  destruct (runPlugins_frame plugins (makeMutableBlock (mkBlock s p c m))
              world) as [Fc Fm].
  destruct (makeMutableBlock_frame (mkBlock s p c m)) as [Mc Mm].
  rewrite Mc in Fc. rewrite Mm in Fm. cbn [children metadata] in Fc, Fm.
  destruct (runPlugins plugins (makeMutableBlock (mkBlock s p c m)) world)
    as [[mutated w] [message|]]; cbn [fst snd] in *.
  - rewrite !skeletonOf_unfold, Fc, Fm. reflexivity.
  - cbn [children]. destruct c as [l|].
    + pose proof (forEachBlock_skeleton plugins l (IH l eq_refl) w) as Sub.
      destruct (transformTree l plugins w) as [[l' w'] [message|]];
        cbn [fst snd] in *;
        rewrite !skeletonOf_unfold; unfold withChildren;
        cbn [children metadata option_map]; now rewrite Sub, Fm.
    + cbn [fst]. rewrite !skeletonOf_unfold, Fc, Fm. reflexivity.
Qed.

(** *** How runs compose *)

Lemma explains_nil plugins world : explains plugins [] world world None.
Proof. split; [now rewrite app_nil_r | constructor]. Qed.

Lemma explains_app_ok plugins o1 o2 w w1 w2 failure :
  explains plugins o1 w w1 None ->
  explains plugins o2 w1 w2 failure ->
  explains plugins (o1 ++ o2) w w2 failure.
Proof.
  intros [-> F1]. destruct failure as [message|]; cbn [explains].
  - intros (before & x & after & original & -> & Fb & Hx & -> & Hm).
    exists (o1 ++ before), x, after, original.
    repeat split; try assumption.
    + now rewrite app_assoc.
    + now apply Forall_app.
    + now rewrite !flat_map_app, !app_assoc.
  - intros [-> F2]. split.
    + now rewrite flat_map_app, app_assoc.
    + now apply Forall_app.
Qed.

Lemma explains_app_failed plugins o1 o2 w w1 message :
  explains plugins o1 w w1 (Some message) ->
  explains plugins (o1 ++ o2) w w1 (Some message).
Proof.
  intros (before & x & after & original & -> & Fb & Hx & -> & Hm).
  exists before, x, (after ++ o2), original.
  repeat split; try assumption. now rewrite <- app_assoc.
Qed.

Lemma explains_wrapped plugins order w w1 failure block :
  explains plugins order w w1 (Some failure) ->
  explains plugins order w w1 (Some (rethrown failure block)).
Proof.
  intros (before & x & after & original & -> & Fb & Hx & -> & Hm).
  exists before, x, after, original.
  repeat split; try assumption.
  unfold rethrown, failureMessage at 1, transformationError.
  now apply includes_wrapped.
Qed.

(** The handlers applied to one block. *)
Lemma explains_own plugins block world :
  explains plugins [block] world (world ++ emitted plugins block)
    (option_map (fun original => caught original block)
       (thrown plugins block)).
Proof.
  destruct (thrown plugins block) as [original|] eqn:E;
    cbn [option_map explains].
  - exists [], block, [], original.
    repeat split; try assumption; [constructor | | apply includes_self].
    cbn [app flat_map]. now rewrite app_nil_r.
  - split; [cbn [flat_map]; now rewrite app_nil_r | now constructor].
Qed.

Lemma transformTree_explains_from plugins tree :
  Forall (fun block => forall world,
              explains plugins (blocksOf block) world
                (snd (fst (transformBlock plugins block world)))
                (snd (transformBlock plugins block world))) tree ->
  forall world,
    explains plugins (blocksOfTree tree) world
      (snd (fst (transformTree tree plugins world)))
      (snd (transformTree tree plugins world)).
Proof.
  unfold blocksOfTree.
  induction 1 as [|block rest Hb _ IH]; intros world.
  - apply explains_nil.
  - rewrite transformTree_cons. cbn [flat_map].
    specialize (Hb world).
    destruct (transformBlock plugins block world) as [[b' w'] [m|]];
      cbn [fst snd] in *.
    + now apply explains_app_failed.
    + specialize (IH w').
      destruct (transformTree rest plugins w') as [[r' w''] failure];
        cbn [fst snd] in *.
      eapply explains_app_ok; eassumption.
Qed.

Lemma transformBlock_explains plugins block :
  forall world,
    explains plugins (blocksOf block) world
      (snd (fst (transformBlock plugins block world)))
      (snd (transformBlock plugins block world)).
Proof.
  induction block as [s p c m IH] using Block_induction. intros world.
  rewrite transformBlock_unfold, blocksOf_unfold, runPlugins_emitted.
  cbn [children].
  pose proof (explains_own plugins (mkBlock s p c m) world) as Own.
  change (?b :: ?l) with ([b] ++ l).
  destruct (thrown plugins (mkBlock s p c m)) as [original|];
    cbn [option_map fst snd] in *.
  - now apply explains_app_failed.
  - destruct c as [l|]; cbn [fst snd].
    + pose proof (transformTree_explains_from plugins l (IH l eq_refl)
                    (world ++ emitted plugins (mkBlock s p (Some l) m)))
        as Sub.
      destruct (transformTree l plugins _) as [[l' w''] [message|]];
        cbn [fst snd] in *.
      * eapply explains_app_ok; [exact Own|].
        now apply explains_wrapped.
      * eapply explains_app_ok; [exact Own | exact Sub].
    + now rewrite app_nil_r.
Qed.

Lemma transformTree_explains plugins tree world :
  explains plugins (blocksOfTree tree) world
    (snd (fst (transformTree tree plugins world)))
    (snd (transformTree tree plugins world)).
Proof.
  apply transformTree_explains_from.
  apply Forall_forall. intros block _. apply transformBlock_explains.
Qed.

(** *** What a run leaves of the blocks *)

Lemma mutatedBy_run plugins block world :
  fst (fst (runPlugins plugins (makeMutableBlock block) world))
  = mutatedBy plugins block.
Proof. now rewrite runPlugins_world. Qed.

Lemma mutatedBy_frame plugins block :
  children (mutatedBy plugins block) = children block
  /\ metadata (mutatedBy plugins block) = metadata block.
Proof.
  unfold mutatedBy.
  destruct (runPlugins_frame plugins (makeMutableBlock block) [])
    as [-> ->].
  apply makeMutableBlock_frame.
Qed.

Lemma block_ext (a b : Block) :
  selectors a = selectors b -> properties a = properties b ->
  children a = children b -> metadata a = metadata b -> a = b.
Proof.
  destruct a, b. cbn [selectors properties children metadata].
  now intros -> -> -> ->.
Qed.

(** Once the properties are an array they stay one. *)
Lemma runHandler_keeps_array code : forall block world,
  properties block <> None ->
  properties (fst (fst (runHandler code block world))) <> None.
Proof.
  induction code as [| |entry k IH|k IH|k IH|l k IH|name k IH|name k IH
                    |k IH|name v k IH|name k IH];
    intros block world H; cbn [runHandler]; try assumption;
    try (now apply IH).
  apply IH. unfold setProperty.
  now destruct (find (hasKey name) (propertiesOf block)).
Qed.

Lemma runPlugins_keeps_array plugins : forall block world,
  properties block <> None ->
  properties (fst (fst (runPlugins plugins block world))) <> None.
Proof.
  induction plugins as [|plugin plugins IH]; intros block world H;
    cbn [runPlugins]; [assumption|].
  pose proof (runHandler_keeps_array (handler plugin) block world H) as K.
  destruct (runHandler (handler plugin) block world) as [[b w] [m|]];
    cbn [fst snd] in *; [assumption | now apply IH].
Qed.

Lemma makeMutableBlock_array block :
  properties (makeMutableBlock block) = Some (propertiesOf block).
Proof.
  destruct block as [s [l|] c m]; reflexivity.
Qed.

Lemma runHandler_leavesSelectors code :
  leavesSelectors code ->
  forall block world,
    selectors (fst (fst (runHandler code block world))) = selectors block.
Proof.
  induction 1 as [|thrown|entry k _ IH|k _ IH|k _ IH|name k _ IH
                 |name k _ IH|k _ IH|name v k _ IH|name k _ IH];
    intros block world; cbn [runHandler]; try reflexivity;
    try (now rewrite IH).
  rewrite IH. unfold setProperty.
  now destruct (find (hasKey name) (propertiesOf block)).
Qed.

Lemma runHandler_leavesProperties code :
  leavesProperties code ->
  forall block world,
    properties (fst (fst (runHandler code block world)))
    = properties block.
Proof.
  induction 1 as [|thrown|entry k _ IH|k _ IH|k _ IH|l k _ IH|name k _ IH
                 |name k _ IH|k _ IH];
    intros block world; cbn [runHandler]; try reflexivity;
    now rewrite IH.
Qed.

Lemma runPlugins_leavesSelectors plugins :
  Forall (fun plugin => leavesSelectors (handler plugin)) plugins ->
  forall block world,
    selectors (fst (fst (runPlugins plugins block world)))
    = selectors block.
Proof.
  induction 1 as [|plugin plugins Hp _ IH]; intros block world;
    cbn [runPlugins]; [reflexivity|].
  pose proof (runHandler_leavesSelectors _ Hp block world) as K.
  destruct (runHandler (handler plugin) block world) as [[b w] [m|]];
    cbn [fst snd] in *; [assumption | now rewrite IH].
Qed.

Lemma runPlugins_leavesProperties plugins :
  Forall (fun plugin => leavesProperties (handler plugin)) plugins ->
  forall block world,
    properties (fst (fst (runPlugins plugins block world)))
    = properties block.
Proof.
  induction 1 as [|plugin plugins Hp _ IH]; intros block world;
    cbn [runPlugins]; [reflexivity|].
  pose proof (runHandler_leavesProperties _ Hp block world) as K.
  destruct (runHandler (handler plugin) block world) as [[b w] [m|]];
    cbn [fst snd] in *; [assumption | now rewrite IH].
Qed.

Lemma mutateNothing_split plugins :
  mutateNothing plugins ->
  Forall (fun plugin => leavesSelectors (handler plugin)) plugins
  /\ Forall (fun plugin => leavesProperties (handler plugin)) plugins.
Proof.
  induction 1 as [|plugin plugins [Hs Hp] _ [IHs IHp]];
    split; constructor; assumption.
Qed.

(** Handlers that mutate nothing leave the view as it was built. *)
Lemma mutatedBy_mutateNothing plugins block :
  mutateNothing plugins ->
  mutatedBy plugins block = makeMutableBlock block.
Proof.
  intros H. destruct (mutateNothing_split _ H) as [Hs Hp].
  unfold mutatedBy.
  destruct (runPlugins_frame plugins (makeMutableBlock block) [])
    as [Fc Fm].
  apply block_ext; try assumption.
  - now apply runPlugins_leavesSelectors.
  - now apply runPlugins_leavesProperties.
Qed.

Lemma accounts_nil plugins : accounts plugins [] [] None.
Proof. split; [reflexivity | constructor]. Qed.

Lemma accounts_app_ok plugins o1 o1' o2 o2' failure :
  accounts plugins o1 o1' None ->
  accounts plugins o2 o2' failure ->
  accounts plugins (o1 ++ o2) (o1' ++ o2') failure.
Proof.
  intros [E1 F1]. destruct failure as [failure|]; cbn [accounts].
  - intros (before & x & after & -> & Fb & Hx & E2).
    exists (o1 ++ before), x, after.
    split; [now rewrite app_assoc|].
    split; [now apply Forall_app|].
    split; [assumption|].
    now rewrite !map_app, E1, E2, !map_app, !app_assoc.
  - intros [E2 F2]. split.
    + now rewrite !map_app, E1, E2.
    + now apply Forall_app.
Qed.

Lemma accounts_app_failed plugins o1 o1' o2 failure failure' :
  accounts plugins o1 o1' (Some failure) ->
  accounts plugins (o1 ++ o2) (o1' ++ o2) (Some failure').
Proof.
  intros (before & x & after & -> & Fb & Hx & E).
  exists before, x, (after ++ o2).
  split; [now rewrite <- app_assoc|].
  split; [assumption|]. split; [assumption|].
  now rewrite !map_app, E, !map_app, !app_assoc.
Qed.

Lemma transformTree_accounts_from plugins tree :
  Forall (fun block => forall world,
              accounts plugins (blocksOf block)
                (blocksOf (fst (fst (transformBlock plugins block world))))
                (snd (transformBlock plugins block world))) tree ->
  forall world,
    accounts plugins (blocksOfTree tree)
      (blocksOfTree (fst (fst (transformTree tree plugins world))))
      (snd (transformTree tree plugins world)).
Proof.
  unfold blocksOfTree.
  induction 1 as [|block rest Hb _ IH]; intros world.
  - apply accounts_nil.
  - rewrite transformTree_cons. cbn [flat_map].
    specialize (Hb world).
    destruct (transformBlock plugins block world) as [[b' w'] [m|]];
      cbn [fst snd flat_map] in *.
    + eapply accounts_app_failed; eassumption.
    + specialize (IH w').
      destruct (transformTree rest plugins w') as [[r' w''] failure];
        cbn [fst snd flat_map] in *.
      eapply accounts_app_ok; eassumption.
Qed.

Lemma transformBlock_accounts plugins block :
  forall world,
    accounts plugins (blocksOf block)
      (blocksOf (fst (fst (transformBlock plugins block world))))
      (snd (transformBlock plugins block world)).
Proof.
  induction block as [s p c m IH] using Block_induction. intros world.
  rewrite transformBlock_unfold, runPlugins_emitted.
  fold (mutatedBy plugins (mkBlock s p c m)).
  destruct (mutatedBy_frame plugins (mkBlock s p c m)) as [Fc Fm].
  set (own := mutatedBy plugins (mkBlock s p c m)) in *.
  cbn [children metadata] in *.
  destruct (thrown plugins (mkBlock s p c m)) as [original|] eqn:E;
    cbn [fst snd].
  - rewrite (blocksOf_unfold own), (blocksOf_unfold (mkBlock s p c m)), Fc.
    cbn [children].
    exists [], (mkBlock s p c m), (match c with
                                   | Some l => flat_map blocksOf l
                                   | None => []
                                   end).
    split; [reflexivity|]. split; [constructor|].
    split; [now rewrite E|]. reflexivity.
  - destruct c as [l|].
    + pose proof (transformTree_accounts_from plugins l (IH l eq_refl)
                    (world ++ emitted plugins (mkBlock s p (Some l) m)))
        as Sub.
      destruct (transformTree l plugins _) as [[l' w''] failure];
        cbn [fst snd] in *.
      assert (R : blocksOf (withChildren own (Some l'))
                  = [withChildren own (Some l')] ++ blocksOfTree l').
      { now rewrite blocksOf_unfold. }
      assert (Q : accounts plugins
                    ([mkBlock s p (Some l) m] ++ blocksOfTree l)
                    ([withChildren own (Some l')] ++ blocksOfTree l')
                    failure).
      { eapply accounts_app_ok; [|exact Sub].
        split; [reflexivity | now constructor]. }
      rewrite (blocksOf_unfold (mkBlock s p (Some l) m)). cbn [children].
      destruct failure as [failure|]; cbn [fst snd];
        rewrite R; exact Q.
    + cbn [fst snd]. rewrite (blocksOf_unfold own), Fc.
      split; [reflexivity | now constructor].
Qed.

Lemma transformTree_accounts plugins tree world :
  accounts plugins (blocksOfTree tree)
    (blocksOfTree (fst (fst (transformTree tree plugins world))))
    (snd (transformTree tree plugins world)).
Proof.
  apply transformTree_accounts_from.
  apply Forall_forall. intros block _. apply transformBlock_accounts.
Qed.

(** With handlers that mutate nothing, a run without a failure gives
    every block its properties array and nothing more. *)
Lemma transformTree_mutateNothing_from plugins tree :
  Forall (fun block => forall world block' world',
              transformBlock plugins block world
              = ((block', world'), None) ->
              block' = withDefaultProperties block) tree ->
  forall world tree' world',
    transformTree tree plugins world = ((tree', world'), None) ->
    tree' = map withDefaultProperties tree.
Proof.
  induction 1 as [|block rest Hb _ IH]; intros world tree' world'.
  - now intros [= <- <-].
  - rewrite transformTree_cons.
    destruct (transformBlock plugins block world) as [[b' w'] [m|]] eqn:B;
      [discriminate|].
    destruct (transformTree rest plugins w') as [[r' w''] failure] eqn:T.
    intros [= <- <- ->]. cbn [map].
    now rewrite (Hb _ _ _ B), (IH _ _ _ T).
Qed.

Lemma transformBlock_mutateNothing plugins block :
  mutateNothing plugins ->
  forall world block' world',
    transformBlock plugins block world = ((block', world'), None) ->
    block' = withDefaultProperties block.
Proof.
  intros H.
  induction block as [s p c m IH] using Block_induction.
  intros world block' world'.
  rewrite transformBlock_unfold, runPlugins_emitted.
  fold (mutatedBy plugins (mkBlock s p c m)).
  rewrite (mutatedBy_mutateNothing _ (mkBlock s p c m) H).
  destruct (thrown plugins (mkBlock s p c m)); [discriminate|].
  cbn [children]. destruct c as [l|].
  - pose proof (transformTree_mutateNothing_from plugins l (IH l eq_refl)
                  (world ++ emitted plugins (mkBlock s p (Some l) m)))
      as Sub.
    destruct (transformTree l plugins _) as [[l' w''] [failure|]];
      [discriminate|].
    intros [= <- <-]. rewrite (Sub _ _ eq_refl). now destruct p.
  - intros [= <- <-]. now destruct p.
Qed.

Lemma transformTree_mutateNothing plugins tree world tree' world' :
  mutateNothing plugins ->
  transformTree tree plugins world = ((tree', world'), None) ->
  tree' = map withDefaultProperties tree.
Proof.
  intros H. apply transformTree_mutateNothing_from.
  apply Forall_forall. intros block _.
  now apply transformBlock_mutateNothing.
Qed.

(** A run without a failure, whatever the handlers: every block is what
    the handlers made of it. *)
Lemma transformTree_transformed_from plugins tree :
  Forall (fun block => forall world block' world',
              transformBlock plugins block world
              = ((block', world'), None) ->
              block' = transformed plugins block) tree ->
  forall world tree' world',
    transformTree tree plugins world = ((tree', world'), None) ->
    tree' = map (transformed plugins) tree.
Proof.
  induction 1 as [|block rest Hb _ IH]; intros world tree' world'.
  - now intros [= <- <-].
  - rewrite transformTree_cons.
    destruct (transformBlock plugins block world) as [[b' w'] [m|]] eqn:B;
      [discriminate|].
    destruct (transformTree rest plugins w') as [[r' w''] failure] eqn:T.
    intros [= <- <- ->]. cbn [map].
    now rewrite (Hb _ _ _ B), (IH _ _ _ T).
Qed.

Lemma transformBlock_transformed plugins block :
  forall world block' world',
    transformBlock plugins block world = ((block', world'), None) ->
    block' = transformed plugins block.
Proof.
  induction block as [s p c m IH] using Block_induction.
  intros world block' world'.
  rewrite transformBlock_unfold, runPlugins_emitted.
  fold (mutatedBy plugins (mkBlock s p c m)).
  destruct (mutatedBy_frame plugins (mkBlock s p c m)) as [Fc Fm].
  cbn [children metadata] in Fc, Fm.
  destruct (thrown plugins (mkBlock s p c m)); [discriminate|].
  cbn [children]. destruct c as [l|].
  - pose proof (transformTree_transformed_from plugins l (IH l eq_refl)
                  (world ++ emitted plugins (mkBlock s p (Some l) m)))
      as Sub.
    destruct (transformTree l plugins _) as [[l' w''] [failure|]];
      [discriminate|].
    intros [= <- <-]. rewrite (Sub _ _ eq_refl).
    unfold withChildren. rewrite Fm. reflexivity.
  - intros [= <- <-]. apply block_ext; try assumption; reflexivity.
Qed.

Lemma transformTree_transformed plugins tree world tree' world' :
  transformTree tree plugins world = ((tree', world'), None) ->
  tree' = map (transformed plugins) tree.
Proof.
  apply transformTree_transformed_from.
  apply Forall_forall. intros block _.
  apply transformBlock_transformed.
Qed.

End TransformerProperties.
Section TransformerClaims.

Import Transformer.

Lemma includes_trans (s m p : string) :
  Js.includes s m = true -> Js.includes m p = true ->
  Js.includes s p = true.
Proof.
  intros Hs Hm. destruct (includes_split _ _ Hs) as (a & b & ->).
  now apply includes_wrapped.
Qed.

Lemma transformationError_includes original block :
  Js.includes (transformationError original block) original = true
  /\ (forall m, metadata block = Some m ->
        Js.includes (transformationError original block)
          (" @ line " +:+ Js.ofNat (line (start m))) = true).
Proof.
  unfold transformationError. split.
  - apply includes_middle.
  - intros m ->. rewrite <- append_assoc.
    rewrite <- (append_empty_r (" @ line " +:+ Js.ofNat (line (start m))))
      at 1.
    apply includes_middle.
Qed.

(** Whatever [transformTree] throws left its [catch] clause: the [Error]
    built there, or the [TypeError] of reading the message of [null] or
    [undefined]. *)
Lemma transformTree_failure_shape plugins tree : forall world failure,
  snd (transformTree tree plugins world) = Some failure ->
  (exists message,
      failure = TransformationError message
      /\ Js.startsWith message "Transformation error: " = true)
  \/ failure = CatchTypeError (cannotReadMessage "null")
  \/ failure = CatchTypeError (cannotReadMessage "undefined").
Proof.
  induction tree as [|block rest IH]; intros world failure.
  - discriminate.
  - rewrite transformTree_cons, transformBlock_unfold.
    destruct (runPlugins plugins (makeMutableBlock block) world)
      as [[mutated w] [original|]].
    + cbn [snd]. intros [= <-].
      destruct original; cbn [caught readMessage]; auto;
        left; eexists; (split; [reflexivity | apply prefix_append]).
    + destruct (children block) as [l|].
      * destruct (transformTree l plugins w) as [[l' w'] [m|]].
        -- cbn [snd]. intros [= <-]. left. eexists.
           split; [reflexivity | apply prefix_append].
        -- specialize (IH w' failure).
           destruct (transformTree rest plugins w') as [[r' w''] f].
           exact IH.
      * specialize (IH w failure).
        destruct (transformTree rest plugins w) as [[r' w''] f].
        exact IH.
Qed.

(** C6.  The claim holds for a handler that throws an [Error], and fails
    for other thrown values, which the [catch] clause of [transformTree]
    does not provide for.  The handler [() => { throw null }] on a root
    block that starts at line 1: reading [error.message] in the [catch]
    clause raises a [TypeError], and that is what [transformTree] throws;
    its message has neither the prefix "Transformation error: " nor the
    line of the block.  When the same happens on a nested block, the
    [TypeError] is wrapped by the enclosing block and the message names
    the line of that block (1), not the line of the block on which the
    handler threw (2).  The handler [() => { throw 'boom' }]: the thrown
    text is lost, the message is built from [undefined]. *)
Theorem C6_thrown_value_without_message :
  transformTree [mkBlock ["a"] None None (startingAt 1)] [throwingNull] []
  = (([mkBlock ["a"] (Some []) None (startingAt 1)], []),
      Some (CatchTypeError
              "Cannot read properties of null (reading 'message')"))
  /\ Js.startsWith "Cannot read properties of null (reading 'message')"
       "Transformation error: " = false
  /\ Js.includes "Cannot read properties of null (reading 'message')"
       " @ line 1" = false
  /\ snd (transformTree nestedTree [failingWithNull] [])
     = Some (TransformationError
               ("Transformation error: "
                +:+ "Cannot read properties of null (reading 'message')"
                +:+ " @ line 1"))
  /\ thrown [failingWithNull]
       (mkBlock ["b"] (Some [{| key := "x"; value := "1" |}]) None
          (startingAt 2))
     = Some ThrownNull
  /\ transformTree [mkBlock ["a"] None None (startingAt 1)] [throwingText] []
     = (([mkBlock ["a"] (Some []) None (startingAt 1)], []),
         Some (TransformationError
                 "Transformation error: undefined @ line 1")).
Proof. vm_compute. repeat split. Qed.

Lemma transformBlock_no_plugins block : forall world,
  transformBlock [] block world
  = ((withDefaultProperties block, world), None).
Proof.
  induction block as [s p c m IH] using Block_induction. intros world.
  rewrite transformBlock_unfold. cbn [runPlugins children].
  destruct c as [l|].
  - assert (Sub : forall w, transformTree l [] w
                            = ((map withDefaultProperties l, w), None)).
    { specialize (IH l eq_refl).
      induction IH as [|b l Hb _ IHl]; intros w; [reflexivity|].
      rewrite transformTree_cons, Hb, IHl. reflexivity. }
    rewrite Sub. now destruct p.
  - now destruct p.
Qed.

(** C9.  Whatever the handlers are, and whether or not one of them
    throws, a run of [transformTree] leaves every block it visited with a
    properties array: the blocks of the result are, in pre-order, what the
    handlers made of the view of each block, and that view was built with
    the properties set to an empty array where the field was absent.  The
    blocks after the one on which a handler threw were not visited and are
    as they came in.  The shape of the children and the metadata are never
    changed; the selectors are unchanged when no handler calls
    [setSelectors]; the properties are the array the block had, or the
    empty one, when no handler calls [setProperty] or [removeProperty].
    A run without a failure returns the tree in which every block is what
    the handlers made of it; with handlers that mutate nothing, the empty
    handler list among them, that is the tree with the one change that
    every block has its properties array, which differs from the input
    as soon as one block lacked the field. *)
Theorem C9_transform_sets_properties :
  (forall tree plugins world tree' world' failure,
      transformTree tree plugins world = ((tree', world'), failure) ->
      accounts plugins (blocksOfTree tree) (blocksOfTree tree') failure
      /\ map skeletonOf tree' = map skeletonOf tree
      /\ (failure = None -> tree' = map (transformed plugins) tree)
      /\ (mutateNothing plugins -> failure = None ->
          tree' = map withDefaultProperties tree))
  /\ (forall plugins block,
        properties (mutatedBy plugins block) <> None
        /\ children (mutatedBy plugins block) = children block
        /\ metadata (mutatedBy plugins block) = metadata block
        /\ (Forall (fun plugin => leavesSelectors (handler plugin))
              plugins ->
            selectors (mutatedBy plugins block) = selectors block)
        /\ (Forall (fun plugin => leavesProperties (handler plugin))
              plugins ->
            properties (mutatedBy plugins block)
            = Some (propertiesOf block)))
  /\ (forall tree world,
        transformTree tree [] world
        = ((map withDefaultProperties tree, world), None))
  /\ (forall block,
        properties block = None ->
        properties (makeMutableBlock block) = Some [])
  /\ (forall block l,
        properties block = Some l -> makeMutableBlock block = block)
  /\ (forall block,
        selectors (makeMutableBlock block) = selectors block
        /\ children (makeMutableBlock block) = children block
        /\ metadata (makeMutableBlock block) = metadata block)
  /\ (forall block,
        selectors (withDefaultProperties block) = selectors block
        /\ metadata (withDefaultProperties block) = metadata block
        /\ properties (withDefaultProperties block)
           = Some (propertiesOf block)
        /\ children (withDefaultProperties block)
           = option_map (map withDefaultProperties) (children block))
  /\ (forall block rest plugins world tree' world',
        properties block = None ->
        transformTree (block :: rest) plugins world
        = ((tree', world'), None) ->
        tree' <> block :: rest).
Proof.
  assert (T : forall tree world,
             transformTree tree [] world
             = ((map withDefaultProperties tree, world), None)).
  { induction tree as [|block rest IH]; intros world; [reflexivity|].
    rewrite transformTree_cons, transformBlock_no_plugins, IH.
    reflexivity. }
  split; [|split; [|split; [exact T|]]].
  - intros tree plugins world tree' world' failure H.
    pose proof (transformTree_accounts plugins tree world) as A.
    pose proof (forEachBlock_skeleton plugins tree) as K.
    rewrite H in A. cbn [fst snd] in A.
    split; [exact A|]. split; [|split].
    + specialize (K (proj2 (Forall_forall _ _)
                              (fun block _ =>
                                 transformBlock_skeleton plugins block))
                    world).
      unfold transformTree in H, K.
      now rewrite H in K.
    + intros ->. eapply transformTree_transformed; eassumption.
    + intros M ->. eapply transformTree_mutateNothing; eassumption.
  - intros plugins block.
    destruct (mutatedBy_frame plugins block) as [Fc Fm].
    split; [|split; [exact Fc|split; [exact Fm|split]]].
    + apply runPlugins_keeps_array. now rewrite makeMutableBlock_array.
    + intros L. unfold mutatedBy.
      rewrite (runPlugins_leavesSelectors _ L).
      unfold makeMutableBlock. now destruct (properties block).
    + intros L. unfold mutatedBy.
      rewrite (runPlugins_leavesProperties _ L).
      apply makeMutableBlock_array.
  - split; [|split; [|split; [|split]]].
    + intros block H. unfold makeMutableBlock. now rewrite H.
    + intros block l H. unfold makeMutableBlock. now rewrite H.
    + intros block. unfold makeMutableBlock.
      now destruct (properties block).
    + intros [s p c m]. cbn. now destruct c.
    + intros block rest plugins world tree' world' H R E. subst tree'.
      pose proof (transformTree_accounts plugins (block :: rest) world)
        as A.
      rewrite R in A. cbn [fst snd accounts] in A.
      destruct A as [A _].
      unfold blocksOfTree in A. cbn [flat_map] in A.
      rewrite (blocksOf_unfold block) in A. cbn [app map] in A.
      unfold fields in A. injection A as _ A _ _.
      apply (runPlugins_keeps_array plugins (makeMutableBlock block) []).
      * now rewrite makeMutableBlock_array.
      * fold (mutatedBy plugins block). now rewrite <- A.
Qed.

Lemma C9_transform_sets_properties_witness :
  accounts [loggingPlugin; markingPlugin]
    (blocksOfTree nestedTree)
    (blocksOfTree
       [mkBlock ["a"] (Some [{| key := "seen"; value := "yes" |}])
          (Some [mkBlock ["b"]
                   (Some [{| key := "x"; value := "1" |};
                          {| key := "seen"; value := "yes" |}])
                   None (startingAt 2);
                 mkBlock ["d"] (Some [{| key := "seen"; value := "yes" |}])
                   None (startingAt 3)])
          (startingAt 1);
        mkBlock ["c"] (Some [{| key := "seen"; value := "yes" |}]) None
          (startingAt 4)])
    None
  /\ fst (fst (transformTree nestedTree [loggingPlugin] []))
     = map withDefaultProperties nestedTree.
Proof.
  split.
  - refine (proj1 (proj1 C9_transform_sets_properties
                     nestedTree [loggingPlugin; markingPlugin] [] _
                     ["a"; "b"; "d"; "c"] None _)).
    vm_compute. reflexivity.
  - refine (proj2 (proj2 (proj2 (proj1 C9_transform_sets_properties
                                   nestedTree [loggingPlugin] []
                                   _ ["a"; "b"; "d"; "c"] None _)))
              _ eq_refl).
    + vm_compute. reflexivity.
    + constructor; [|constructor].
      split; repeat constructor.
Defined.

End TransformerClaims.

(** ** Parser *)

Section ParserProperties.

Import Parser Scanner.

Lemma Forall_update (P : BlockObject -> Prop) f l r :
  (forall object, P object -> P (f object)) ->
  Forall P l -> Forall P (update l r f).
Proof.
  intros Hf H. revert r.
  induction H as [|object l Ho Hl IH]; intros r; [now destruct r|].
  destruct r; cbn [update]; constructor; auto.
Qed.

Lemma length_update f l r : List.length (update l r f) = List.length l.
Proof.
  revert r. induction l as [|object l IH]; intros r; [now destruct r|].
  destruct r; cbn [update List.length]; [reflexivity | now rewrite IH].
Qed.

(** What [handleOpeningBrace] returns, case by case. *)
Lemma handleOpeningBrace_cases state :
  let selector := Js.trim (buffer state) in
  let assembled := selectorStack state ++ [selector] in
  handleOpeningBrace state =
    if (String.length selector =? 0)%nat then
      Err (newParsingError "Unexpected opening brace" state)
    else if (1 <? List.length assembled)%nat
            && existsb (fun s => Js.startsWith s "@") assembled then
      Err (newParsingError "At-rule mixed with other selectors" state)
    else
      let object :=
        {| selectors := assembled; properties := None; children := None;
           metadata := {| start := here state; end_ := None |} |} in
      let ref := List.length (blocks state) in
      Ok {| buffer := EmptyString;
            stack := stack state ++ [ref];
            selectorStack := [];
            tree := match top (stack state) with
                    | Some _ => tree state
                    | None => tree state ++ [ref]
                    end;
            blocks := match top (stack state) with
                      | Some parent =>
                          update (blocks state ++ [object]) parent
                            (appendChild ref)
                      | None => blocks state ++ [object]
                      end;
            isStringLiteral := isStringLiteral state;
            isAtRule := isAtRule state;
            isNestedSelector := false;
            isCustomProperty := isCustomProperty state;
            currentParenthesisLevel := currentParenthesisLevel state;
            currentPropertyName := currentPropertyName state;
            currentLine := currentLine state;
            currentColumn := currentColumn state |}.
Proof.
  cbv zeta. unfold handleOpeningBrace.
  destruct (String.length (Js.trim (buffer state)) =? 0)%nat;
    [reflexivity|].
  cbn [selectors].
  destruct ((1 <? List.length (selectorStack state
                                 ++ [Js.trim (buffer state)]))%nat
            && existsb (fun s => Js.startsWith s "@")
                 (selectorStack state ++ [Js.trim (buffer state)]));
    [reflexivity|].
  cbn [setBlocks stack blocks]. now destruct (top (stack state)).
Qed.

Lemma assembled_wellFormed (l : list string) :
  (1 <? List.length l)%nat && existsb (fun s => Js.startsWith s "@") l
  = false ->
  l <> [] -> wellFormedSelectors l.
Proof.
  intros H Hne. split; [exact Hne|].
  intros Hlen s Hs. apply Nat.ltb_lt in Hlen. rewrite Hlen in H.
  cbn [andb] in H.
  destruct (Js.startsWith s "@") eqn:E; [|reflexivity].
  assert (existsb (fun s => Js.startsWith s "@") l = true)
    by (apply existsb_exists; eauto).
  congruence.
Qed.

Ltac keep_selectors :=
  apply Forall_update; [intros object Hobject; exact Hobject|].

Lemma handleOpeningBrace_wellFormed state state' :
  storeWellFormed state -> handleOpeningBrace state = Ok state' ->
  storeWellFormed state'.
Proof.
  unfold storeWellFormed. intros H.
  rewrite handleOpeningBrace_cases. cbv zeta.
  destruct (String.length (Js.trim (buffer state)) =? 0)%nat;
    [discriminate|].
  destruct (_ && _) eqn:E; [discriminate|].
  intros [= <-]. cbn [blocks].
  assert (New : Forall
                  (fun object => wellFormedSelectors (selectors object))
                  (blocks state
                     ++ [{| selectors :=
                             selectorStack state ++ [Js.trim (buffer state)];
                            properties := None; children := None;
                            metadata :=
                              {| start := here state; end_ := None |} |}])).
  { apply Forall_app. split; [exact H|]. constructor; [|constructor].
    cbn [selectors]. apply assembled_wellFormed; [exact E|].
    now destruct (selectorStack state). }
  destruct (top (stack state)); [keep_selectors|]; exact New.
Qed.

Lemma handlers_wellFormed c handle state state' :
  handlerOf c = Some handle ->
  storeWellFormed state -> handle state = Ok state' ->
  storeWellFormed state'.
Proof.
  unfold handlerOf.
  repeat match goal with
         | |- context [if ?b then _ else _] => destruct b
         end; intros [= <-]; try discriminate;
    try apply handleOpeningBrace_wellFormed;
    unfold storeWellFormed; intros H;
    unfold handleClosingBrace, handleSemicolon, handleColon, handleComma,
      handleAmpersand, handleAtSign, handleDoubleQuote,
      handleOpeningParenthesis, handleClosingParenthesis;
    repeat match goal with
           | |- context [match ?x with _ => _ end] => destruct x
           end;
    intros [= <-]; cbn; try exact H; keep_selectors; exact H.
Qed.

Lemma scanCharacter_wellFormed state c state' :
  storeWellFormed state -> scanCharacter state c = Ok state' ->
  storeWellFormed state'.
Proof.
  intros H. unfold scanCharacter.
  destruct (handlerOf c) as [handle|] eqn:E.
  - apply (handlers_wellFormed c handle _ _ E).
    now destruct (c =? ascii_of_nat 10)%char.
  - intros [= <-]. now destruct (c =? ascii_of_nat 10)%char.
Qed.

Lemma scan_wellFormed source : forall state state',
  storeWellFormed state -> scan state source = Ok state' ->
  storeWellFormed state'.
Proof.
  induction source as [|c source IH]; intros state state' H;
    cbn [scan].
  - now intros [= <-].
  - destruct (scanCharacter state c) as [st|e] eqn:E; cbn [bind];
      [|discriminate].
    apply IH. now apply (scanCharacter_wellFormed _ _ _ H E).
Qed.

End ParserProperties.

(** ** Parser: from the store to the tree *)

Section ParserResolution.

Import Parser Scanner.

Lemma resolve_unfold fuel store r :
  resolve (S fuel) store r =
    match nth_error store r with
    | None => None
    | Some object =>
        match Parser.children object with
        | None =>
            Some (mkBlock (Parser.selectors object)
                    (Parser.properties object) None
                    (Some (Parser.metadata object)))
        | Some l =>
            match resolveAll fuel store l with
            | Some bs =>
                Some (mkBlock (Parser.selectors object)
                        (Parser.properties object) (Some bs)
                        (Some (Parser.metadata object)))
            | None => None
            end
        end
    end.
Proof.
  cbn [resolve]. destruct (nth_error store r) as [object|]; [|reflexivity].
  destruct (Parser.children object) as [l|]; [|reflexivity].
  match goal with
  | |- match ?a with _ => _ end = match ?b with _ => _ end =>
      assert (E : a = b); [|now rewrite E]
  end.
  induction l as [|r' l IH]; [reflexivity|].
  cbn [resolveAll]. now rewrite IH.
Qed.

Lemma resolveAll_Forall2 fuel store l bs :
  resolveAll fuel store l = Some bs ->
  Forall2 (fun r b => resolve fuel store r = Some b) l bs.
Proof.
  revert bs. induction l as [|r l IH]; intros bs; cbn [resolveAll].
  - intros [= <-]. constructor.
  - destruct (resolve fuel store r) as [b|] eqn:E; [|discriminate].
    destruct (resolveAll fuel store l) as [bs'|]; [|discriminate].
    intros [= <-]. constructor; auto.
Qed.

(** A resolved block and its descendants carry the selectors of
    objects of the store. *)
Lemma resolve_wellFormed store :
  Forall (fun object => wellFormedSelectors (Parser.selectors object))
    store ->
  forall fuel r b,
    resolve fuel store r = Some b ->
    Forall (fun b => wellFormedSelectors (Ast.selectors b)) (blocksOf b).
Proof.
  intros H. induction fuel as [|fuel IH]; intros r b; [discriminate|].
  rewrite resolve_unfold.
  destruct (nth_error store r) as [object|] eqn:E; [|discriminate].
  assert (Ho : wellFormedSelectors (Parser.selectors object)).
  { rewrite Forall_forall in H. apply H. eapply nth_error_In, E. }
  destruct (Parser.children object) as [l|].
  - destruct (resolveAll fuel store l) as [bs|] eqn:El; [|discriminate].
    intros [= <-]. rewrite blocksOf_unfold. cbn [Ast.children Ast.selectors].
    constructor; [exact Ho|].
    apply resolveAll_Forall2 in El.
    induction El as [|r' b' l bs Hr _ IHl]; cbn [flat_map];
      [constructor|].
    apply Forall_app. split; [now apply (IH r') | exact IHl].
  - intros [= <-]. rewrite blocksOf_unfold. cbn [Ast.children Ast.selectors].
    constructor; [exact Ho | constructor].
Qed.

Lemma resolveAll_wellFormed store fuel l tree :
  Forall (fun object => wellFormedSelectors (Parser.selectors object))
    store ->
  resolveAll fuel store l = Some tree ->
  Forall (fun b => wellFormedSelectors (Ast.selectors b)) (blocksOfTree tree).
Proof.
  intros H El. apply resolveAll_Forall2 in El. unfold blocksOfTree.
  induction El as [|r b l bs Hr _ IHl]; cbn [flat_map]; [constructor|].
  apply Forall_app. split; [|exact IHl].
  now apply (resolve_wellFormed store H fuel r).
Qed.

(** With every child created after its parent, the fuel suffices. *)
Lemma resolve_total store :
  (forall i object,
      nth_error store i = Some object ->
      forall l, Parser.children object = Some l ->
                Forall (fun r => i < r /\ r < List.length store) l) ->
  forall fuel r,
    r < List.length store -> List.length store - r <= fuel ->
    exists b, resolve fuel store r = Some b.
Proof.
  intros H. induction fuel as [|fuel IH]; intros r Hr Hf; [lia|].
  rewrite resolve_unfold.
  destruct (nth_error store r) as [object|] eqn:E;
    [|apply nth_error_None in E; lia].
  destruct (Parser.children object) as [l|] eqn:El; [|eauto].
  assert (All : exists bs, resolveAll fuel store l = Some bs).
  { specialize (H r object E l El). clear El.
    induction H as [|r' l [Hlt Hlen] _ IHl]; cbn [resolveAll]; [eauto|].
    assert (Hfuel : List.length store - r' <= fuel) by lia.
    destruct (IH r' Hlen Hfuel) as [b ->].
    destruct IHl as [bs ->]. eauto. }
  destruct All as [bs ->]. eauto.
Qed.

Lemma resolveAll_total store l :
  (forall i object,
      nth_error store i = Some object ->
      forall l, Parser.children object = Some l ->
                Forall (fun r => i < r /\ r < List.length store) l) ->
  Forall (fun r => r < List.length store) l ->
  exists tree, resolveAll (List.length store) store l = Some tree.
Proof.
  intros H Hl. induction Hl as [|r l Hr _ IHl]; cbn [resolveAll]; [eauto|].
  assert (Hfuel : List.length store - r <= List.length store) by lia.
  destruct (resolve_total store H (List.length store) r Hr Hfuel)
    as [b ->].
  destruct IHl as [bs ->]. eauto.
Qed.

End ParserResolution.

(** ** Parser: references stay within the store *)

Section ParserLinks.

Import Parser Scanner.

Lemma nth_error_update f l r i :
  nth_error (update l r f) i
  = if (i =? r)%nat then option_map f (nth_error l i) else nth_error l i.
Proof.
  revert r i. induction l as [|object l IH]; intros r i.
  - destruct r, i; cbn [update nth_error option_map];
      now destruct (_ =? _)%nat.
  - destruct r, i; cbn [update nth_error option_map Nat.eqb];
      try reflexivity.
    apply IH.
Qed.

Lemma top_In l r : top l = Some r -> In r l.
Proof.
  unfold top. intros H. apply in_rev. eapply nth_error_In, H.
Qed.

Lemma Forall_removelast (P : Ref -> Prop) l :
  Forall P l -> Forall P (removelast l).
Proof.
  induction 1 as [|r l Hr Hl IH]; cbn [removelast]; [constructor|].
  destruct l; [constructor | now constructor].
Qed.

Lemma Forall_lt_S (l : list Ref) n :
  Forall (fun r => r < n) l -> Forall (fun r => r < S n) l.
Proof. apply Forall_impl. intros; lia. Qed.

(** Updating an object without touching its children keeps the links. *)
Lemma linked_update state f r :
  (forall object, children (f object) = children object) ->
  storeLinked state ->
  storeLinked (setBlocks state (update (blocks state) r f)).
Proof.
  intros Hf (Hs & Ht & Hc). unfold storeLinked.
  cbn [setBlocks blocks stack tree]. rewrite length_update.
  repeat split; try assumption.
  intros i object. rewrite nth_error_update.
  destruct (i =? r)%nat.
  - destruct (nth_error (blocks state) i) as [o|] eqn:E; [|discriminate].
    cbn [option_map]. intros [= <-] l. rewrite Hf. now apply Hc.
  - apply Hc.
Qed.

Lemma handleOpeningBrace_linked state state' :
  storeLinked state -> handleOpeningBrace state = Ok state' ->
  storeLinked state'.
Proof.
  intros (Hs & Ht & Hc). rewrite handleOpeningBrace_cases. cbv zeta.
  destruct (String.length (Js.trim (buffer state)) =? 0)%nat;
    [discriminate|].
  destruct (_ && _); [discriminate|].
  intros [= <-]. unfold storeLinked. cbn [blocks stack tree].
  set (object := {| selectors := _; properties := None; children := None;
                    metadata := _ |}).
  assert (Len : List.length
                  (match top (stack state) with
                   | Some parent =>
                       update (blocks state ++ [object]) parent
                         (appendChild (List.length (blocks state)))
                   | None => blocks state ++ [object]
                   end) = S (List.length (blocks state))).
  { destruct (top (stack state)); rewrite ?length_update, length_app;
      cbn [List.length]; lia. }
  rewrite Len. repeat split.
  - apply Forall_app. split; [now apply Forall_lt_S|].
    constructor; [lia | constructor].
  - destruct (top (stack state)); [now apply Forall_lt_S|].
    apply Forall_app. split; [now apply Forall_lt_S|].
    constructor; [lia | constructor].
  - assert (Old : forall i o,
               nth_error (blocks state ++ [object]) i = Some o ->
               forall l, children o = Some l ->
                 Forall (fun r => i < r /\ r < S (List.length (blocks state)))
                   l).
    { intros i o Hi l Hl.
      destruct (Nat.lt_ge_cases i (List.length (blocks state))) as [Lt|Ge].
      - rewrite nth_error_app1 in Hi by exact Lt.
        eapply Forall_impl; [|exact (Hc i o Hi l Hl)].
        cbn beta. intros; lia.
      - rewrite nth_error_app2 in Hi by exact Ge.
        destruct (i - List.length (blocks state)) as [|k];
          cbn [nth_error] in Hi.
        + injection Hi as <-. discriminate.
        + now destruct k. }
    destruct (top (stack state)) as [parent|] eqn:Etop; [|exact Old].
    intros i o. rewrite nth_error_update.
    destruct (i =? parent)%nat eqn:Ei; [|apply Old].
    apply Nat.eqb_eq in Ei as ->.
    destruct (nth_error (blocks state ++ [object]) parent) as [o'|] eqn:E;
      [|discriminate].
    cbn [option_map]. intros [= <-] l. unfold appendChild.
    cbn [children].
    assert (Hp : parent < List.length (blocks state)).
    { rewrite Forall_forall in Hs. now apply Hs, top_In. }
    destruct (children o') as [l'|] eqn:El; intros [= <-].
    + apply Forall_app. split; [now apply (Old parent o' E)|].
      constructor; [lia | constructor].
    + constructor; [lia | constructor].
Qed.

Lemma handlers_linked c handle state state' :
  handlerOf c = Some handle ->
  storeLinked state -> handle state = Ok state' ->
  storeLinked state'.
Proof.
  unfold handlerOf.
  repeat match goal with
         | |- context [if ?b then _ else _] => destruct b
         end; intros [= <-]; try discriminate;
    try apply handleOpeningBrace_linked;
    intros H;
    unfold handleClosingBrace, handleSemicolon, handleColon, handleComma,
      handleAmpersand, handleAtSign, handleDoubleQuote,
      handleOpeningParenthesis, handleClosingParenthesis;
    repeat match goal with
           | |- context [match ?x with _ => _ end] => destruct x
           end;
    intros [= <-]; try exact H.
  - (* closing brace *)
    pose proof (linked_update (setStack state (pop (stack state)))
                  (stampEnd (here (setStack state (pop (stack state)))))
                  r (fun _ => eq_refl)) as L.
    apply L. destruct H as (Hs & Ht & Hc).
    repeat split; try assumption.
    now apply Forall_removelast.
  - (* semicolon *)
    pose proof (linked_update state
                  (appendProperty
                     {| key := currentPropertyName state;
                        value := Js.trim (buffer state) |})
                  r (fun _ => eq_refl) H) as L.
    exact L.
Qed.

End ParserLinks.

Section ParserClaims.

Import Parser Scanner.

Lemma scan_linked source : forall state state',
  storeLinked state -> scan state source = Ok state' ->
  storeLinked state'.
Proof.
  induction source as [|c source IH]; intros state state' H; cbn [scan].
  - now intros [= <-].
  - destruct (scanCharacter state c) as [st|e] eqn:E; cbn [bind];
      [|discriminate].
    apply IH. revert E. unfold scanCharacter.
    destruct (handlerOf c) as [handle|] eqn:Eh.
    + apply (handlers_linked c handle _ _ Eh).
      now destruct (c =? ascii_of_nat 10)%char.
    + intros [= <-]. now destruct (c =? ascii_of_nat 10)%char.
Qed.

Lemma initialState_wellFormed : storeWellFormed initialState.
Proof. constructor. Qed.

Lemma initialState_linked : storeLinked initialState.
Proof.
  repeat split; try constructor.
  intros [|i] object; discriminate.
Qed.

(** A scan that ends with every block closed yields a tree. *)
Lemma createTreeFromString_total source state :
  scan initialState source = Ok state -> stack state = [] ->
  exists tree, createTreeFromString source = Ok tree.
Proof.
  intros H Hs. unfold createTreeFromString. rewrite H. cbn [bind].
  rewrite Hs.
  destruct (scan_linked _ _ _ initialState_linked H) as (_ & Ht & Hc).
  destruct (resolveAll_total (blocks state) (tree state) Hc Ht)
    as [tree ->].
  eauto.
Qed.

(** C4.  Every block of a tree that [createTreeFromString] returns has a
    selector, and no at-rule entry when it has more than one selector.
    This is what [handleOpeningBrace] sees to, the only handler that
    creates blocks: it throws "Unexpected opening brace" when the trimmed
    buffer is empty, throws "At-rule mixed with other selectors" when the
    list made of the selector stack and the trimmed buffer has more than
    one entry and an entry that starts with "@", and otherwise creates a
    block with that list as its selectors. *)
Theorem C4_parsed_selectors :
  (forall source tree,
      createTreeFromString source = Ok tree ->
      Forall (fun block => wellFormedSelectors (Ast.selectors block))
        (blocksOfTree tree))
  /\ (forall state,
        Js.trim (buffer state) = EmptyString ->
        handleOpeningBrace state
        = Err (newParsingError "Unexpected opening brace" state))
  /\ (forall state,
        Js.trim (buffer state) <> EmptyString ->
        1 < List.length (selectorStack state ++ [Js.trim (buffer state)]) ->
        (exists s, In s (selectorStack state ++ [Js.trim (buffer state)])
                   /\ Js.startsWith s "@" = true) ->
        handleOpeningBrace state
        = Err (newParsingError "At-rule mixed with other selectors" state))
  /\ (forall state,
        wellFormedSelectors
          (selectorStack state ++ [Js.trim (buffer state)]) ->
        Js.trim (buffer state) <> EmptyString ->
        exists state',
          handleOpeningBrace state = Ok state'
          /\ option_map selectors
               (nth_error (blocks state') (List.length (blocks state)))
             = Some (selectorStack state ++ [Js.trim (buffer state)])).
Proof.
  assert (NonEmpty : forall s, s <> EmptyString ->
                               (String.length s =? 0)%nat = false).
  { intros [|c s] H; [now elim H | reflexivity]. }
  split; [|split; [|split]].
  - intros source tree. unfold createTreeFromString.
    destruct (scan initialState source) as [state|e] eqn:E; cbn [bind];
      [|discriminate].
    destruct (stack state); [|discriminate].
    destruct (resolveAll _ _ _) as [t|] eqn:R; [|discriminate].
    intros [= <-].
    apply (resolveAll_wellFormed _ _ _ _
             (scan_wellFormed _ _ _ initialState_wellFormed E) R).
  - intros state H. rewrite handleOpeningBrace_cases. cbv zeta.
    now rewrite H.
  - intros state H Hlen (s & Hin & Hs).
    rewrite handleOpeningBrace_cases. cbv zeta.
    rewrite (NonEmpty _ H).
    apply Nat.ltb_lt in Hlen. rewrite Hlen.
    assert (E : existsb (fun s => Js.startsWith s "@")
                  (selectorStack state ++ [Js.trim (buffer state)]) = true)
      by (apply existsb_exists; eauto).
    now rewrite E.
  - intros state [_ Hwf] H. rewrite handleOpeningBrace_cases. cbv zeta.
    rewrite (NonEmpty _ H).
    assert (E : (1 <? List.length
                         (selectorStack state ++ [Js.trim (buffer state)]))%nat
                && existsb (fun s => Js.startsWith s "@")
                     (selectorStack state ++ [Js.trim (buffer state)])
                = false).
    { destruct (1 <? _)%nat eqn:L; [|reflexivity]. cbn [andb].
      apply Nat.ltb_lt in L.
      destruct (existsb _ _) eqn:X; [|reflexivity].
      apply existsb_exists in X as (s & Hin & Hs).
      rewrite (Hwf L s Hin) in Hs. discriminate. }
    rewrite E. eexists. split; [reflexivity|]. cbn [blocks].
    destruct (top (stack state)) as [parent|].
    + rewrite nth_error_update.
      rewrite nth_error_app2, Nat.sub_diag by lia. cbn [nth_error].
      now destruct (_ =? _)%nat.
    + rewrite nth_error_app2, Nat.sub_diag by lia. reflexivity.
Qed.

Lemma C4_parsed_selectors_witness :
  Forall (fun block => wellFormedSelectors (Ast.selectors block))
    (blocksOfTree
       [mkBlock ["a"; "b"]
          (Some [{| key := "c"; value := "d" |}])
          (Some
             [mkBlock ["e"] None None
                (Some {| start := {| line := 1; column := 11 |};
                         end_ := Some {| line := 1; column := 12 |} |})])
          (Some {| start := {| line := 1; column := 5 |};
                   end_ := Some {| line := 1; column := 13 |} |})]).
Proof.
  refine (proj1 C4_parsed_selectors "a, b{c:d;e{}}" _ _).
vm_compute. reflexivity.
Defined.

End ParserClaims.

(** ** Parser: the parenthesis counter *)

Section ParserParentheses.

Import Parser Scanner.

Lemma handlerOf_cases c handle :
  handlerOf c = Some handle ->
  (c = "{"%char /\ handle = handleOpeningBrace)
  \/ (c = "}"%char /\ handle = handleClosingBrace)
  \/ (c = ";"%char /\ handle = handleSemicolon)
  \/ (c = ":"%char /\ handle = handleColon)
  \/ (c = ","%char /\ handle = handleComma)
  \/ (c = "&"%char /\ handle = handleAmpersand)
  \/ (c = "@"%char /\ handle = handleAtSign)
  \/ (c = ascii_of_nat 34 /\ handle = handleDoubleQuote)
  \/ (c = "("%char /\ handle = handleOpeningParenthesis)
  \/ (c = ")"%char /\ handle = handleClosingParenthesis).
Proof.
  unfold handlerOf.
  repeat match goal with
         | |- context [if (c =? ?d)%char then _ else _] =>
             destruct (Ascii.eqb_spec c d)
         end; intros [= <-]; tauto.
Qed.

Lemma handlers_level c handle state state' :
  handlerOf c = Some handle -> handle state = Ok state' ->
  currentParenthesisLevel state'
  = (currentParenthesisLevel state + counted state c)%Z.
Proof.
  intros H. apply handlerOf_cases in H.
  repeat destruct H as [H|H]; destruct H as [-> ->];
    [rewrite handleOpeningBrace_cases; cbv zeta|..];
    unfold handleClosingBrace, handleSemicolon, handleColon, handleComma,
      handleAmpersand, handleAtSign, handleDoubleQuote,
      handleOpeningParenthesis, handleClosingParenthesis, counted;
    repeat match goal with
           | |- context [match ?x with _ => _ end] => destruct x eqn:?
           end;
    intros [= <-]; cbn in *; try congruence; lia.
Qed.

End ParserParentheses.

Section ParserParenthesesClaims.

Import Parser Scanner.

Lemma scanCharacter_level state c state' :
  scanCharacter state c = Ok state' ->
  currentParenthesisLevel state'
  = (currentParenthesisLevel state + counted state c)%Z.
Proof.
  unfold scanCharacter.
  set (moved := if (c =? ascii_of_nat 10)%char then _ else _).
  assert (L : currentParenthesisLevel moved = currentParenthesisLevel state)
    by (subst moved; now destruct (c =? ascii_of_nat 10)%char).
  assert (C : counted moved c = counted state c)
    by (subst moved; now destruct (c =? ascii_of_nat 10)%char).
  destruct (handlerOf c) as [handle|] eqn:E.
  - intros H. rewrite (handlers_level c handle _ _ E H). congruence.
  - intros [= <-]. cbn [setBuffer currentParenthesisLevel].
    rewrite L, <- C. unfold counted.
    assert (N1 : (c =? "(")%char = false).
    { destruct (Ascii.eqb_spec c "("); [subst; discriminate | reflexivity]. }
    assert (N2 : (c =? ")")%char = false).
    { destruct (Ascii.eqb_spec c ")"); [subst; discriminate | reflexivity]. }
    rewrite N1, N2. destruct (_ && _); lia.
Qed.

Lemma lacks_append c a b :
  lacks c (a +:+ b) = lacks c a && lacks c b.
Proof.
  induction a as [|d a IH]; cbn [lacks String.append]; [reflexivity|].
  now rewrite IH, andb_assoc.
Qed.

Lemma lacks_trimStart c s : lacks c s = true -> lacks c (Js.trimStart s) = true.
Proof.
  induction s as [|d s IH]; cbn [lacks Js.trimStart]; [reflexivity|].
  intros H. destruct (Js.isWhiteSpace d); [|exact H].
  apply andb_prop in H as [_ H]. now apply IH.
Qed.

Lemma lacks_trimEnd c s : lacks c s = true -> lacks c (Js.trimEnd s) = true.
Proof.
  induction s as [|d s IH]; cbn [lacks Js.trimEnd]; [reflexivity|].
  intros H. apply andb_prop in H as [Hd H]. specialize (IH H).
  destruct (Js.trimEnd s).
  - destruct (Js.isWhiteSpace d); [reflexivity|].
    cbn [lacks]. now rewrite Hd.
  - cbn [lacks] in *. now rewrite Hd, IH.
Qed.

Lemma lacks_startsWith c s :
  lacks c s = true -> Js.startsWith s (String c EmptyString) = false.
Proof.
  unfold Js.startsWith. destruct s as [|d s]; cbn [lacks String.prefix];
    [reflexivity|].
  intros H. apply andb_prop in H as [Hd _]. apply negb_true_iff in Hd.
  destruct (ascii_dec c d) as [->|]; [|reflexivity].
  now rewrite Ascii.eqb_refl in Hd.
Qed.

Lemma handlers_plainMode c handle state state' :
  handlerOf c = Some handle ->
  c <> ascii_of_nat 34 ->
  plainMode state -> handle state = Ok state' -> plainMode state'.
Proof.
  intros H Hq (Hl & Hc & Hb). apply handlerOf_cases in H.
  assert (Hbang : Js.startsWith (Js.trim (buffer state)) "!" = false)
    by (apply lacks_startsWith, lacks_trimEnd, lacks_trimStart, Hb).
  repeat destruct H as [H|H]; destruct H as [-> ->];
    try (now elim Hq);
    [rewrite handleOpeningBrace_cases; cbv zeta|..];
    unfold handleClosingBrace, handleSemicolon, handleColon, handleComma,
      handleAmpersand, handleAtSign, handleDoubleQuote,
      handleOpeningParenthesis, handleClosingParenthesis, plainMode;
    repeat match goal with
           | |- context [match ?x with _ => _ end] => destruct x eqn:?
           end;
    intros [= <-]; cbn in *;
    rewrite ?lacks_append, ?Hb; cbn; auto; try congruence.
Qed.

Lemma scanCharacter_plainMode state c state' :
  c <> ascii_of_nat 34 -> c <> "!"%char ->
  plainMode state -> scanCharacter state c = Ok state' ->
  plainMode state'.
Proof.
  intros Hq Hbang H. unfold scanCharacter.
  set (moved := if (c =? ascii_of_nat 10)%char then _ else _).
  assert (M : plainMode moved)
    by (subst moved; now destruct (c =? ascii_of_nat 10)%char).
  destruct (handlerOf c) as [handle|] eqn:E.
  - now apply (handlers_plainMode c handle _ _ E Hq M).
  - intros [= <-]. destruct M as (Hl & Hc & Hb).
    repeat split; try assumption.
    cbn [setBuffer buffer]. rewrite lacks_append, Hb. cbn [lacks andb].
    apply Ascii.eqb_neq in Hbang. now rewrite Hbang.
Qed.

(** Outside string literals and custom-property values every
    parenthesis counts. *)
Lemma scan_level_plain source : forall state state',
  lacks (ascii_of_nat 34) source = true -> lacks "!" source = true ->
  plainMode state ->
  scan state source = Ok state' ->
  currentParenthesisLevel state'
  = (currentParenthesisLevel state
     + occurrences "(" source - occurrences ")" source)%Z.
Proof.
  induction source as [|c source IH]; intros state state' Hq Hb Hm;
    cbn [scan occurrences].
  - intros [= <-]. lia.
  - cbn [lacks] in Hq, Hb.
    apply andb_prop in Hq as [Hq Hq'], Hb as [Hb Hb'].
    apply negb_true_iff, Ascii.eqb_neq in Hq, Hb.
    destruct (scanCharacter state c) as [st|e] eqn:E; cbn [bind];
      [|discriminate].
    intros H.
    rewrite (IH st state' Hq' Hb'
               (scanCharacter_plainMode _ _ _ Hq Hb Hm E) H).
    rewrite (scanCharacter_level _ _ _ E). unfold counted.
    destruct Hm as (-> & -> & _). cbn [negb andb].
    destruct (Ascii.eqb_spec c "("), (Ascii.eqb_spec c ")"); subst;
      try discriminate; lia.
Qed.

(** C8.  The claim fails on the source ")": the closing parenthesis is
    counted at level 0 and leaves the counter at -1; the scan goes on and
    the parse succeeds.  The handlers are not written for a negative
    level: [handleComma] provides for a level above 0 (the comma is part
    of the text) and for level 0 (the comma ends a selector), and at -1
    does neither, so the comma is lost: "a),b{c:d;}" is parsed as one
    block with the single selector "a)b", where "a,b{c:d;}" gives the
    selectors "a" and "b".  The underflow of the stack, in contrast, is
    guarded: [handleClosingBrace] throws on an empty stack. *)
Theorem C8_unmatched_parenthesis :
  (exists state,
      handleClosingParenthesis initialState = Ok state
      /\ currentParenthesisLevel state = (-1)%Z
      /\ handleComma state = Ok state)
  /\ (exists state,
        scan initialState ")" = Ok state
        /\ currentParenthesisLevel state = (-1)%Z)
  /\ createTreeFromString ")" = Ok []
  /\ (exists block,
        createTreeFromString "a),b{c:d;}" = Ok [block]
        /\ Ast.selectors block = ["a)b"])
  /\ (exists block,
        createTreeFromString "a,b{c:d;}" = Ok [block]
        /\ Ast.selectors block = ["a"; "b"])
  /\ (exists e,
        handleClosingBrace initialState = Err e
        /\ message e = "Unexpected closing brace").
Proof.
  split; [|split; [|split; [|split; [|split]]]].
  - eexists. split; [reflexivity|]. split; reflexivity.
  - eexists. split; reflexivity.
  - reflexivity.
  - eexists. split; vm_compute; reflexivity.
  - eexists. split; vm_compute; reflexivity.
  - eexists. split; reflexivity.
Qed.

(** X25.  [handleClosingParenthesis] never throws, appends ")" to
    the buffer, and decrements the counter by exactly one when the parser
    is neither inside a custom-property value nor inside a string literal,
    at any level; otherwise it leaves the counter alone.  One turn of the
    scan changes the counter by what the character counts for, so only
    this handler lowers it.  In a source without double quotes and
    exclamation marks the counter is, throughout, the number of "(" minus
    the number of ")" scanned so far: it is never negative exactly when no
    prefix of the source has more ")" than "(". *)
Theorem parenthesis_level_counts :
  (forall state,
      exists state',
        handleClosingParenthesis state = Ok state'
        /\ buffer state' = buffer state +:+ ")"
        /\ currentParenthesisLevel state'
           = if negb (isCustomProperty state)
                && negb (isStringLiteral state)
             then (currentParenthesisLevel state - 1)%Z
             else currentParenthesisLevel state)
  /\ (forall state c state',
        scanCharacter state c = Ok state' ->
        currentParenthesisLevel state'
        = (currentParenthesisLevel state + counted state c)%Z
        /\ (c <> ")"%char ->
            (currentParenthesisLevel state
             <= currentParenthesisLevel state')%Z))
  /\ (forall scanned rest state,
        lacks (ascii_of_nat 34) scanned = true ->
        lacks "!" scanned = true ->
        scan initialState scanned = Ok state ->
        scan initialState (scanned +:+ rest) = scan state rest
        /\ currentParenthesisLevel state
           = (occurrences "(" scanned - occurrences ")" scanned)%Z).
Proof.
  split; [|split].
  - intros state. unfold handleClosingParenthesis. cbn [setBuffer isCustomProperty isStringLiteral].
    destruct (negb (isCustomProperty state) && negb (isStringLiteral state));
      eexists; repeat split.
  - intros state c state' H.
    pose proof (scanCharacter_level _ _ _ H) as L. split; [exact L|].
    intros Hc. rewrite L. unfold counted.
    destruct (_ && _); [|lia].
    destruct (Ascii.eqb_spec c "("); [lia|].
    destruct (Ascii.eqb_spec c ")"); [contradiction | lia].
  - intros scanned rest state Hq Hb H. split.
    + revert H. generalize initialState.
      induction scanned as [|c scanned IH]; intros st; cbn [scan String.append].
      * now intros [= <-].
      * destruct (scanCharacter st c) as [st'|e]; cbn [bind];
          [apply IH | discriminate].
        -- now apply andb_prop in Hq as [_ Hq].
        -- now apply andb_prop in Hb as [_ Hb].
    + assert (P : plainMode initialState) by (repeat split).
      rewrite (scan_level_plain _ _ _ Hq Hb P H). cbn. lia.
Qed.

Lemma parenthesis_level_counts_witness :
  scan initialState ("a(b)" +:+ ")") =
    scan {| buffer := "a(b)"; stack := []; selectorStack := []; tree := [];
            blocks := []; isStringLiteral := false; isAtRule := false;
            isNestedSelector := false; isCustomProperty := false;
            currentParenthesisLevel := 0%Z;
            currentPropertyName := EmptyString;
            currentLine := 1; currentColumn := 4 |} ")"
  /\ 0%Z = (occurrences "(" "a(b)" - occurrences ")" "a(b)")%Z.
Proof.
  refine (proj2 (proj2 parenthesis_level_counts) "a(b)" ")" _ _ _ _);
    vm_compute; reflexivity.
Defined.

End ParserParenthesesClaims.

Section FirstSelectorWitness.

Import Renderer.

Lemma C10_first_selector_access_witness :
  isRenderingError
    (RenderingError
       "Rendering error: Nested media queries are not supported @ line 2 (column 1).")
  /\ (exists text,
        renderTreeToString
          (fst (fst (Transformer.transformTree screenInsideRule
                       [emptyingPlugin] [])))
        = Err (TypeError text)).
Proof.
  split.
  - refine (proj1 C10_first_selector_access screenInsideScreen _ _ _).
    + repeat constructor; discriminate.
    + vm_compute. reflexivity.
  - exact (proj1 (proj2 (proj2 C10_first_selector_access))
             (mkBlock [] (Some [])
                (Some [mkBlock [] (Some [redProperty]) None None]) None)
             [] eq_refl).
Defined.

End FirstSelectorWitness.

(** ** Parser: what every handler keeps *)

Section DelimiterInvariants.

Import Parser.

Lemma delimiters_cases name handle :
  In (name, handle) delimiters ->
  handle = handleOpeningBrace \/ handle = handleClosingBrace
  \/ handle = handleSemicolon \/ handle = handleColon
  \/ handle = handleComma \/ handle = handleAmpersand
  \/ handle = handleAtSign \/ handle = handleDoubleQuote
  \/ handle = handleOpeningParenthesis
  \/ handle = handleClosingParenthesis.
Proof.
  unfold delimiters. cbn [In].
  intros H. repeat destruct H as [H|H]; try (injection H as _ <-; tauto).
  contradiction.
Qed.

Lemma delimiters_handlerOf name handle :
  In (name, handle) delimiters ->
  exists c, Scanner.handlerOf c = Some handle.
Proof.
  intros H. apply delimiters_cases in H.
  repeat destruct H as [H|H]; subst.
  - now exists "{"%char.
  - now exists "}"%char.
  - now exists ";"%char.
  - now exists ":"%char.
  - now exists ","%char.
  - now exists "&"%char.
  - now exists "@"%char.
  - now exists (ascii_of_nat 34).
  - now exists "("%char.
  - now exists ")"%char.
Qed.

Ltac each_delimiter H :=
  apply delimiters_cases in H;
  repeat destruct H as [H|H]; subst;
  [rewrite handleOpeningBrace_cases; cbv zeta|..];
  unfold handleClosingBrace, handleSemicolon, handleColon, handleComma,
    handleAmpersand, handleAtSign, handleDoubleQuote,
    handleOpeningParenthesis, handleClosingParenthesis;
  repeat match goal with
         | |- context [match ?x with _ => _ end] => destruct x eqn:?
         end;
  intros [= <-].

(** X4.  No handler of [delimiters] clears [isAtRule]: once an at-sign
    has set it, it stays set through every handler that returns. *)
Theorem delimiters_keep_isAtRule name handle state state' :
  In (name, handle) delimiters ->
  handle state = Ok state' ->
  isAtRule state = true -> isAtRule state' = true.
Proof.
  intros H. each_delimiter H; cbn; auto.
Qed.

(** X3.  Every handler keeps the link between the two fields of a
    declaration in progress: [isCustomProperty] holds only while
    [currentPropertyName] starts with "!". *)
Theorem delimiters_keep_customConsistent name handle state state' :
  In (name, handle) delimiters ->
  customConsistent state ->
  handle state = Ok state' -> customConsistent state'.
Proof.
  intros H Hc. unfold customConsistent in *.
  each_delimiter H; cbn in *; auto; try discriminate.
Qed.


(** *** Trimming *)

Lemma trimEnd_head c s :
  Js.isWhiteSpace c = false ->
  exists t, Js.trimEnd (String c s) = String c t.
Proof.
  intros H. cbn [Js.trimEnd]. rewrite H.
  destruct (Js.trimEnd s); eauto.
Qed.

Lemma trimStart_fixed c s :
  Js.isWhiteSpace c = false -> Js.trimStart (String c s) = String c s.
Proof. intros H. cbn [Js.trimStart]. now rewrite H. Qed.

Lemma trimStart_cases s :
  Js.trimStart s = EmptyString
  \/ exists c t, Js.trimStart s = String c t /\ Js.isWhiteSpace c = false.
Proof.
  induction s as [|c s IH]; cbn [Js.trimStart]; [now left|].
  destruct (Js.isWhiteSpace c) eqn:E; [exact IH | right; eauto].
Qed.

Lemma trimEnd_idempotent s : Js.trimEnd (Js.trimEnd s) = Js.trimEnd s.
Proof.
  induction s as [|c s IH]; [reflexivity|].
  cbn [Js.trimEnd].
  destruct (Js.trimEnd s) as [|d t] eqn:E.
  - destruct (Js.isWhiteSpace c) eqn:W; [reflexivity|].
    cbn [Js.trimEnd]. now rewrite W.
  - change (Js.trimEnd (String c (String d t)))
      with (match Js.trimEnd (String d t) with
            | EmptyString => if Js.isWhiteSpace c then EmptyString
                             else String c EmptyString
            | String e u => String c (String e u)
            end).
    now rewrite IH.
Qed.

(** Trimming a trimmed text changes nothing. *)
Lemma trim_idempotent s : Js.trim (Js.trim s) = Js.trim s.
Proof.
  unfold Js.trim.
  destruct (trimStart_cases s) as [->|(c & t & -> & W)]; [reflexivity|].
  destruct (trimEnd_head c t W) as [u E]. rewrite E.
  rewrite (trimStart_fixed c u W), <- E. apply trimEnd_idempotent.
Qed.

Lemma storedText_trim s :
  Js.truthy (Js.trim s) = true -> storedText (Js.trim s).
Proof.
  intros H. split; [|apply trim_idempotent].
  now destruct (Js.trim s).
Qed.

Lemma storedText_trim_length s :
  (String.length (Js.trim s) =? 0)%nat = false -> storedText (Js.trim s).
Proof.
  intros H. apply storedText_trim. now destruct (Js.trim s).
Qed.


(** *** The texts the parser stores *)

Lemma objectText_appendChild r object :
  objectText object -> objectText (appendChild r object).
Proof. now intros [H1 H2]. Qed.

Lemma objectText_stampEnd p object :
  objectText object -> objectText (stampEnd p object).
Proof. now intros [H1 H2]. Qed.

Lemma objectText_appendProperty property object :
  storedText (key property) -> storedText (value property) ->
  objectText object -> objectText (appendProperty property object).
Proof.
  intros Hk Hv [H1 H2]. split; [exact H1|].
  unfold appendProperty. cbn [properties listOf].
  destruct (properties object) as [l|]; cbn [listOf] in *.
  - apply Forall_app. split; [exact H2|].
    constructor; [now split | constructor].
  - constructor; [now split | constructor].
Qed.

(** X2.  Every handler keeps the stored texts clean: the selectors
    waiting in [selectorStack], the selectors of every block and the key and
    value of every declaration are non-empty and have no white space at
    either end, and the pending property name is unchanged by [trim]. *)
Theorem delimiters_keep_textWellFormed name handle state state' :
  In (name, handle) delimiters ->
  textWellFormed state ->
  handle state = Ok state' -> textWellFormed state'.
Proof.
  intros H (Hs & Hn & Hb). unfold textWellFormed.
  each_delimiter H; cbn [selectorStack currentPropertyName blocks
                           setBuffer setStack setBlocks setSelectorStack
                           setCurrentPropertyName setIsCustomProperty
                           setIsNestedSelector setIsAtRule setIsStringLiteral
                           setCurrentParenthesisLevel] in *;
    repeat split; try assumption; try constructor;
    try apply trim_idempotent;
    try (apply Forall_update;
         [intros o Ho;
          first [ now apply objectText_appendChild
                | now apply objectText_stampEnd
                | idtac ]
         | try assumption ]).
  - apply Forall_app. split; [assumption|].
    constructor; [|constructor]. split; [|constructor].
    apply Forall_app. split; [assumption|].
    constructor; [now apply storedText_trim_length | constructor].
  - apply Forall_app. split; [assumption|].
    constructor; [|constructor]. split; [|constructor].
    apply Forall_app. split; [assumption|].
    constructor; [now apply storedText_trim_length | constructor].
  - match goal with
    | E : _ || _ = false |- _ =>
        apply orb_false_elim in E as [E1 E2];
        apply negb_false_iff in E1, E2
    end.
    apply objectText_appendProperty; cbn [key value]; try assumption.
    + split; [|assumption]. now destruct (currentPropertyName state).
    + now apply storedText_trim.
  - match goal with
    | E : negb _ = false |- _ => apply negb_false_iff in E
    end.
    apply Forall_app. split; [assumption|].
    constructor; [now apply storedText_trim | constructor].
Qed.


(** *** The store only grows *)

Lemma continues_refl o : continues o o.
Proof.
  repeat split; exists []; now rewrite app_nil_r.
Qed.

Lemma continues_appendChild r o : continues o (appendChild r o).
Proof.
  repeat split; [exists []; now rewrite app_nil_r|].
  exists [r]. unfold appendChild. cbn [children].
  now destruct (children o).
Qed.

Lemma continues_appendProperty p o : continues o (appendProperty p o).
Proof.
  repeat split; [|exists []; now rewrite app_nil_r].
  exists [p]. unfold appendProperty. cbn [properties].
  now destruct (properties o).
Qed.

Lemma continues_stampEnd p o : continues o (stampEnd p o).
Proof.
  repeat split; exists []; now rewrite app_nil_r.
Qed.

Lemma keeps_refl l : keeps l l.
Proof. intros r o H. exists o. split; [exact H | apply continues_refl]. Qed.

Lemma keeps_update l p f :
  (forall o, continues o (f o)) -> keeps l (update l p f).
Proof.
  intros Hf r o H. rewrite nth_error_update, H. cbn [option_map].
  destruct (r =? p)%nat; eexists; split; try reflexivity;
    [apply Hf | apply continues_refl].
Qed.

Lemma keeps_app_update l x p f :
  (forall o, continues o (f o)) -> keeps l (update (l ++ [x]) p f).
Proof.
  intros Hf r o H. rewrite nth_error_update.
  assert (E : nth_error (l ++ [x]) r = Some o).
  { rewrite nth_error_app1; [exact H|]. apply nth_error_Some. congruence. }
  rewrite E. cbn [option_map].
  destruct (r =? p)%nat; eexists; split; try reflexivity;
    [apply Hf | apply continues_refl].
Qed.

Lemma keeps_app l x : keeps l (l ++ [x]).
Proof.
  intros r o H. exists o. split; [|apply continues_refl].
  rewrite nth_error_app1; [exact H|]. apply nth_error_Some. congruence.
Qed.

(** X1.  No handler removes a block, moves it to another reference, or
    changes its selectors or its start position; the declarations and the
    children of a block and the roots of the tree are only added to, at the
    end. *)
Theorem delimiters_only_grow_store name handle state state' :
  In (name, handle) delimiters ->
  handle state = Ok state' -> storeGrows state state'.
Proof.
  intros H. unfold storeGrows. fold (keeps (blocks state) (blocks state')).
  each_delimiter H; cbn [blocks tree setBuffer setStack setBlocks
                           setSelectorStack setTree
                           setCurrentPropertyName setIsCustomProperty
                           setIsNestedSelector setIsAtRule setIsStringLiteral
                           setCurrentParenthesisLevel];
    (split; [| first [ now exists []; rewrite app_nil_r | eauto ] ]);
    first [ apply keeps_refl
          | apply keeps_app
          | apply keeps_app_update; apply continues_appendChild
          | apply keeps_update; apply continues_stampEnd
          | apply keeps_update; apply continues_appendProperty ].
Qed.


Lemma pendingDeclaration_semicolon :
  handleSemicolon pendingDeclaration = Ok declared.
Proof. reflexivity. Qed.

Lemma handleSemicolon_listed : In ("handleSemicolon", handleSemicolon) delimiters.
Proof. cbn. tauto. Qed.

Lemma handleAtSign_listed : In ("handleAtSign", handleAtSign) delimiters.
Proof. cbn. tauto. Qed.

Lemma handleColon_listed : In ("handleColon", handleColon) delimiters.
Proof. cbn. tauto. Qed.

Lemma delimiters_only_grow_store_witness :
  storeGrows pendingDeclaration declared.
Proof.
  exact (delimiters_only_grow_store _ _ _ _ handleSemicolon_listed
           pendingDeclaration_semicolon).
Defined.

Lemma pendingDeclaration_text : textWellFormed pendingDeclaration.
Proof.
  unfold textWellFormed, objectText, storedText. cbn.
  repeat split; repeat constructor; try discriminate; reflexivity.
Qed.

Lemma delimiters_keep_textWellFormed_witness : textWellFormed declared.
Proof.
  exact (delimiters_keep_textWellFormed _ _ _ _ handleSemicolon_listed
           pendingDeclaration_text pendingDeclaration_semicolon).
Defined.

Lemma delimiters_keep_customConsistent_witness :
  customConsistent
    {| buffer := EmptyString; stack := [0]; selectorStack := []; tree := [0];
       blocks := blocks pendingDeclaration;
       isStringLiteral := false; isAtRule := false;
       isNestedSelector := false; isCustomProperty := true;
       currentParenthesisLevel := 0%Z; currentPropertyName := "!x";
       currentLine := 1; currentColumn := 5 |}.
Proof.
  refine (delimiters_keep_customConsistent _ _
            {| buffer := "!x"; stack := [0]; selectorStack := [];
               tree := [0]; blocks := blocks pendingDeclaration;
               isStringLiteral := false; isAtRule := false;
               isNestedSelector := false; isCustomProperty := false;
               currentParenthesisLevel := 0%Z;
               currentPropertyName := EmptyString;
               currentLine := 1; currentColumn := 5 |}
            _ handleColon_listed _ _).
  - intros H. discriminate H.
  - reflexivity.
Defined.

Lemma delimiters_keep_isAtRule_witness :
  isAtRule
    {| buffer := "1:"; stack := [0]; selectorStack := []; tree := [0];
       blocks := blocks pendingDeclaration;
       isStringLiteral := false; isAtRule := true;
       isNestedSelector := false; isCustomProperty := false;
       currentParenthesisLevel := 0%Z; currentPropertyName := "b";
       currentLine := 1; currentColumn := 5 |} = true.
Proof.
  refine (delimiters_keep_isAtRule _ _
            {| buffer := "1"; stack := [0]; selectorStack := [];
               tree := [0]; blocks := blocks pendingDeclaration;
               isStringLiteral := false; isAtRule := true;
               isNestedSelector := false; isCustomProperty := false;
               currentParenthesisLevel := 0%Z;
               currentPropertyName := "b";
               currentLine := 1; currentColumn := 5 |}
            _ handleColon_listed _ _); reflexivity.
Defined.

(** X5.  Every handler keeps the references sound: those in [stack],
    in [tree] and in the [children] of any block point at blocks of the
    store, and a child was created after its parent, so the blocks form a
    forest without cycles. *)
Theorem delimiters_keep_links name handle state state' :
  In (name, handle) delimiters ->
  storeLinked state -> handle state = Ok state' -> storeLinked state'.
Proof.
  intros H. destruct (delimiters_handlerOf _ _ H) as [c Hc].
  exact (handlers_linked c handle state state' Hc).
Qed.

Lemma pendingDeclaration_linked : storeLinked pendingDeclaration.
Proof.
  repeat split; cbn; repeat constructor.
  intros [|[|i]] o; cbn; try discriminate.
  intros [= <-] l. discriminate.
Qed.

Lemma delimiters_keep_links_witness : storeLinked declared.
Proof.
  exact (delimiters_keep_links _ _ _ _ handleSemicolon_listed
           pendingDeclaration_linked pendingDeclaration_semicolon).
Defined.

End DelimiterInvariants.

(** ** Parser: what single handlers do to the store *)

Section DelimiterBehaviour.

Import Parser.

Lemma top_last below r : top (below ++ [r]) = Some r.
Proof. unfold top. now rewrite rev_app_distr. Qed.

Lemma pop_last below r : pop (below ++ [r]) = below.
Proof. apply removelast_last. Qed.

Lemma truthy_false s : Js.truthy s = false <-> s = EmptyString.
Proof. destruct s; cbn; split; intros H; congruence. Qed.

Lemma truthy_true s : Js.truthy s = true <-> s <> EmptyString.
Proof. destruct s; cbn; split; intros H; congruence. Qed.

(** X6.  [handleClosingBrace] throws "Unexpected closing brace" when no
    block is open or a property name is pending.  Otherwise it closes the
    innermost open block and nothing else: the stack loses its last entry,
    that block gets the current position as its end, every other block and
    the tree stay as they are, and the buffer is discarded. *)
Theorem handleClosingBrace_closes_innermost :
  forall state,
    (stack state = [] \/ currentPropertyName state <> EmptyString ->
     handleClosingBrace state
     = Err (newParsingError "Unexpected closing brace" state))
    /\ (forall below r,
          stack state = below ++ [r] ->
          currentPropertyName state = EmptyString ->
          exists state',
            handleClosingBrace state = Ok state'
            /\ stack state' = below
            /\ buffer state' = EmptyString
            /\ tree state' = tree state
            /\ List.length (blocks state') = List.length (blocks state)
            /\ (forall o, nth_error (blocks state) r = Some o ->
                          nth_error (blocks state') r
                          = Some (stampEnd (here state) o))
            /\ (forall i, i <> r ->
                          nth_error (blocks state') i
                          = nth_error (blocks state) i)).
Proof.
  intros state. split.
  - unfold handleClosingBrace. intros [H|H].
    + rewrite H. reflexivity.
    + apply truthy_true in H. rewrite H. now destruct (top (stack state)).
  - intros below r Hs Hn. unfold handleClosingBrace.
    rewrite Hs, top_last, pop_last, Hn. cbn [Js.truthy].
    eexists. split; [reflexivity|].
    cbn [stack buffer tree blocks setBuffer setBlocks setStack].
    repeat split.
    + apply length_update.
    + intros o Ho. rewrite nth_error_update, Nat.eqb_refl, Ho. reflexivity.
    + intros i Hi. rewrite nth_error_update.
      apply Nat.eqb_neq in Hi. now rewrite Hi.
Qed.

Lemma handleClosingBrace_closes_innermost_witness :
  exists state',
    handleClosingBrace declared = Ok state'
    /\ stack state' = []
    /\ buffer state' = EmptyString
    /\ tree state' = tree declared
    /\ List.length (blocks state') = List.length (blocks declared)
    /\ (forall o, nth_error (blocks declared) 0 = Some o ->
                  nth_error (blocks state') 0
                  = Some (stampEnd (here declared) o))
    /\ (forall i, i <> 0 ->
                  nth_error (blocks state') i
                  = nth_error (blocks declared) i).
Proof.
  exact (proj2 (handleClosingBrace_closes_innermost declared) [] 0
           eq_refl eq_refl).
Defined.

(** X7.  Outside a string literal [handleSemicolon] throws when the
    property name or the trimmed buffer is empty, and when no block is open.
    Otherwise the declaration goes to the innermost open block and nowhere
    else: that block's properties get the pair of the pending name and the
    trimmed buffer as their last entry, every other block stays as it is,
    and the name, the custom-property flag and the buffer are reset.  Inside
    a string literal the semicolon is appended to the buffer and nothing
    else changes. *)
Theorem handleSemicolon_declares_in_innermost :
  forall state,
    (isStringLiteral state = true ->
     handleSemicolon state = Ok (setBuffer state (buffer state +:+ ";")))
    /\ (isStringLiteral state = false ->
        currentPropertyName state = EmptyString
        \/ Js.trim (buffer state) = EmptyString ->
        handleSemicolon state
        = Err (newParsingError
                 "Unexpected semicolon (expected property declaration)" state))
    /\ (isStringLiteral state = false ->
        currentPropertyName state <> EmptyString ->
        Js.trim (buffer state) <> EmptyString ->
        (stack state = [] ->
         handleSemicolon state
         = Err (newParsingError "Unexpected semicolon (outside block)" state))
        /\ (forall below r,
              stack state = below ++ [r] ->
              exists state',
                handleSemicolon state = Ok state'
                /\ stack state' = stack state
                /\ tree state' = tree state
                /\ buffer state' = EmptyString
                /\ currentPropertyName state' = EmptyString
                /\ isCustomProperty state' = false
                /\ (forall o,
                      nth_error (blocks state) r = Some o ->
                      exists o',
                        nth_error (blocks state') r = Some o'
                        /\ listOf (properties o')
                           = listOf (properties o)
                               ++ [{| key := currentPropertyName state;
                                      value := Js.trim (buffer state) |}]
                        /\ selectors o' = selectors o
                        /\ children o' = children o
                        /\ metadata o' = metadata o)
                /\ (forall i, i <> r ->
                              nth_error (blocks state') i
                              = nth_error (blocks state) i))).
Proof.
  intros state. unfold handleSemicolon. split; [|split].
  - now intros ->.
  - intros -> [H|H]; apply truthy_false in H; rewrite H;
      [reflexivity | cbn [negb]; now rewrite orb_true_r].
  - intros -> Hn Hv. apply truthy_true in Hn, Hv. rewrite Hn, Hv.
    cbn [negb orb]. split.
    + now intros ->.
    + intros below r Hs. rewrite Hs, top_last.
      eexists. split; [reflexivity|].
      cbn [stack buffer tree blocks currentPropertyName isCustomProperty
             setBuffer setBlocks setIsCustomProperty setCurrentPropertyName].
      repeat split; try assumption.
      * intros o Ho. eexists.
        rewrite nth_error_update, Nat.eqb_refl, Ho. cbn [option_map].
        split; [reflexivity|].
        unfold appendProperty. cbn [properties selectors children metadata].
        now destruct (properties o).
      * intros i Hi. rewrite nth_error_update.
        apply Nat.eqb_neq in Hi. now rewrite Hi.
Qed.

Lemma handleSemicolon_declares_in_innermost_witness :
  exists state',
    handleSemicolon pendingDeclaration = Ok state'
    /\ stack state' = stack pendingDeclaration
    /\ tree state' = tree pendingDeclaration
    /\ buffer state' = EmptyString
    /\ currentPropertyName state' = EmptyString
    /\ isCustomProperty state' = false
    /\ (forall o,
          nth_error (blocks pendingDeclaration) 0 = Some o ->
          exists o',
            nth_error (blocks state') 0 = Some o'
            /\ listOf (properties o')
               = listOf (properties o) ++ [{| key := "b"; value := "1" |}]
            /\ selectors o' = selectors o
            /\ children o' = children o
            /\ metadata o' = metadata o)
    /\ (forall i, i <> 0 ->
                  nth_error (blocks state') i
                  = nth_error (blocks pendingDeclaration) i).
Proof.
  refine (proj2 (proj2 (proj2 (handleSemicolon_declares_in_innermost
                                 pendingDeclaration))
                   eq_refl _ _) [] 0 eq_refl); discriminate.
Defined.

(** X8.  With the two declaration fields consistent, [handleComma] does
    one of four things.  In a string literal, with a property name pending
    or inside parentheses it appends the comma to the buffer.  At level 0 it
    throws when the trimmed buffer is empty and otherwise moves the trimmed
    buffer to the end of [selectorStack].  At a negative level it returns
    the state as it is: the comma is dropped. *)
Theorem handleComma_cases :
  forall state,
    customConsistent state ->
    (isStringLiteral state = true
     \/ currentPropertyName state <> EmptyString
     \/ (0 < currentParenthesisLevel state)%Z ->
     handleComma state = Ok (setBuffer state (buffer state +:+ ",")))
    /\ (isStringLiteral state = false ->
        currentPropertyName state = EmptyString ->
        (currentParenthesisLevel state = 0%Z ->
         Js.trim (buffer state) = EmptyString ->
         handleComma state
         = Err (newParsingError "Unexpected comma (expected selector)" state))
        /\ (currentParenthesisLevel state = 0%Z ->
            Js.trim (buffer state) <> EmptyString ->
            handleComma state
            = Ok (setBuffer
                    (setSelectorStack state
                       (selectorStack state ++ [Js.trim (buffer state)]))
                    EmptyString))
        /\ ((currentParenthesisLevel state < 0)%Z ->
            handleComma state = Ok state)).
Proof.
  intros state Hc. unfold handleComma. split.
  - intros [H|[H|H]].
    + now rewrite H.
    + apply truthy_true in H. rewrite H. now rewrite orb_true_r.
    + apply Z.ltb_lt in H. rewrite H. now rewrite !orb_true_r.
  - intros Hl Hn.
    assert (Hcustom : isCustomProperty state = false).
    { destruct (isCustomProperty state) eqn:E; [|reflexivity].
      specialize (Hc E). rewrite Hn in Hc. discriminate. }
    rewrite Hl, Hn, Hcustom. cbn [Js.truthy orb negb andb].
    split; [|split].
    + intros -> Ht. rewrite Ht. reflexivity.
    + intros -> Ht. apply truthy_true in Ht. cbn. now rewrite Ht.
    + intros Hneg.
      assert (E1 : (0 <? currentParenthesisLevel state)%Z = false)
        by (apply Z.ltb_ge; lia).
      assert (E2 : (currentParenthesisLevel state =? 0)%Z = false)
        by (apply Z.eqb_neq; lia).
      now rewrite E1, E2.
Qed.

Lemma handleComma_cases_witness :
  handleComma (setCurrentParenthesisLevel Scanner.initialState (-1)%Z)
  = Ok (setCurrentParenthesisLevel Scanner.initialState (-1)%Z).
Proof.
  refine (proj2 (proj2 (proj2 (handleComma_cases
                                 (setCurrentParenthesisLevel
                                    Scanner.initialState (-1)%Z) _)
                          eq_refl eq_refl)) _).
  - intros H. discriminate H.
  - reflexivity.
Defined.

Lemma get_last (b q : string) :
  b <> EmptyString ->
  String.get (String.length b - 1) (b +:+ q) = lastCharacter b.
Proof.
  induction b as [|c b IH]; intros H; [now elim H|].
  destruct b as [|d b]; [reflexivity|].
  assert (IH' := IH ltac:(discriminate)).
  cbn [String.length Nat.sub] in *. rewrite Nat.sub_0_r in *.
  cbn [String.append String.get lastCharacter] in *. exact IH'.
Qed.

Lemma length_append (a b : string) :
  String.length (a +:+ b) = String.length a + String.length b.
Proof. induction a as [|c a IH]; cbn; [reflexivity | now rewrite IH]. Qed.

(** The test [buffer[buffer.length - 2] === '\\'], made after the quote
    was appended, asks whether the buffer ended with a backslash. *)
Lemma escapedQuote_last (b : string) :
  escapedQuote (b +:+ Js.doubleQuote)
  = match lastCharacter b with
    | Some c => (c =? "\")%char
    | None => false
    end.
Proof.
  unfold escapedQuote. rewrite length_append. cbn [String.length Js.doubleQuote].
  destruct b as [|c b]; [reflexivity|].
  replace (String.length (String c b) + 1 <? 2)%nat with false
    by (symmetry; apply Nat.ltb_ge; cbn; lia).
  replace (String.length (String c b) + 1 - 2)
    with (String.length (String c b) - 1) by lia.
  fold Js.doubleQuote. rewrite get_last by discriminate.
  reflexivity.
Qed.

(** X9.  [handleDoubleQuote] never throws and always appends the quote.
    Inside a custom-property value it does nothing else.  Otherwise a quote
    outside a string literal opens one, and a quote inside a string literal
    closes it unless the character before the quote is a backslash; the
    backslashes before it are not counted, so a quote after an escaped
    backslash keeps the literal open too. *)
Theorem handleDoubleQuote_toggles :
  forall state,
    handleDoubleQuote state
    = Ok (if isCustomProperty state
          then setBuffer state (buffer state +:+ Js.doubleQuote)
          else setIsStringLiteral
                 (setBuffer state (buffer state +:+ Js.doubleQuote))
                 (if isStringLiteral state
                  then match lastCharacter (buffer state) with
                       | Some c => (c =? "\")%char
                       | None => false
                       end
                  else true)).
Proof.
  intros state. unfold handleDoubleQuote.
  cbn [isCustomProperty isStringLiteral buffer setBuffer].
  destruct (isCustomProperty state); [reflexivity|]. cbn [negb].
  destruct (isStringLiteral state); [|reflexivity].
  now rewrite escapedQuote_last.
Qed.

End DelimiterBehaviour.

(** ** Renderer: more about contexts and fragments *)

Section RendererExtras.

Import Renderer.

Lemma startsWith_append s t p :
  Js.startsWith s p = true -> Js.startsWith (s +:+ t) p = true.
Proof.
  unfold Js.startsWith. intros H.
  destruct (prefix_split _ _ H) as [b ->].
  rewrite append_assoc. apply prefix_append.
Qed.

Lemma renderBlock_target state block context parents :
  (exists e, renderBlock state block context parents = Err e)
  \/ (exists target sels,
        renderBlock state block context parents
        = renderBlockContent state target sels block
        /\ (contextName context -> contextName target)).
Proof.
  destruct block as [[|first rest] p c m].
  - left. eexists. reflexivity.
  - rewrite renderBlock_unfold.
    destruct (Js.startsWith first "@media screen") eqn:E1.
    + destruct (Js.includes context "screen"); [eauto|].
      destruct (Js.includes context "-color-scheme"); [eauto|].
      right. eexists _, _. split; [reflexivity|].
      intros _. right. eapply startsWith_at, E1.
    + destruct (Js.startsWith first "@media") eqn:E2; cbn [andb].
      * destruct (Js.includes first "-color-scheme").
        -- destruct (Js.includes context "-color-scheme"); [eauto|].
           right. eexists _, _. split; [reflexivity|].
           intros _. right.
           destruct (Js.startsWith context "@media screen") eqn:E3;
             cbn [negb].
           ++ apply startsWith_append. eapply startsWith_at, E3.
           ++ eapply startsWith_at, E2.
        -- assert (E3 : Js.startsWith first "@" = true)
             by (eapply startsWith_at, E2).
           rewrite E3. destruct (Js.startsWith context "@"); [eauto|].
           right. eexists _, _. split; [reflexivity|]. intros _. now right.
      * destruct (Js.startsWith first "@") eqn:E3.
        -- destruct (Js.startsWith context "@"); [eauto|].
           right. eexists _, _. split; [reflexivity|]. intros _. now right.
        -- right. eexists _, _. split; [reflexivity|]. auto.
Qed.

Lemma afterOwnFragment_names state target sels block :
  contextName target ->
  Forall contextName (map fst (output state)) ->
  Forall contextName
    (map fst (output (afterOwnFragment state target sels block))).
Proof.
  intros Ht H.
  assert (E : Forall contextName (map fst (ensure (output state) target))).
  { unfold ensure. destruct (lookup (output state) target); [exact H|].
    rewrite map_app. apply Forall_app. split; [exact H|].
    constructor; [exact Ht | constructor]. }
  unfold afterOwnFragment.
  destruct (properties block) as [[|p ps]|]; cbn [output];
    rewrite ?keys_push; exact E.
Qed.

Lemma renderChildren_names l :
  Forall (fun child => forall state context parents state',
              contextName context ->
              Forall contextName (map fst (output state)) ->
              renderBlock state child context parents = Ok state' ->
              Forall contextName (map fst (output state'))) l ->
  forall state context parents state',
    contextName context ->
    Forall contextName (map fst (output state)) ->
    renderChildren state context parents l = Ok state' ->
    Forall contextName (map fst (output state')).
Proof.
  induction 1 as [|child l Hc _ IH]; intros state context parents state' Hn H;
    cbn [renderChildren].
  - now intros [= <-].
  - destruct (renderBlock state child context parents) as [st|e] eqn:E;
      cbn [bind]; [|discriminate].
    apply IH; [exact Hn|]. now apply (Hc _ _ _ _ Hn H E).
Qed.

Lemma renderBlock_names block :
  forall state context parents state',
    contextName context ->
    Forall contextName (map fst (output state)) ->
    renderBlock state block context parents = Ok state' ->
    Forall contextName (map fst (output state')).
Proof.
  induction block as [s p c m IH] using Block_induction.
  intros state context parents state' Hn H R.
  destruct (renderBlock_target state (mkBlock s p c m) context parents)
    as [[e E]|(target & sels & E & Ht)]; [congruence|].
  rewrite E, renderBlockContent_unfold in R. cbn [children] in R.
  pose proof (afterOwnFragment_names state target sels (mkBlock s p c m)
                (Ht Hn) H) as A.
  destruct c as [l|].
  - exact (renderChildren_names l (IH l eq_refl) _ _ _ _ (Ht Hn) A R).
  - now injection R as <-.
Qed.

(** X10.  Every context the renderer creates is named "root" or by a
    text that starts with "@": the keys of [state.output] are never array
    indices or names that an object inherits, so [Object.entries] lists them
    in the order of their creation. *)
Theorem render_context_names :
  forall tree state,
    renderRoots {| output := [] |} tree = Ok state ->
    Forall contextName (map fst (output state)).
Proof.
  intros tree. generalize (Forall_nil contextName).
  change (@nil string) with (map fst (output {| output := [] |})).
  generalize {| output := [] |}.
  induction tree as [|block tree IH]; intros st H state; cbn [renderRoots].
  - now intros [= <-].
  - destruct (renderBlock st block "root" []) as [st'|e] eqn:E; cbn [bind];
      [|discriminate].
    apply IH. apply (renderBlock_names block st "root" [] st');
      [now left | exact H | exact E].
Qed.

Lemma render_context_names_witness :
  Forall contextName ["root"; "@media screen"].
Proof.
  refine (render_context_names screenInsideRule
            {| output := [("root", []);
                          ("@media screen", [".a{color:red}"])] |} _).
  vm_compute. reflexivity.
Defined.

Lemma renderBlock_flatRule fragments block :
  flatRule block ->
  renderBlock {| output := [("root", fragments)] |} block "root" []
  = Ok {| output := [("root", fragments ++ flatFragments [block])] |}.
Proof.
  intros [(first & rest & Hs & Hat) Hc].
  rewrite (renderBlock_ordinary _ _ _ _ first rest Hs Hat).
  rewrite combineSelectors_no_parents, renderBlockContent_unfold.
  assert (A : afterOwnFragment {| output := [("root", fragments)] |} "root"
                (selectors block) block
              = {| output := [("root", fragments ++ flatFragments [block])] |}).
  { unfold afterOwnFragment, flatFragments. cbn [flat_map output].
    destruct (properties block) as [[|p ps]|]; cbn;
      now rewrite ?app_nil_r. }
  rewrite A. now destruct Hc as [-> | ->].
Qed.

Lemma renderRoots_flat tree : forall fragments,
  Forall flatRule tree ->
  renderRoots {| output := [("root", fragments)] |} tree
  = Ok {| output := [("root", fragments ++ flatFragments tree)] |}.
Proof.
  induction tree as [|block tree IH]; intros fragments H.
  - cbn. now rewrite app_nil_r.
  - inversion H as [|? ? Hb Ht]; subst. cbn [renderRoots].
    rewrite (renderBlock_flatRule fragments block Hb). cbn [bind].
    rewrite (IH _ Ht). unfold flatFragments. cbn [flat_map].
    now rewrite app_nil_r, app_assoc.
Qed.

(** X11.  Flat CSS comes out as it went in: a forest of ordinary blocks
    without children renders, without failure, to the concatenation of one
    fragment per block that has properties, in the order of the blocks,
    each fragment being the block's own selectors joined by ",", "{", the
    "key:value" pairs joined by ";", and "}"; blocks without properties
    leave no trace, and the empty forest renders to the empty string. *)
Theorem render_flat_rules :
  forall tree,
    Forall flatRule tree ->
    renderTreeToString tree = Ok (Js.join "" (flatFragments tree)).
Proof.
  intros [|block tree] H; [reflexivity|].
  inversion H as [|? ? Hb Ht]; subst.
  unfold renderTreeToString. cbn [renderRoots].
  destruct Hb as [(first & rest & Hs & Hat) Hc].
  rewrite (renderBlock_ordinary _ _ _ _ first rest Hs Hat).
  rewrite combineSelectors_no_parents, renderBlockContent_unfold.
  assert (A : afterOwnFragment {| output := [] |} "root"
                (selectors block) block
              = {| output := [("root", [] ++ flatFragments [block])] |}).
  { unfold afterOwnFragment, flatFragments. cbn [flat_map output].
    destruct (properties block) as [[|p ps]|]; reflexivity. }
  rewrite A.
  assert (R : renderRoots {| output := [("root", [] ++ flatFragments [block])] |}
                tree
              = Ok {| output := [("root", flatFragments (block :: tree))] |}).
  { rewrite (renderRoots_flat tree _ Ht). unfold flatFragments.
    cbn [flat_map app]. now rewrite app_nil_r. }
  destruct Hc as [-> | ->]; cbn [renderChildren bind]; rewrite R;
    cbn [bind output map renderGroup];
    destruct (flatFragments (block :: tree)); cbn;
    now rewrite ?append_empty_r.
Qed.

Lemma flatTree_flat : Forall flatRule flatTree.
Proof.
  unfold flatTree.
  constructor; [|constructor; [|constructor; [|constructor]]];
    (split; [eexists _, _; split; reflexivity | cbn; auto]).
Qed.

Lemma render_flat_rules_witness :
  renderTreeToString flatTree = Ok "a{b:1}e{f:2;g:3}".
Proof. exact (render_flat_rules flatTree flatTree_flat). Defined.

(** X12.  A color-scheme block inside a "@media screen" context whose
    prelude the pattern does not match (no parenthesised group, an empty
    one, or a ")" after the first group) is rendered into the context named
    by the current context, "and", and the whole prelude. *)
Theorem color_scheme_prelude_without_match :
  forall state block context parents first rest,
    selectors block = first :: rest ->
    Js.startsWith first "@media screen" = false ->
    Js.startsWith first "@media" = true ->
    Js.includes first "-color-scheme" = true ->
    Js.includes context "-color-scheme" = false ->
    Js.startsWith context "@media screen" = true ->
    (forall inside, ~ matchesPrelude first inside) ->
    renderBlock state block context parents
    = renderBlockContent state (context +:+ "and" +:+ first) parents block.
Proof.
  intros state [s p c m] context parents first rest Hs H1 H2 H3 H4 H5 Hno.
  cbn [selectors] in Hs. subst s.
  rewrite renderBlock_unfold, H1, H2, H3, H4, H5. cbn [andb negb].
  now rewrite (replaceWithFirstGroup_no_match first Hno).
Qed.

Lemma twoGroupsPrelude_no_match :
  forall inside, ~ matchesPrelude twoGroupsPrelude inside.
Proof.
  intros inside H. apply replaceWithFirstGroup_match in H.
  vm_compute in H. discriminate H.
Qed.

Lemma color_scheme_prelude_without_match_witness :
  renderBlock {| output := [] |} (mkBlock [twoGroupsPrelude] None None None)
    "@media screen and (min-width:600px)" []
  = renderBlockContent {| output := [] |}
      ("@media screen and (min-width:600px)" +:+ "and" +:+ twoGroupsPrelude)
      [] (mkBlock [twoGroupsPrelude] None None None).
Proof.
  exact (color_scheme_prelude_without_match {| output := [] |}
           (mkBlock [twoGroupsPrelude] None None None)
           "@media screen and (min-width:600px)" [] _ _ eq_refl eq_refl
           eq_refl eq_refl eq_refl eq_refl twoGroupsPrelude_no_match).
Defined.

Lemma ordinary_rule_selectors_witness :
  renderBlock {| output := [] |}
    (mkBlock [".b"; "&:hover"] None None None) "root" [".a"; ".c"]
  = renderBlockContent {| output := [] |} "root"
      [".a .b"; ".c .b"; ".a:hover"; ".c:hover"]
      (mkBlock [".b"; "&:hover"] None None None).
Proof.
  exact (proj1 (ordinary_rule_selectors {| output := [] |}
                  (mkBlock [".b"; "&:hover"] None None None) "root"
                  [".a"; ".c"] _ _ eq_refl eq_refl)).
Defined.

End RendererExtras.

(** ** The view and the transformer: more properties *)

Section ViewExtras.

Import Transformer.

(** X14.  [hasProperty] and [getProperty] agree: a key is reported
    present exactly when a value is returned for it. *)
Theorem hasProperty_iff_getProperty :
  forall k block,
    hasProperty k block = true <-> exists v, getProperty k block = Some v.
Proof.
  intros k block. unfold hasProperty, getProperty.
  induction (propertiesOf block) as [|p l IH]; cbn [existsb find option_map].
  - split; [discriminate | intros [v H]; discriminate].
  - destruct (hasKey k p); cbn [orb option_map].
    + split; eauto.
    + exact IH.
Qed.

Lemma assignFirst_twice k v1 v2 l :
  assignFirst k v2 (assignFirst k v1 l) = assignFirst k v2 l.
Proof.
  induction l as [|p l IH]; [reflexivity|]. cbn [assignFirst].
  destruct (hasKey k p) eqn:E; cbn [assignFirst].
  - unfold hasKey in *. cbn [key]. now rewrite E.
  - now rewrite E, IH.
Qed.

Lemma assignFirst_absent k v l :
  find (hasKey k) l = None -> assignFirst k v l = l.
Proof.
  induction l as [|p l IH]; [reflexivity|]. cbn [find assignFirst].
  destruct (hasKey k p); [discriminate|]. intros H. now rewrite IH.
Qed.

Lemma assignFirst_same k v l :
  option_map value (find (hasKey k) l) = Some v -> assignFirst k v l = l.
Proof.
  induction l as [|p l IH]; [reflexivity|]. cbn [find assignFirst].
  destruct (hasKey k p).
  - cbn [option_map]. intros [= <-]. now destruct p.
  - intros H. now rewrite IH.
Qed.

Lemma filter_assignFirst_same k v l :
  filter (fun q => negb (hasKey k q)) (assignFirst k v l)
  = filter (fun q => negb (hasKey k q)) l.
Proof.
  induction l as [|p l IH]; [reflexivity|]. cbn [assignFirst].
  destruct (hasKey k p) eqn:E; cbn [filter].
  - unfold hasKey in *. cbn [key]. now rewrite E.
  - now rewrite E, IH.
Qed.

(** X15.  How the property methods compose.  The last [setProperty] of a
    key wins; removing a key after setting it is removing it; setting a key
    to the value [getProperty] returns for it changes nothing; removing a
    key twice is removing it once; and removing a key that [hasProperty]
    reports absent leaves the properties as they are. *)
Theorem property_methods_compose :
  forall k block,
    (forall v1 v2,
        setProperty k v2 (setProperty k v1 block) = setProperty k v2 block)
    /\ (forall v,
          removeProperty k (setProperty k v block) = removeProperty k block)
    /\ (forall v,
          getProperty k block = Some v ->
          propertiesOf (setProperty k v block) = propertiesOf block)
    /\ removeProperty k (removeProperty k block) = removeProperty k block
    /\ (hasProperty k block = false ->
        propertiesOf (removeProperty k block) = propertiesOf block).
Proof.
  intros k [s p c m]. unfold setProperty, removeProperty, getProperty,
    hasProperty, withProperties, propertiesOf.
  cbn [properties selectors children metadata].
  set (l := match p with Some l => l | None => [] end).
  split; [|split; [|split; [|split]]].
  - intros v1 v2. destruct (find (hasKey k) l) as [q|] eqn:E.
    + cbn [properties selectors children metadata].
      rewrite (find_assignFirst_same _ v1 _ _ E).
      cbn [properties selectors children metadata].
      now rewrite assignFirst_twice.
    + cbn [properties selectors children metadata].
      rewrite find_app, E. cbn [find].
      unfold hasKey at 1. cbn [key]. rewrite String.eqb_refl.
      cbn [properties selectors children metadata].
      f_equal. f_equal.
      assert (A : forall l', find (hasKey k) l' = None ->
                    assignFirst k v2 (l' ++ [{| key := k; value := v1 |}])
                    = l' ++ [{| key := k; value := v2 |}]).
      { induction l' as [|q l' IH]; cbn [find app assignFirst].
        - intros _. unfold hasKey. cbn [key]. now rewrite String.eqb_refl.
        - destruct (hasKey k q); [discriminate|]. intros H. now rewrite IH. }
      now apply A.
  - intros v. destruct (find (hasKey k) l) as [q|] eqn:E;
      cbn [properties selectors children metadata]; f_equal; f_equal.
    + apply filter_assignFirst_same.
    + rewrite filter_app. cbn [filter]. unfold hasKey at 2. cbn [key].
      rewrite String.eqb_refl. apply app_nil_r.
  - intros v H. destruct (find (hasKey k) l) as [q|] eqn:E;
      cbn [properties]; [|discriminate].
    apply assignFirst_same. now rewrite E.
  - f_equal. f_equal. induction l as [|q l' IH]; [reflexivity|].
    cbn [filter]. destruct (hasKey k q) eqn:E; cbn [negb filter];
      [exact IH | now rewrite E, IH].
  - intros H. induction l as [|q l' IH]; [reflexivity|].
    cbn [existsb filter] in *. apply orb_false_elim in H as [H1 H2].
    rewrite H1. cbn [negb]. now rewrite IH.
Qed.

Lemma property_methods_compose_witness :
  propertiesOf (setProperty "b" "1" repeatedKeyBlock)
  = propertiesOf repeatedKeyBlock
  /\ propertiesOf (removeProperty "d" repeatedKeyBlock)
     = propertiesOf repeatedKeyBlock.
Proof.
  split.
  - exact (proj1 (proj2 (proj2 (property_methods_compose "b"
                                  repeatedKeyBlock))) "1" eq_refl).
  - exact (proj2 (proj2 (proj2 (proj2 (property_methods_compose "d"
                                         repeatedKeyBlock)))) eq_refl).
Defined.

End ViewExtras.

Section TransformerExtras.

Import Transformer.

(** X16.  Whatever the handlers do, and whether or not one of them
    throws, [transformTree] leaves the shape of the tree alone: no block is
    added, removed or moved, and every block keeps its metadata.  Handlers
    reach selectors and properties only. *)
Theorem transformTree_keeps_skeleton :
  forall tree plugins world,
    map skeletonOf (fst (fst (transformTree tree plugins world)))
    = map skeletonOf tree.
Proof.
  intros tree plugins world. apply forEachBlock_skeleton.
  apply Forall_forall. intros block _. apply transformBlock_skeleton.
Qed.

(** X24.  [transformTree] visits the blocks in pre-order, a block before
    its children, and applies the handlers to a block in the order given.
    Without a failure, every block was handled and the log holds the
    entries of the handlers block after block in that order.  When a
    handler throws on a block, the blocks before it in pre-order were
    handled in full and no later block was touched.  What the run throws
    then depends on the thrown value: if its [message] can be read, the
    run throws an error whose message starts with "Transformation error: ",
    includes the text read (the text "undefined" for a value without a
    message) and, when the block has metadata, includes " @ line " followed
    by the block's start line; if the value is [null] or [undefined], the
    message of what the run throws includes the message of the [TypeError]
    raised in the [catch] clause.  When a handler throws on the first root
    block, the run throws exactly what the [catch] clause throws for it. *)
Theorem transformTree_order_and_wrapping :
  forall tree plugins world tree' world' failure,
    transformTree tree plugins world = ((tree', world'), failure) ->
    (failure = None ->
     world' = world ++ flat_map (emitted plugins) (blocksOfTree tree)
     /\ Forall (fun y => thrown plugins y = None) (blocksOfTree tree))
    /\ (forall error,
          failure = Some error ->
          exists before x after original,
            blocksOfTree tree = before ++ x :: after
            /\ Forall (fun y => thrown plugins y = None) before
            /\ thrown plugins x = Some original
            /\ world' = world ++ flat_map (emitted plugins) (before ++ [x])
            /\ (forall message,
                  readMessage original = Ok message ->
                  Js.startsWith (failureMessage error)
                    "Transformation error: " = true
                  /\ Js.includes (failureMessage error) message = true
                  /\ (forall m,
                        metadata x = Some m ->
                        Js.includes (failureMessage error)
                          (" @ line " +:+ Js.ofNat (line (start m)))
                        = true))
            /\ (forall message,
                  readMessage original = Err message ->
                  Js.includes (failureMessage error) message = true))
    /\ (forall block,
          blocksOf block
          = block :: match children block with
                     | Some l => flat_map blocksOf l
                     | None => []
                     end)
    /\ (forall plugin rest block w,
          runPlugins (plugin :: rest) block w
          = match runHandler (handler plugin) block w with
            | ((block', w'), None) => runPlugins rest block' w'
            | failed => failed
            end)
    /\ (forall block rest original,
          thrown plugins block = Some original ->
          snd (transformTree (block :: rest) plugins world)
          = Some (caught original block)).
Proof.
  intros tree plugins world tree' world' failure H.
  pose proof (transformTree_explains plugins tree world) as E.
  pose proof (transformTree_failure_shape plugins tree world) as S.
  rewrite H in E, S. cbn [fst snd] in E, S.
  split; [|split; [|split; [|split]]].
  - intros ->. exact E.
  - intros error ->.
    destruct E as (before & x & after & original & Ho & Fb & Hx & Hw & Hm).
    exists before, x, after, original.
    split; [assumption|]. split; [assumption|]. split; [assumption|].
    split; [assumption|]. unfold caught in Hm. split.
    + intros message R. rewrite R in Hm. cbn [failureMessage] in Hm.
      destruct (transformationError_includes message x) as [I1 I2].
      split; [|split].
      * assert (P : Js.includes (failureMessage error)
                      "Transformation error: " = true).
        { eapply includes_trans; [exact Hm|].
          apply includes_prefix, prefix_append. }
        destruct (S error eq_refl) as [(text & -> & Hs)|[->| ->]];
          [exact Hs | |]; vm_compute in P; discriminate.
      * eapply includes_trans; eassumption.
      * intros m Hmeta. eapply includes_trans; [exact Hm | now apply I2].
    + intros message R. now rewrite R in Hm.
  - apply blocksOf_unfold.
  - reflexivity.
  - intros block rest original Hx.
    rewrite transformTree_cons, transformBlock_unfold, runPlugins_emitted.
    now rewrite Hx.
Qed.

Lemma transformTree_order_and_wrapping_witness :
  exists before x after original,
    blocksOfTree nestedTree = before ++ x :: after
    /\ Forall (fun y => thrown [loggingPlugin; failingPlugin] y = None)
         before
    /\ thrown [loggingPlugin; failingPlugin] x = Some original
    /\ ["a"; "b"]
       = [] ++ flat_map (emitted [loggingPlugin; failingPlugin])
                 (before ++ [x])
    /\ (forall message,
          readMessage original = Ok message ->
          Js.startsWith
            "Transformation error: Transformation error: boom @ line 2 @ line 1"
            "Transformation error: " = true
          /\ Js.includes
               "Transformation error: Transformation error: boom @ line 2 @ line 1"
               message = true
          /\ (forall m,
                metadata x = Some m ->
                Js.includes
                  "Transformation error: Transformation error: boom @ line 2 @ line 1"
                  (" @ line " +:+ Js.ofNat (line (start m))) = true))
    /\ (forall message,
          readMessage original = Err message ->
          Js.includes
            "Transformation error: Transformation error: boom @ line 2 @ line 1"
            message = true).
Proof.
  refine (proj1 (proj2 (transformTree_order_and_wrapping nestedTree
                          [loggingPlugin; failingPlugin] [] _ _ _ _))
            (TransformationError
               "Transformation error: Transformation error: boom @ line 2 @ line 1")
            _);
    vm_compute; reflexivity.
Defined.

End TransformerExtras.

(** ** Pipeline *)

Section PipelineExtras.

Import Pipeline.

Variable createTreeFromString
  : string -> result Parser.ParsingError AbstractTree.

Lemma renderChildren_ext (f : Block -> Block) l :
  Forall (fun child => forall state context parents,
              Renderer.renderBlock state (f child) context parents
              = Renderer.renderBlock state child context parents) l ->
  forall state context parents,
    Renderer.renderChildren state context parents (map f l)
    = Renderer.renderChildren state context parents l.
Proof.
  induction 1 as [|child l Hc _ IH]; intros state context parents;
    cbn [map Renderer.renderChildren]; [reflexivity|].
  rewrite Hc.
  destruct (Renderer.renderBlock state child context parents); cbn [bind];
    [apply IH | reflexivity].
Qed.

(** The renderer does not tell a missing properties array from an empty
    one. *)
Lemma renderBlock_withDefaultProperties block :
  forall state context parents,
    Renderer.renderBlock state (withDefaultProperties block) context parents
    = Renderer.renderBlock state block context parents.
Proof.
  induction block as [s p c m IH] using Block_induction.
  intros state context parents.
  assert (Content : forall target sels,
             Renderer.renderBlockContent state target sels
               (withDefaultProperties (mkBlock s p c m))
             = Renderer.renderBlockContent state target sels
                 (mkBlock s p c m)).
  { intros target sels. rewrite !renderBlockContent_unfold.
    assert (A : Renderer.afterOwnFragment state target sels
                  (withDefaultProperties (mkBlock s p c m))
                = Renderer.afterOwnFragment state target sels
                    (mkBlock s p c m)).
    { unfold Renderer.afterOwnFragment. cbn [withDefaultProperties properties].
      now destruct p as [[|q l]|]. }
    rewrite A. cbn [withDefaultProperties children].
    destruct c as [l|]; [|reflexivity].
    apply renderChildren_ext, (IH l eq_refl). }
  destruct s as [|first rest]; [reflexivity|].
  change (withDefaultProperties (mkBlock (first :: rest) p c m))
    with (mkBlock (first :: rest)
            (Some match p with Some l => l | None => [] end)
            match c with
            | Some l => Some (map withDefaultProperties l)
            | None => None
            end m) in *.
  rewrite !renderBlock_unfold.
  repeat match goal with
         | |- context [if ?b then _ else _] => destruct b
         end; try reflexivity; apply Content.
Qed.

Lemma renderTreeToString_withDefaultProperties tree :
  Renderer.renderTreeToString (map withDefaultProperties tree)
  = Renderer.renderTreeToString tree.
Proof.
  unfold Renderer.renderTreeToString. f_equal.
  generalize {| Renderer.output := [] |}.
  induction tree as [|block tree IH]; intros state;
    cbn [map Renderer.renderRoots]; [reflexivity|].
  rewrite renderBlock_withDefaultProperties.
  destruct (Renderer.renderBlock state block "root" []); cbn [bind];
    [apply IH | reflexivity].
Qed.

Lemma transformTree_no_plugins tree world :
  Transformer.transformTree tree [] world
  = ((map withDefaultProperties tree, world), None).
Proof.
  revert world. induction tree as [|block rest IH]; intros world;
    [reflexivity|].
  rewrite transformTree_cons, transformBlock_no_plugins, IH. reflexivity.
Qed.

(** X17.  A pipeline without plugins is the parser followed by the
    renderer: the pass of [transformTree] in between throws nothing, and
    the properties arrays it adds do not show in the output. *)
Theorem makePipeline_without_plugins :
  forall input,
    makePipeline createTreeFromString [] input
    = match createTreeFromString input with
      | Err e => Err (ParsingFailed e)
      | Ok tree =>
          match Renderer.renderTreeToString tree with
          | Err e => Err (RenderingFailed e)
          | Ok output => Ok output
          end
      end.
Proof.
  intros input. unfold makePipeline. cbn [groupPluginsByStage filter
    inputHandlers transformPluginsOf outputHandlers flat_map
    runInputPlugins bind].
  destruct (createTreeFromString input) as [tree|e]; [|reflexivity].
  rewrite transformTree_no_plugins.
  rewrite renderTreeToString_withDefaultProperties.
  now destruct (Renderer.renderTreeToString tree).
Qed.

Lemma stage_tests plugin :
  (stage plugin =? "input")%string
  = match plugin with InputPlugin _ => true | _ => false end
  /\ (stage plugin =? "transform")%string
     = match plugin with TransformPlugin _ => true | _ => false end
  /\ (stage plugin =? "output")%string
     = match plugin with OutputPlugin _ => true | _ => false end.
Proof. destruct plugin; repeat split. Qed.

Lemma filter_stage_input plugins :
  inputHandlers (filter (fun plugin => (stage plugin =? "input")%string)
                   plugins)
  = inputHandlers plugins.
Proof.
  unfold inputHandlers, transformPluginsOf, outputHandlers.
  induction plugins as [|plugin plugins IH]; [reflexivity|].
  cbn [filter]. destruct (stage_tests plugin) as (E1 & E2 & E3).
  rewrite E1. destruct plugin; cbn [flat_map app]; now rewrite ?IH.
Qed.

Lemma filter_stage_transform plugins :
  transformPluginsOf
    (filter (fun plugin => (stage plugin =? "transform")%string) plugins)
  = transformPluginsOf plugins.
Proof.
  unfold inputHandlers, transformPluginsOf, outputHandlers.
  induction plugins as [|plugin plugins IH]; [reflexivity|].
  cbn [filter]. destruct (stage_tests plugin) as (E1 & E2 & E3).
  rewrite E2. destruct plugin; cbn [flat_map app]; now rewrite ?IH.
Qed.

Lemma filter_stage_output plugins :
  outputHandlers (filter (fun plugin => (stage plugin =? "output")%string)
                    plugins)
  = outputHandlers plugins.
Proof.
  unfold inputHandlers, transformPluginsOf, outputHandlers.
  induction plugins as [|plugin plugins IH]; [reflexivity|].
  cbn [filter]. destruct (stage_tests plugin) as (E1 & E2 & E3).
  rewrite E3. destruct plugin; cbn [flat_map app]; now rewrite ?IH.
Qed.

Lemma groupPluginsByStage_handlers plugins :
  groupPluginsByStage plugins
  = (inputHandlers plugins, transformPluginsOf plugins,
      outputHandlers plugins).
Proof.
  unfold groupPluginsByStage.
  now rewrite filter_stage_input, filter_stage_transform,
    filter_stage_output.
Qed.

(** X18.  Only the order within a stage matters: a pipeline built from
    plugins registered in any interleaving is the pipeline built from the
    same plugins grouped by stage, input plugins first, then transform
    plugins, then output plugins, each group in its order of registration. *)
Theorem makePipeline_grouped_by_stage :
  forall plugins input,
    makePipeline createTreeFromString plugins input
    = makePipeline createTreeFromString
        (map InputPlugin (inputHandlers plugins)
           ++ map TransformPlugin (transformPluginsOf plugins)
           ++ map OutputPlugin (outputHandlers plugins))
        input.
Proof.
  intros plugins input. unfold makePipeline.
  rewrite !groupPluginsByStage_handlers.
  assert (I : forall l1 l2 l3,
             inputHandlers (map InputPlugin l1 ++ map TransformPlugin l2
                              ++ map OutputPlugin l3) = l1).
  { intros l1 l2 l3. unfold inputHandlers. rewrite !flat_map_app.
    replace (flat_map _ (map TransformPlugin l2)) with (@nil InputHandler)
      by (induction l2; cbn; auto).
    replace (flat_map _ (map OutputPlugin l3)) with (@nil InputHandler)
      by (induction l3; cbn; auto).
    rewrite !app_nil_r. induction l1; cbn; [reflexivity | now f_equal]. }
  assert (T : forall l1 l2 l3,
             transformPluginsOf (map InputPlugin l1 ++ map TransformPlugin l2
                                   ++ map OutputPlugin l3) = l2).
  { intros l1 l2 l3. unfold transformPluginsOf. rewrite !flat_map_app.
    replace (flat_map _ (map InputPlugin l1))
      with (@nil Transformer.TransformPlugin)
      by (induction l1; cbn; auto).
    replace (flat_map _ (map OutputPlugin l3))
      with (@nil Transformer.TransformPlugin)
      by (induction l3; cbn; auto).
    rewrite app_nil_r. cbn [app].
    induction l2; cbn; [reflexivity | now f_equal]. }
  assert (O : forall l1 l2 l3,
             outputHandlers (map InputPlugin l1 ++ map TransformPlugin l2
                               ++ map OutputPlugin l3) = l3).
  { intros l1 l2 l3. unfold outputHandlers. rewrite !flat_map_app.
    replace (flat_map _ (map InputPlugin l1)) with (@nil OutputHandler)
      by (induction l1; cbn; auto).
    replace (flat_map _ (map TransformPlugin l2)) with (@nil OutputHandler)
      by (induction l2; cbn; auto).
    cbn [app]. induction l3; cbn; [reflexivity | now f_equal]. }
  now rewrite I, T, O.
Qed.

(** X19.  An input plugin registered first acts on the source before
    everything else: the pipeline with it is the pipeline without it, run
    on the string the plugin returns.  When the plugin returns something
    that is no string the pipeline throws "Input plugins must return a
    string", and when it throws, its error; in both cases nothing is
    parsed. *)
Theorem makePipeline_first_input_plugin :
  forall handler plugins input,
    makePipeline createTreeFromString (InputPlugin handler :: plugins) input
    = match handler input with
      | Err message => Err (ErrorThrown message)
      | Ok (JsString s) => makePipeline createTreeFromString plugins s
      | Ok NotAString =>
          Err (ErrorThrown "Input plugins must return a string")
      end.
Proof.
  intros handler plugins input. unfold makePipeline.
  rewrite !groupPluginsByStage_handlers.
  cbn [inputHandlers transformPluginsOf outputHandlers flat_map app
         runInputPlugins bind].
  now destruct (handler input) as [[s|]|message].
Qed.

(** X20.  An output plugin registered last acts on the result: when the
    pipeline without it returns a text and the plugin, given that text,
    returns no string, the pipeline with it throws "Output plugins must
    return a string"; a pipeline that fails without the plugin fails the
    same way with it. *)
Theorem makePipeline_last_output_plugin :
  forall handler plugins input,
    (forall e,
        makePipeline createTreeFromString plugins input = Err e ->
        makePipeline createTreeFromString (plugins ++ [OutputPlugin handler])
          input = Err e)
    /\ (forall output,
          makePipeline createTreeFromString plugins input = Ok output ->
          (forall tree, handler output tree = Ok NotAString) ->
          makePipeline createTreeFromString (plugins ++ [OutputPlugin handler])
            input
          = Err (ErrorThrown "Output plugins must return a string")).
Proof.
  intros handler plugins input. unfold makePipeline.
  rewrite !groupPluginsByStage_handlers.
  assert (I : inputHandlers (plugins ++ [OutputPlugin handler])
              = inputHandlers plugins)
    by (unfold inputHandlers; rewrite flat_map_app; apply app_nil_r).
  assert (T : transformPluginsOf (plugins ++ [OutputPlugin handler])
              = transformPluginsOf plugins)
    by (unfold transformPluginsOf; rewrite flat_map_app; apply app_nil_r).
  assert (O : outputHandlers (plugins ++ [OutputPlugin handler])
              = outputHandlers plugins ++ [handler])
    by (unfold outputHandlers; now rewrite flat_map_app).
  rewrite I, T, O.
  assert (Out : forall handlers output tree,
             (forall e, runOutputPlugins handlers output tree = Err e ->
                        runOutputPlugins (handlers ++ [handler]) output tree
                        = Err e)
             /\ (forall final,
                   runOutputPlugins handlers output tree = Ok final ->
                   runOutputPlugins (handlers ++ [handler]) output tree
                   = runOutputPlugins [handler] final tree)).
  { induction handlers as [|h handlers IH]; intros output tree;
      cbn [app runOutputPlugins].
    - split; [discriminate | now intros final [= <-]].
    - destruct (h output tree) as [[s|]|message]; try (split; [auto | discriminate]).
      apply IH. }
  destruct (runInputPlugins (inputHandlers plugins) input) as [source|e0];
    cbn [bind]; [|split; [auto | discriminate]].
  destruct (createTreeFromString source) as [tree|e0];
    [|split; [auto | discriminate]].
  destruct (Transformer.transformTree tree (transformPluginsOf plugins) [])
    as [[tree' w] [message|]]; [split; [auto | discriminate]|].
  destruct (Renderer.renderTreeToString tree') as [output|e0];
    [|split; [auto | discriminate]].
  destruct (Out (outputHandlers plugins) output tree') as [OutE OutOk].
  split; [exact OutE|].
  intros final Hf Hh. rewrite (OutOk final Hf). cbn [runOutputPlugins].
  now rewrite Hh.
Qed.

End PipelineExtras.

Lemma makePipeline_last_output_plugin_witness :
  Pipeline.makePipeline Scanner.createTreeFromString
    ([] ++ [Pipeline.OutputPlugin silentOutputHandler]) "a{b:1;}"
  = Err (Pipeline.ErrorThrown "Output plugins must return a string").
Proof.
  refine (proj2 (makePipeline_last_output_plugin Scanner.createTreeFromString
                   silentOutputHandler [] "a{b:1;}") "a{b:1}" _ _).
  - vm_compute. reflexivity.
  - reflexivity.
Defined.

(** ** Parser: opening a block, colons, and parentheses in pairs *)

Section DelimiterBehaviourMore.

Import Parser.

(** X21.  In a state whose references are sound, when
    [handleOpeningBrace] does not throw it creates one block
    and links it in one place: the new block gets the next free reference,
    has the assembled selectors, the current position as its start, and
    neither properties nor children; it becomes the last child of the
    innermost open block, or the last root when no block is open; it is the
    new top of the stack; every other block stays as it is; the selector
    stack and the buffer are emptied and [isNestedSelector] is cleared. *)
Theorem handleOpeningBrace_opens_block :
  forall state state',
    storeLinked state ->
    handleOpeningBrace state = Ok state' ->
    let ref := List.length (blocks state) in
    stack state' = stack state ++ [ref]
    /\ selectorStack state' = []
    /\ buffer state' = EmptyString
    /\ isNestedSelector state' = false
    /\ List.length (blocks state') = S ref
    /\ (exists object,
          nth_error (blocks state') ref = Some object
          /\ selectors object
             = selectorStack state ++ [Js.trim (buffer state)]
          /\ properties object = None
          /\ children object = None
          /\ metadata object = {| start := here state; end_ := None |})
    /\ (stack state = [] ->
        tree state' = tree state ++ [ref]
        /\ (forall i, i < ref ->
                      nth_error (blocks state') i
                      = nth_error (blocks state) i))
    /\ (forall below parent,
          stack state = below ++ [parent] ->
          tree state' = tree state
          /\ (forall o, nth_error (blocks state) parent = Some o ->
                        nth_error (blocks state') parent
                        = Some (appendChild ref o))
          /\ (forall i, i < ref -> i <> parent ->
                        nth_error (blocks state') i
                        = nth_error (blocks state) i)).
Proof.
  intros state state' (Linked & _ & _).
  assert (Top : forall parent, top (stack state) = Some parent ->
                               parent < List.length (blocks state)).
  { intros parent H. rewrite Forall_forall in Linked.
    now apply Linked, top_In. }
  rewrite handleOpeningBrace_cases. cbv zeta.
  destruct (String.length (Js.trim (buffer state)) =? 0)%nat;
    [discriminate|].
  destruct (_ && _); [discriminate|].
  intros [= <-]. cbn [stack selectorStack buffer isNestedSelector blocks tree].
  set (object := {| selectors := _; properties := None; children := None;
                    metadata := _ |}).
  assert (New : nth_error (blocks state ++ [object])
                  (List.length (blocks state)) = Some object)
    by (rewrite nth_error_app2, Nat.sub_diag by lia; reflexivity).
  assert (Old : forall i, i < List.length (blocks state) ->
                  nth_error (blocks state ++ [object]) i
                  = nth_error (blocks state) i)
    by (intros i Hi; now rewrite nth_error_app1).
  split; [reflexivity|]. split; [reflexivity|]. split; [reflexivity|].
  split; [reflexivity|]. split; [|split; [|split]].
  - destruct (top (stack state)); rewrite ?length_update, length_app;
      cbn [List.length]; lia.
  - exists object. split; [|now repeat split].
    destruct (top (stack state)) as [parent|] eqn:E; [|exact New].
    rewrite nth_error_update, New.
    destruct (List.length (blocks state) =? parent)%nat eqn:Ep;
      [|reflexivity].
    apply Nat.eqb_eq in Ep. specialize (Top parent eq_refl). lia.
  - intros Hs. rewrite Hs. cbn [top rev nth_error]. split; [reflexivity|].
    exact Old.
  - intros below parent Hs.
    assert (Hp : parent < List.length (blocks state))
      by (apply Top; rewrite Hs; apply top_last).
    clear Top.
    rewrite Hs, top_last.
    split; [reflexivity|]. split.
    + intros o Ho. rewrite nth_error_update, Nat.eqb_refl, Old, Ho by exact Hp.
      reflexivity.
    + intros i Hi Hne. rewrite nth_error_update.
      apply Nat.eqb_neq in Hne. rewrite Hne. now apply Old.
Qed.

Lemma handleOpeningBrace_opens_block_witness :
  stack
    {| buffer := EmptyString; stack := [0; 1]; selectorStack := [];
       tree := [0];
       blocks :=
         [{| selectors := ["a"];
             properties := Some [{| key := "b"; value := "1" |}];
             children := Some [1];
             metadata :=
               {| start := {| line := 1; column := 2 |}; end_ := None |} |};
          {| selectors := ["c"; "d"]; properties := None; children := None;
             metadata :=
               {| start := {| line := 1; column := 5 |}; end_ := None |} |}];
       isStringLiteral := false; isAtRule := false;
       isNestedSelector := false; isCustomProperty := false;
       currentParenthesisLevel := 0%Z; currentPropertyName := EmptyString;
       currentLine := 1; currentColumn := 5 |}
  = stack (setSelectorStack (setBuffer declared " d ") ["c"]) ++ [1].
Proof.
  refine (proj1 (handleOpeningBrace_opens_block
                   (setSelectorStack (setBuffer declared " d ") ["c"]) _
                   _ _)).
  - repeat split; cbn; repeat constructor.
    intros [|[|i]] o; cbn; try discriminate.
    intros [= <-] l. discriminate.
  - vm_compute. reflexivity.
Defined.

(** X22.  [handleColon] takes the colon as text, appended to the buffer,
    inside an at-rule prelude, a string literal or a nested selector and
    when no block is open.  Otherwise it throws when a property name is
    pending outside custom-property mode, and else makes the trimmed buffer
    the pending property name, custom exactly when that name starts with
    "!", and empties the buffer; in custom-property mode this replaces the
    name that was pending. *)
Theorem handleColon_cases :
  forall state,
    (isAtRule state = true \/ isStringLiteral state = true
     \/ isNestedSelector state = true \/ stack state = [] ->
     handleColon state = Ok (setBuffer state (buffer state +:+ ":")))
    /\ (isAtRule state = false -> isStringLiteral state = false ->
        isNestedSelector state = false -> stack state <> [] ->
        (currentPropertyName state <> EmptyString ->
         isCustomProperty state = false ->
         handleColon state
         = Err (newParsingError "Unexpected colon (expected property value)"
                  state))
        /\ (currentPropertyName state = EmptyString
            \/ isCustomProperty state = true ->
            handleColon state
            = Ok (setBuffer
                    (setIsCustomProperty
                       (setCurrentPropertyName state
                          (Js.trim (buffer state)))
                       (Js.startsWith (Js.trim (buffer state)) "!"))
                    EmptyString))).
Proof.
  intros state. unfold handleColon. split.
  - intros [H|[H|[H|H]]]; rewrite H; rewrite ?orb_true_r; reflexivity.
  - intros -> -> -> Hs.
    assert (E : (List.length (stack state) =? 0)%nat = false)
      by (destruct (stack state); [now elim Hs | reflexivity]).
    rewrite E. cbn [orb]. split.
    + intros Hn ->. apply truthy_true in Hn. now rewrite Hn.
    + intros [Hn | Hc].
      * rewrite Hn. reflexivity.
      * rewrite Hc, andb_false_r. reflexivity.
Qed.

Lemma handleColon_cases_witness :
  handleColon (setBuffer declared " b ")
  = Ok (setBuffer
          (setIsCustomProperty
             (setCurrentPropertyName (setBuffer declared " b ") "b") false)
          EmptyString).
Proof.
  refine (proj2 (proj2 (handleColon_cases (setBuffer declared " b "))
                   eq_refl eq_refl eq_refl _) _).
  - discriminate.
  - now left.
Defined.

(** X23.  A pair of parentheses leaves the counter where it was: after
    [handleOpeningParenthesis] and then [handleClosingParenthesis] the state
    is the state before with "()" appended to the buffer, in every mode. *)
Theorem parentheses_in_pairs :
  forall state,
    (state' <- handleOpeningParenthesis state ;;
     handleClosingParenthesis state')
    = Ok (setBuffer state (buffer state +:+ "()")).
Proof.
  intros state. unfold handleOpeningParenthesis, handleClosingParenthesis.
  cbn [setBuffer isCustomProperty isStringLiteral].
  destruct state as [b st ss t bl sl ar ns cp lv pn ln cl].
  destruct cp, sl; cbn -[Z.add Z.sub String.append];
    rewrite append_assoc; cbn [String.append];
    try replace (lv + 1 - 1)%Z with lv by lia; reflexivity.
Qed.

End DelimiterBehaviourMore.
